(** * Psyclinic: context window, turn validation, sessions and model calls

    A shallow embedding of the core of [main.py]: [count_tokens],
    [fit_to_token_limit], the turn checks of [chat], the session store
    ([create_session], [verify_session], [logout]), the Bedrock call
    ([_invoke_bedrock_sync], [_invoke_bedrock_claude]), [generate_report]
    with its per-utterance analysis loop, the user table in [users.csv]
    and the endpoints around them.

    Conventions of the embedding.
    - A Python [str] is a [string]; each character stands for one code point
      below 256.
    - A Python number ([int] or [float]) is a rational [Q].  On the tokenizer
      path every quantity is an integer or a multiple of 1/2 and the model is
      exact; on the word-count fallback the model is the exact value of the
      arithmetic, without IEEE rounding.  The two decide every comparison of
      [fit_to_token_limit] alike as long as one counter prices every text
      (see [single_counter]); a statement that depends on the outcome of
      such a comparison assumes it.
    - An entry of [chat_history] is a dictionary that may lack the keys the
      code reads; reading a missing key raises [KeyError].
    - A raised exception is the [Raise] constructor of [result].
    - [time.time()], the outcome of the provider and the session token are
      inputs of the functions that read them. *)

From Stdlib Require Import ZArith QArith Qround Lqa Lia.
From Stdlib Require Import Ascii String DecimalString.
From stdpp Require Import base option list gmap strings.

Local Open Scope Z_scope.

(** ** Python primitives *)

Module Py.

(** [result E A]: a call either returns a value or raises. *)
Inductive result (E A : Type) : Type :=
| Ok (a : A)
| Raise (e : E).
Arguments Ok {E A} a.
Arguments Raise {E A} e.

(** [str.isspace] for one character below 256: TAB..CR, FS..US, space,
    NEL and NBSP. *)
Definition is_space (c : ascii) : bool :=
  let n := N_of_ascii c in
  ((9 <=? n) && (n <=? 13) || (28 <=? n) && (n <=? 32)
   || (n =? 133) || (n =? 160))%N.

Fixpoint rev_onto (s acc : string) : string :=
  match s with
  | EmptyString => acc
  | String c s' => rev_onto s' (String c acc)
  end.

Definition str_rev (s : string) : string := rev_onto s EmptyString.

(** [cur] is the word being read, most recent character first. *)
Fixpoint split_from (cur s : string) : list string :=
  match s with
  | EmptyString =>
      match cur with
      | EmptyString => []
      | _ => [str_rev cur]
      end
  | String c s' =>
      if is_space c then
        match cur with
        | EmptyString => split_from EmptyString s'
        | _ => str_rev cur :: split_from EmptyString s'
        end
      else split_from (String c cur) s'
  end.

(** [text.split()]: the maximal runs of non-whitespace characters. *)
Definition split (text : string) : list string :=
  split_from EmptyString text.

Fixpoint lstrip (s : string) : string :=
  match s with
  | EmptyString => EmptyString
  | String c s' => if is_space c then lstrip s' else s
  end.

(** [s.strip()] *)
Definition strip (s : string) : string :=
  str_rev (lstrip (str_rev (lstrip s))).

Fixpoint take_chars (n : nat) (s : string) : string :=
  match n, s with
  | O, _ => EmptyString
  | _, EmptyString => EmptyString
  | S n', String c s' => String c (take_chars n' s')
  end.

(** [s[:k]]; a negative [k] counts from the end. *)
Definition slice_to (k : Z) (s : string) : string :=
  if k <? 0
  then take_chars (Z.to_nat (Z.of_nat (String.length s) + k)) s
  else take_chars (Z.to_nat k) s.

(** [int(x)] on a number: truncation towards zero. *)
Definition int (x : Q) : Z := Z.quot (Qnum x) (Z.pos (Qden x)).

(** [x < y] on numbers, as a boolean. *)
Definition ltb (x y : Q) : bool :=
  Qnum x * Z.pos (Qden y) <? Qnum y * Z.pos (Qden x).

Definition of_nat (n : nat) : Q := inject_Z (Z.of_nat n).

(** [bool(s)] for a string: non-empty. *)
Definition truthy (s : string) : bool :=
  match s with
  | EmptyString => false
  | _ => true
  end.

End Py.

Export Py.

(** ** Token counter (main.py, lines 22-35) *)

(** The tiktoken encoder: [encode] returns the token ids, or raises
    ([None]). *)
Definition Encoder : Type := string -> option (list Z).

Section TokenCounter.

(** The global [encoder]; [None] when tiktoken could not be loaded. *)
Variable encoder : option Encoder.

Definition word_estimate (text : string) : Q :=
  (of_nat (length (split text)) * (13 # 10))%Q.

Definition count_tokens (text : string) : Q :=
  match encoder with
  | None => word_estimate text
  | Some enc =>
      match enc text with
      | Some toks => of_nat (length toks)
      | None => word_estimate text
      end
  end.

End TokenCounter.

(** ** Messages and HTTP errors *)

Record Message : Type := mkMessage { role : string; content : string }.

(** What Python code raises here: FastAPI's [HTTPException(status, detail)]
    or any other exception, kept as its message [str(e)]. *)
Inductive Exception : Type :=
| HTTPException (status_code : Z) (detail : string)
| OtherException (message : string).

(** ** Context trimming (main.py, lines 272-345) *)

Definition MAX_TOKENS_CHAT : Q := 500.
Definition MAX_TOKENS_BACKSTORY : Q := 1000.
Definition MAX_TOKENS_REPORT : Q := 10000.
Definition MAX_TOKENS_IMPROVEMENT : Q := 1000.
Definition MAX_TOTAL_TOKENS : Q := 10000.

Section Window.

Variable encoder : option Encoder.

(** [available = MAX_TOTAL_TOKENS - MAX_TOKENS_CHAT - system_tokens - 100] *)
Definition available_for (system_prompt : string) : Q :=
  (MAX_TOTAL_TOKENS - MAX_TOKENS_CHAT - count_tokens encoder system_prompt
   - 100)%Q.

(** [max_chars = int(available * 3.5)] *)
Definition max_chars_of (available : Q) : Z := int (available * (7 # 2))%Q.

(** [msg["content"] = msg["content"][:max_chars] + "..."] *)
Definition truncate_msg (max_chars : Z) (msg : Message) : Message :=
  {| role := role msg;
     content := (slice_to max_chars (content msg) ++ "...")%string |}.

(** The body of [for msg in reversed(messages)]: [rest] are the messages
    still to visit, newest first; the result is [kept] at the end of the
    loop (newest first). *)
Fixpoint fit_loop (available : Q) (rest : list Message)
         (total : Q) (kept : list Message) : list Message :=
  match rest with
  | [] => kept
  | msg :: rest' =>
      let msg_tokens := count_tokens encoder (content msg) in
      let step (msg : Message) (msg_tokens : Q) :=
        let kept := kept ++ [msg] in
        let total := (total + msg_tokens)%Q in
        if ltb available total then kept
        else fit_loop available rest' total kept in
      if ltb available (total + msg_tokens)%Q then
        let max_chars := max_chars_of available in
        if 50 <? max_chars then
          let msg := truncate_msg max_chars msg in
          step msg (count_tokens encoder (content msg))
        else kept
      else step msg msg_tokens
  end.

(** The result lists the messages as they are when the function returns.
    The function rewrites [msg["content"]] in place, so the dictionaries of
    the caller change with it; the messages are distinct dictionaries, as
    [chat] builds them. *)
Definition fit_to_token_limit (messages : list Message)
           (system_prompt : string) : result Exception (list Message) :=
  let available := available_for system_prompt in
  if ltb available 500 then
    Raise (HTTPException 500 "System prompt too long")
  else
    Ok (reverse (fit_loop available (reverse messages) 0 [])).

(** Total token cost of a list of messages. *)
Definition tokens_of (messages : list Message) : Q :=
  foldr (fun m acc => (count_tokens encoder (content m) + acc)%Q) 0%Q
        messages.

End Window.

(** ** Turn validation (main.py, lines 1080-1094) *)

(** The list comprehension that builds [messages] from [request.history]. *)
Definition clean_history (history : list Message) : list Message :=
  map (fun m => {| role := role m; content := strip (content m) |})
      (filter (fun m => truthy (content m) && truthy (strip (content m)) = true)
              history).

(** [for i in range(1, len(messages))]: is there an [i] with
    [messages[i]["role"] == messages[i-1]["role"]]? *)
Fixpoint repeated_role (messages : list Message) : bool :=
  match messages with
  | prev :: ((cur :: _) as tl) =>
      if String.eqb (role cur) (role prev) then true else repeated_role tl
  | _ => false
  end.

(** The three checks of [chat]: [if not messages], the loop over the
    neighbours, and [messages[-1]["role"] != "user"]; [last] finds no
    message exactly when the list is empty. *)
Definition check_turns (messages : list Message) : result Exception unit :=
  match last messages with
  | None => Raise (HTTPException 400 "Empty history")
  | Some newest =>
      if repeated_role messages then
        Raise (HTTPException 400 "Wait for patient reply")
      else if negb (String.eqb (role newest) "user") then
        Raise (HTTPException 400 "Therapist must speak last")
      else Ok tt
  end.

(** ** Session store (main.py, lines 129-176 and 256-265) *)

Record session_data : Type :=
  mkSession { email : string; created_at : Q }.

(** A value held by Redis: the JSON text of a [session_data] (read back by
    [json.loads] as the same record); a JSON object with a number under
    [created_at] and no [email], or [null] for it; or any other text, on
    which the [try] block of [verify_session] raises before it reaches the
    store.  The program itself stores values of the first kind only; an
    [email] that is neither a string nor [null] is not modelled. *)
Inductive RedisValue : Type :=
| Json (d : session_data)
| JsonNoEmail (created_at : Q)
| Text (s : string).

(** The backend chosen at start-up: Redis ([redis_client] is set; every key
    carries the time at which it expires) or the dictionary
    [active_sessions]. *)
Inductive Store : Type :=
| RedisStore (db : gmap string (RedisValue * Q))
| MemoryStore (active_sessions : gmap string session_data).

Definition TTL : Q := 86400.

(** [redis_client.get(key)] at time [now]. *)
Definition redis_get (db : gmap string (RedisValue * Q)) (key : string)
           (now : Q) : option RedisValue :=
  match db !! key with
  | Some (v, expires_at) => if ltb expires_at now then None else Some v
  | None => None
  end.

(** [create_session(email)]; [session_token] is the SHA-256 hex digest the
    function computes from the email, the clock and 16 random bytes. *)
Definition create_session (store : Store) (email : string) (now : Q)
           (session_token : string) : string * Store :=
  let session := {| email := email; created_at := now |} in
  match store with
  | RedisStore db =>
      (session_token,
       RedisStore (<[session_token := (Json session, (now + TTL)%Q)]> db))
  | MemoryStore active_sessions =>
      (session_token, MemoryStore (<[session_token := session]> active_sessions))
  end.

Definition verify_session (store : Store) (session_token : option string)
           (now : Q) : option string * Store :=
  match session_token with
  | None => (None, store)
  | Some tok =>
      if negb (truthy tok) then (None, store)
      else
        match store with
        | RedisStore db =>
            match redis_get db tok now with
            | None => (None, store)
            | Some (Text s) => (None, store)
            | Some (JsonNoEmail created) =>
                if ltb TTL (now - created)%Q
                then (None, RedisStore (delete tok db))
                else (None, store)
            | Some (Json session) =>
                if ltb TTL (now - created_at session)%Q
                then (None, RedisStore (delete tok db))
                else (Some (email session), store)
            end
        | MemoryStore active_sessions =>
            match active_sessions !! tok with
            | None => (None, store)
            | Some session =>
                if ltb TTL (now - created_at session)%Q
                then (None, MemoryStore (delete tok active_sessions))
                else (Some (email session), store)
            end
        end
  end.

(** The store after [logout] with the cookie [session_token]. *)
Definition logout (store : Store) (session_token : option string) : Store :=
  match store, session_token with
  | RedisStore db, Some tok =>
      if truthy tok then RedisStore (delete tok db) else store
  | MemoryStore active_sessions, Some tok =>
      match active_sessions !! tok with
      | Some _ => MemoryStore (delete tok active_sessions)
      | None => store
      end
  | _, None => store
  end.

(** ** Effects: provider calls and waits *)

Record Request : Type :=
  mkRequest { req_system : string;
              req_messages : list Message;
              req_max_tokens : Q }.

(** One block of the [content] list in the provider's JSON answer. *)
Record ContentBlock : Type :=
  mkBlock { block_type : option string; block_text : option string }.

(** What [bedrock_client.invoke_model] followed by the decoding of the body
    can do: deliver the [content] list, raise botocore's [ClientError] with
    an error code, or raise anything else (message [str(e)]). *)
Inductive ProviderOutcome : Type :=
| Responded (content : list ContentBlock)
| ClientError (code : string)
| Failure (message : string).

(** A client answers its [n]-th call on a request. *)
Definition Client : Type := nat -> Request -> ProviderOutcome.

Inductive Event : Type :=
| Invoked (req : Request)
| Slept (seconds : Q).

(** The part of the world the code acts on: how many provider calls were
    made, and the calls and waits so far, oldest first. *)
Record World : Type := mkWorld { calls : nat; trace : list Event }.

Definition IO (A : Type) : Type := World -> A * World.

Definition ret {A : Type} (a : A) : IO A := fun w => (a, w).

Definition bind {A B : Type} (m : IO A) (k : A -> IO B) : IO B :=
  fun w => let '(a, w') := m w in k a w'.

Notation "'let!' x ':=' m 'in' k" := (bind m (fun x => k))
  (at level 10, x name, m at level 100, k at level 200).
Notation "m ';;' k" := (bind m (fun _ => k))
  (at level 100, k at level 200, right associativity).

(** [await asyncio.sleep(seconds)] *)
Definition sleep (seconds : Q) : IO unit :=
  fun w => (tt, {| calls := calls w; trace := trace w ++ [Slept seconds] |}).

Definition invoke_model (client : Client) (req : Request)
  : IO ProviderOutcome :=
  fun w => (client (calls w) req,
            {| calls := S (calls w); trace := trace w ++ [Invoked req] |}).

(** ** Bedrock call (main.py, lines 347-384) *)

(** What the [try] block of [_invoke_bedrock_sync] returns or raises once
    the provider has answered. *)
Definition decode_outcome (outcome : ProviderOutcome)
  : result Exception string :=
  match outcome with
  | Responded (block :: _) =>
      if decide (block_type block = Some "text") then
        match block_text block with
        | Some text => Ok text
        | None => Raise (HTTPException 500 "Call failed: 'text'")
        end
      else Raise (HTTPException 500 "Call failed: No text in response")
  | Responded [] =>
      Raise (HTTPException 500 "Call failed: No text in response")
  | ClientError code =>
      if String.eqb code "ThrottlingException" then
        Raise (HTTPException 429 "Rate limit. Wait 10s.")
      else Raise (HTTPException 500 ("Bedrock error: " ++ code))
  | Failure message =>
      Raise (HTTPException 500 ("Call failed: " ++ message))
  end.

Definition _invoke_bedrock_sync (client : Client) (req : Request)
  : IO (result Exception string) :=
  let! outcome := invoke_model client req in
  ret (decode_outcome outcome).

(** [bedrock_client] is [None] when the client could not be built at
    start-up. *)
Definition _invoke_bedrock_claude (bedrock_client : option Client)
           (req : Request) : IO (result Exception string) :=
  match bedrock_client with
  | None => ret (Raise (HTTPException 500 "Bedrock not ready"))
  | Some client => _invoke_bedrock_sync client req
  end.

(** ** The chat endpoint (main.py, lines 1075-1100) *)

Definition chat (encoder : option Encoder) (bedrock_client : option Client)
           (history : list Message) (persona_prompt : string)
  : IO (result Exception string) :=
  let system_prompt := persona_prompt in
  let messages := clean_history history in
  match check_turns messages with
  | Raise e => ret (Raise e)
  | Ok _ =>
      match fit_to_token_limit encoder messages system_prompt with
      | Raise e => ret (Raise e)
      | Ok messages =>
          _invoke_bedrock_claude bedrock_client
            (mkRequest system_prompt messages MAX_TOKENS_CHAT)
      end
  end.

(** ** Report generation (main.py, lines 981-1000 and 1102-1211) *)

Module Text.

Definition dquote : string := String (ascii_of_nat 34) EmptyString.
Definition nl : string := String (ascii_of_nat 10) EmptyString.

(** [sep.join(parts)] *)
Fixpoint join (sep : string) (parts : list string) : string :=
  match parts with
  | [] => EmptyString
  | [p] => p
  | p :: ps => (p ++ sep ++ join sep ps)%string
  end.

(** [needle in hay] *)
Fixpoint contains (needle hay : string) : bool :=
  String.prefix needle hay
  || match hay with
     | EmptyString => false
     | String _ hay' => contains needle hay'
     end.

(** [str.upper] and [str.lower], one character at a time.  Letters a-z and
    the accented letters of Latin-1 change case; sharp s becomes SS in
    upper case; y-diaeresis and the micro sign, whose capitals lie above
    255, stay as they are. *)
Definition upper_char (c : ascii) : string :=
  let n := N_of_ascii c in
  if ((97 <=? n) && (n <=? 122))%N then
    String (ascii_of_N (n - 32)) EmptyString
  else if (n =? 223)%N then "SS"
  else if ((224 <=? n) && (n <=? 254) && negb (n =? 247))%N then
    String (ascii_of_N (n - 32)) EmptyString
  else String c EmptyString.

Definition lower_char (c : ascii) : string :=
  let n := N_of_ascii c in
  if ((65 <=? n) && (n <=? 90))%N then
    String (ascii_of_N (n + 32)) EmptyString
  else if ((192 <=? n) && (n <=? 222) && negb (n =? 215))%N then
    String (ascii_of_N (n + 32)) EmptyString
  else String c EmptyString.

Fixpoint map_chars (f : ascii -> string) (s : string) : string :=
  match s with
  | EmptyString => EmptyString
  | String c s' => (f c ++ map_chars f s')%string
  end.

Definition upper : string -> string := map_chars upper_char.
Definition lower : string -> string := map_chars lower_char.

(** [str(n)] for an integer. *)
Definition str_of_Z (n : Z) : string :=
  DecimalString.NilZero.string_of_int (Z.to_int n).

(** [str(e)]: Starlette prints an [HTTPException] as its status code, a
    colon and its detail. *)
Definition str_of_exception (e : Exception) : string :=
  match e with
  | HTTPException status_code detail =>
      (str_of_Z status_code ++ ": " ++ detail)%string
  | OtherException message => message
  end.

End Text.

Import Text.

Definition create_improvement_prompt (therapist_msg patient_msg context : string)
  : string :=
  let context_str :=
    if truthy context then slice_to 300 context else "Start of conversation" in
  let patient_str :=
    if truthy patient_msg then patient_msg else "No response yet" in
  ("You are an expert therapy supervisor. Analyze this exchange:" ++ nl
   ++ nl
   ++ "CONTEXT: " ++ context_str ++ nl
   ++ nl
   ++ "THERAPIST: " ++ dquote ++ therapist_msg ++ dquote ++ nl
   ++ "PATIENT: " ++ dquote ++ patient_str ++ dquote ++ nl
   ++ nl
   ++ "Respond in this EXACT format:" ++ nl
   ++ "STATUS: [GOOD or NEEDS_IMPROVEMENT]" ++ nl
   ++ "ANALYSIS: [1 sentence explaining why]" ++ nl
   ++ "SUGGESTION: [If NEEDS_IMPROVEMENT, provide a better alternative in 2-3 sentences. If GOOD, write "
   ++ dquote ++ "No changes needed." ++ dquote ++ "]" ++ nl
   ++ nl
   ++ "Be strict - only mark as GOOD if the response shows excellent therapeutic skills.")%string.

Record ImprovementRecord : Type :=
  mkImprovement { therapist_message : string;
                  patient_response : string;
                  improvement : string;
                  needs_improvement : bool }.

Definition max_retries : nat := 3.

(** An entry of [request.chat_history], a [Dict[str, str]]: the values
    under the keys [role] and [content], the only ones the code reads;
    [None] where the dictionary has no such key. *)
Record Entry : Type :=
  mkEntry { entry_role : option string; entry_content : option string }.

Section Report.

Variable bedrock_client : option Client.

(** The loop [for attempt in range(max_retries)] around the call;
    [attempts] are the values of [attempt] still to run.  The result is
    the value of [improvement] after the loop, or the exception that
    left it. *)
Fixpoint retry_loop (req : Request) (attempts : list nat) (retry_delay : Q)
  : IO (result Exception (option string)) :=
  match attempts with
  | [] => ret (Ok None)
  | attempt :: attempts' =>
      let! r := _invoke_bedrock_claude bedrock_client req in
      match r with
      | Ok improvement => ret (Ok (Some improvement))
      | Raise (HTTPException status_code detail as http_err) =>
          if (status_code =? 429) && (attempt <? max_retries - 1)%nat then
            sleep retry_delay ;;
            retry_loop req attempts' (retry_delay * 2)%Q
          else ret (Raise http_err)
      | Raise (OtherException _ as e) =>
          if (attempt <? max_retries - 1)%nat then
            sleep retry_delay ;;
            retry_loop req attempts' (retry_delay * 2)%Q
          else ret (Raise e)
      end
  end.

(** The text put in a record when the analysis of an utterance failed
    with [e]. *)
Definition fallback_for (e : Exception) : string :=
  let error_msg := str_of_exception e in
  let fallback := "Unable to generate detailed analysis at this time. " in
  if contains "rate limit" (lower error_msg) || contains "429" error_msg then
    (fallback ++ "The AI service is currently busy. This response will be analyzed in the summary above.")%string
  else if contains "timeout" (lower error_msg) then
    (fallback ++ "The analysis request timed out. Your overall performance is covered in the main report.")%string
  else
    (fallback ++ "Please refer to the overall evaluation above for guidance on this exchange.")%string.

(** [patient_response_at], [context_at], [improvement_request] and
    [analyze_utterance] read a history all of whose entries carry [role]
    and [content], as a list of messages; [analyze_entry] below reads the
    dictionaries themselves and agrees with them on such a history.

    [patient_response]: the content of the next message when it is the
    assistant's. *)
Definition patient_response_at (chat_history : list Message) (i : nat)
  : string :=
  match chat_history !! (i + 1)%nat with
  | Some next => if String.eqb (role next) "assistant" then content next
                 else EmptyString
  | None => EmptyString
  end.

(** [context]: the two messages before position [i]. *)
Definition context_at (chat_history : list Message) (i : nat) : string :=
  if (0 <? i)%nat then
    join " | "
         (map (fun m => (role m ++ ": " ++ slice_to 100 (content m))%string)
              (take (i - (i - 2))%nat (drop (i - 2)%nat chat_history)))
  else EmptyString.

(** The request sent for the therapist message [msg] at position [i]. *)
Definition improvement_request (chat_history : list Message) (i : nat)
           (msg : Message) : Request :=
  let patient_response := patient_response_at chat_history i in
  let context := context_at chat_history i in
  let improvement_prompt :=
    create_improvement_prompt (content msg) patient_response context in
  mkRequest "Expert therapy supervisor providing constructive feedback."
            [mkMessage "user" improvement_prompt]
            MAX_TOKENS_IMPROVEMENT.

(** After the retry loop: [if improvement: ... else: raise]. *)
Definition checked_improvement (r : result Exception (option string))
  : result Exception string :=
  match r with
  | Ok (Some improvement) =>
      if truthy improvement then Ok improvement
      else Raise (OtherException "Failed after all retries")
  | Ok None => Raise (OtherException "Failed after all retries")
  | Raise e => Raise e
  end.

(** The record appended to [improvements]: the analysis, or the fallback
    of the [except] branch. *)
Definition record_of (msg : Message) (patient_response : string)
           (outcome : result Exception string) : ImprovementRecord :=
  match outcome with
  | Ok improvement =>
      {| therapist_message := content msg;
         patient_response := patient_response;
         improvement := improvement;
         needs_improvement :=
           contains "NEEDS_IMPROVEMENT" (upper improvement) |}
  | Raise e =>
      {| therapist_message := content msg;
         patient_response := patient_response;
         improvement := fallback_for e;
         needs_improvement := false |}
  end.

(** The body of the loop of [generate_report] for the therapist message
    [msg] at position [i]. *)
Definition analyze_utterance (chat_history : list Message) (i : nat)
           (msg : Message) : IO ImprovementRecord :=
  let! r := retry_loop (improvement_request chat_history i msg)
                       (seq 0 max_retries) 1 in
  ret (record_of msg (patient_response_at chat_history i)
                 (checked_improvement r)).

(** [entry[key]] on an entry of [chat_history]: a missing key raises
    [KeyError], whose text is the key in quotes. *)
Definition entry_key (key : string) (value : option string)
  : result Exception string :=
  match value with
  | Some v => Ok v
  | None => Raise (OtherException ("'" ++ key ++ "'"))
  end.

(** [patient_response] (lines 1124-1126), read from the dictionaries:
    the role of the next entry, then its content. *)
Definition entry_patient_response (chat_history : list Entry) (i : nat)
  : result Exception string :=
  match chat_history !! (i + 1)%nat with
  | None => Ok EmptyString
  | Some next =>
      match entry_key "role" (entry_role next) with
      | Raise e => Raise e
      | Ok r =>
          if String.eqb r "assistant" then
            entry_key "content" (entry_content next)
          else Ok EmptyString
      end
  end.

(** The list comprehension of lines 1131-1132 over the entries [j]: for
    each, the role and then the content are read. *)
Fixpoint entry_context_parts (entries : list Entry)
  : result Exception (list string) :=
  match entries with
  | [] => Ok []
  | entry :: entries' =>
      match entry_key "role" (entry_role entry) with
      | Raise e => Raise e
      | Ok r =>
          match entry_key "content" (entry_content entry) with
          | Raise e => Raise e
          | Ok c =>
              match entry_context_parts entries' with
              | Raise e => Raise e
              | Ok parts => Ok ((r ++ ": " ++ slice_to 100 c)%string :: parts)
              end
          end
      end
  end.

(** [context] (lines 1129-1132). *)
Definition entry_context (chat_history : list Entry) (i : nat)
  : result Exception string :=
  if (0 <? i)%nat then
    match entry_context_parts
            (take (i - (i - 2))%nat (drop (i - 2)%nat chat_history)) with
    | Raise e => Raise e
    | Ok parts => Ok (join " | " parts)
    end
  else Ok EmptyString.

(** The body of the loop of [generate_report] for the entry [msg] at
    position [i], whose role is [user] (lines 1123-1201).  The patient
    response and the context are read before the [try] block, so a key they
    miss ends the request.  [msg['content']] is read inside it; the
    [KeyError] of a missing content is caught by [except Exception], whose
    handler reads [msg['content']] again for the fallback record and so
    raises the same error out of the request. *)
Definition analyze_entry (chat_history : list Entry) (i : nat) (msg : Entry)
  : IO (result Exception ImprovementRecord) :=
  match entry_patient_response chat_history i with
  | Raise e => ret (Raise e)
  | Ok patient_response =>
      match entry_context chat_history i with
      | Raise e => ret (Raise e)
      | Ok context =>
          match entry_key "content" (entry_content msg) with
          | Raise e => ret (Raise e)
          | Ok therapist_msg =>
              let improvement_prompt :=
                create_improvement_prompt therapist_msg patient_response
                                          context in
              let! r :=
                retry_loop
                  (mkRequest
                     "Expert therapy supervisor providing constructive feedback."
                     [mkMessage "user" improvement_prompt]
                     MAX_TOKENS_IMPROVEMENT)
                  (seq 0 max_retries) 1 in
              ret (Ok (record_of (mkMessage "user" therapist_msg)
                                 patient_response (checked_improvement r)))
          end
      end
  end.

(** [for i in range(len(chat_history))], from position [i] on; [todo] is
    [chat_history[i:]].  An exception that leaves the body leaves the
    request: the records made so far are lost. *)
Fixpoint analyze_entries (chat_history : list Entry) (i : nat)
         (todo : list Entry) (improvements : list ImprovementRecord)
  : IO (result Exception (list ImprovementRecord)) :=
  match todo with
  | [] => ret (Ok improvements)
  | msg :: todo' =>
      match entry_key "role" (entry_role msg) with
      | Raise e => ret (Raise e)
      | Ok r =>
          if String.eqb r "user" then
            let! outcome := analyze_entry chat_history i msg in
            match outcome with
            | Raise e => ret (Raise e)
            | Ok record =>
                (if (i <? length chat_history - 1)%nat then sleep (1 # 2)
                 else ret tt) ;;
                analyze_entries chat_history (S i) todo'
                                (improvements ++ [record])
            end
          else analyze_entries chat_history (S i) todo' improvements
      end
  end.

(** The improvement part of [generate_report] (lines 1114-1205). *)
Definition analyze_history (chat_history : option (list Entry))
  : IO (result Exception (list ImprovementRecord)) :=
  match chat_history with
  | None | Some [] => ret (Ok [])
  | Some chat_history => analyze_entries chat_history 0 chat_history []
  end.

(** [create_report_prompt] wraps the transcript in a fixed template of
    some 540 lines; its text plays no part below and is a parameter. *)
Variable create_report_prompt : string -> string.

(** The request for the main report. *)
Definition report_request (transcript : string) : Request :=
  mkRequest "Concise therapy evaluator."
            [mkMessage "user" (create_report_prompt transcript)]
            MAX_TOKENS_REPORT.

Definition generate_report (transcript : string)
           (chat_history : option (list Entry))
  : IO (result Exception (string * list ImprovementRecord)) :=
  let! r := _invoke_bedrock_claude bedrock_client
                                   (report_request transcript) in
  match r with
  | Raise e => ret (Raise e)
  | Ok report =>
      let! outcome := analyze_history chat_history in
      ret match outcome with
          | Raise e => Raise e
          | Ok improvements => Ok (report, improvements)
          end
  end.

End Report.

(** An entry that carries both keys, and the message it then stands
    for. *)
Definition complete (entry : Entry) : Prop :=
  is_Some (entry_role entry) /\ is_Some (entry_content entry).

Definition message_of (entry : Entry) : Message :=
  {| role := default EmptyString (entry_role entry);
     content := default EmptyString (entry_content entry) |}.

Definition entry_of (m : Message) : Entry :=
  mkEntry (Some (role m)) (Some (content m)).

(** ** Sample inputs *)

Module Samples.

Fixpoint repeat_str (w : string) (n : nat) : string :=
  match n with
  | O => EmptyString
  | S n' => (w ++ repeat_str w n')%string
  end.

(** 7270 words of one letter: 9451 tokens by the word estimate, in 14540
    characters. *)
Definition long_text : string := repeat_str " a" (727 * 10).


(** A tokenizer that never fails: one token for each character. *)
Definition char_encoder : Encoder :=
  fun text => Some (map (fun c => Z.of_N (N_of_ascii c))
                        (list_ascii_of_string text)).

Definition text_block (text : string) : ContentBlock :=
  mkBlock (Some "text") (Some text).

(** A provider that throttles the first two calls and then answers
    [reply]. *)
Definition throttled_twice (reply : string) : Client :=
  fun n _ =>
    if (n <? 2)%nat then ClientError "ThrottlingException"
    else Responded [text_block reply].

(** A provider that rejects, with an error that is not a rate limit,
    every request whose therapist line quotes [bad], and answers all
    others. *)
Definition rejects (bad : string) : Client :=
  fun _ req =>
    let line := ("THERAPIST: " ++ dquote ++ bad ++ dquote)%string in
    if forallb (fun m => negb (contains line (content m))) (req_messages req)
    then Responded [text_block "STATUS: GOOD"]
    else ClientError "ValidationException".

Definition five_utterances : list Message :=
  [ mkMessage "user" "one"; mkMessage "user" "two";
    mkMessage "user" "three"; mkMessage "user" "four";
    mkMessage "user" "five" ].

(** The same history as the endpoint receives it, and one whose second
    entry lacks its content. *)
Definition five_entries : list Entry := map entry_of five_utterances.

Definition broken_entries : list Entry :=
  [ entry_of (mkMessage "user" "one"); mkEntry (Some "user") None;
    entry_of (mkMessage "user" "three") ].

Definition empty_world : World := mkWorld 0 [].

(** The size of the content of a one-message result. *)
Definition size1 (r : result Exception (list Message)) : Z :=
  match r with
  | Ok [m] => Z.of_nat (String.length (content m))
  | _ => -1
  end.

End Samples.

(** ** Vocabulary of the statements *)

(** [o] is the message [k] as kept by the window: untouched, or with its
    content cut to [max_chars] characters and an ellipsis appended. *)
Definition kept_as (max_chars : Z) (o k : Message) : Prop :=
  o = k \/ o = truncate_msg max_chars k.

(** One counter prices every text: the tokenizer is absent, or it never
    fails.  The token counts are then all integers, or all multiples of
    1.3.  Integers are added and compared exactly.  Sums of multiples of
    1.3 never equal the budget left by a prompt priced in the same way
    (lemma [fallback_never_ties]) and differ from it by 0.1 at least, far
    more than the rounding of the few thousand additions that can precede
    a comparison; so every comparison of the window has the outcome
    computed here.  When the two counters mix, a sum can equal the budget
    and the rounded sum exceed it. *)
Definition single_counter (encoder : option Encoder) : Prop :=
  match encoder with
  | None => True
  | Some enc => forall text : string, is_Some (enc text)
  end.

(** [out] keeps the messages [kept], oldest first, by the rule of the
    window: a message that fits in [available] tokens together with the
    messages of [out] after it is untouched, and one that does not is
    truncated.  [ahead] is the cost of the messages kept after the end of
    the list. *)
Fixpoint kept_by_rule (encoder : option Encoder) (available ahead : Q)
         (out kept : list Message) : Prop :=
  match out, kept with
  | [], [] => True
  | o :: out', k :: kept' =>
      let newer := (ahead + tokens_of encoder out')%Q in
      ((newer + count_tokens encoder (content k) <= available)%Q -> o = k)
      /\ ((available < newer + count_tokens encoder (content k))%Q ->
          o = truncate_msg (max_chars_of available) k)
      /\ kept_by_rule encoder available ahead out' kept'
  | _, _ => False
  end.

(** No two neighbours of [messages] speak with the same role. *)
Definition alternating (messages : list Message) : Prop :=
  forall (i : nat) (a b : Message),
    messages !! i = Some a -> messages !! S i = Some b -> role a <> role b.

(** Some neighbours of [messages] speak with the same role. *)
Definition same_role_neighbours (messages : list Message) : Prop :=
  exists (i : nat) (a b : Message),
    messages !! i = Some a /\ messages !! S i = Some b /\ role a = role b.

(** An outcome of the model call is the rate-limit error. *)
Definition rate_limited (res : result Exception string) : bool :=
  match res with
  | Raise (HTTPException status_code _) => status_code =? 429
  | _ => false
  end.

(** What the analysis of an utterance makes of the outcome [res] of its
    last call: an empty reply counts as a failure. *)
Definition settled (res : result Exception string) : result Exception string :=
  checked_improvement
    match res with
    | Ok improvement => Ok (Some improvement)
    | Raise e => Raise e
    end.

(** The therapist messages of a history, each with its position. *)
Definition therapist_turns_from (i : nat) (todo : list Message)
  : list (nat * Message) :=
  filter (fun turn : nat * Message => role turn.2 = "user")
         (zip (seq i (length todo)) todo).

Definition therapist_turns (chat_history : list Message)
  : list (nat * Message) :=
  therapist_turns_from 0 chat_history.

(** The opening of every fallback text, and the three texts. *)
Definition fallback_opening : string :=
  "Unable to generate detailed analysis at this time. ".

Definition fallback_texts : list string :=
  [ (fallback_opening
     ++ "The AI service is currently busy. This response will be analyzed in the summary above.")%string;
    (fallback_opening
     ++ "The analysis request timed out. Your overall performance is covered in the main report.")%string;
    (fallback_opening
     ++ "Please refer to the overall evaluation above for guidance on this exchange.")%string ].

(** The calls and waits of the analysis that took [n] attempts on [req]:
    a wait of 1 second after the first, of 2 seconds after the second. *)
Definition attempt_events (req : Request) (n : nat) : list Event :=
  match n with
  | 0%nat => []
  | 1%nat => [Invoked req]
  | 2%nat => [Invoked req; Slept 1; Invoked req]
  | _ => [Invoked req; Slept 1; Invoked req; Slept 2; Invoked req]
  end.

(** What the loop of [generate_report] does for the therapist message
    [turn] of [history] when its analysis takes [n] attempts: the
    attempts, then half a second of pause unless the message is the last
    of the history. *)
Definition turn_events (history : list Message) (n : nat)
           (turn : nat * Message) : list Event :=
  attempt_events (improvement_request history turn.1 turn.2) n
  ++ (if (turn.1 <? length history - 1)%nat then [Slept (1 # 2)] else []).

(** The records [records] are those of the therapist messages [turns],
    one for each, made with the provider [client], whose calls are counted
    from [first]: the analysis of a message takes [n] attempts, between one
    and three, all of them rate-limited but the last (which may be, when
    it is the third), and the reply to the last attempt settles the
    record. *)
Fixpoint settled_by (client : Client) (history : list Message) (first : nat)
         (turns : list (nat * Message)) (attempts : list nat)
         (records : list ImprovementRecord) : Prop :=
  match turns, attempts, records with
  | [], [], [] => True
  | turn :: turns', n :: attempts', record :: records' =>
      let req := improvement_request history turn.1 turn.2 in
      let reply (k : nat) := decode_outcome (client (first + k)%nat req) in
      (1 <= n <= 3)%nat
      /\ (forall k : nat, (S k < n)%nat -> rate_limited (reply k) = true)
      /\ ((n < 3)%nat -> rate_limited (reply (n - 1)%nat) = false)
      /\ record = record_of turn.2 (patient_response_at history turn.1)
                            (settled (reply (n - 1)%nat))
      /\ settled_by client history (first + n)%nat turns' attempts' records'
  | _, _, _ => False
  end.

(** A number is an integer. *)
Definition is_integer (x : Q) : Prop := exists z : Z, (x == inject_Z z)%Q.

(** Boolean comparison of an outcome of [fit_to_token_limit] with a list of
    messages, to evaluate the function on long inputs. *)
Definition message_eqb (a b : Message) : bool :=
  String.eqb (role a) (role b) && String.eqb (content a) (content b).

Fixpoint messages_eqb (l1 l2 : list Message) : bool :=
  match l1, l2 with
  | [], [] => true
  | a :: l1', b :: l2' => message_eqb a b && messages_eqb l1' l2'
  | _, _ => false
  end.

Definition returns_messages (r : result Exception (list Message))
           (l : list Message) : bool :=
  match r with
  | Ok l' => messages_eqb l' l
  | Raise _ => false
  end.

(** * The user table, the endpoints around it and the session set-up *)

(** ** User table (main.py, lines 76-127 and 1249-1272) *)

(** [users.csv] as the [csv] module reads and writes it: the records of
    the file in order, each a list of fields; a blank line is the empty
    record.  A missing file is [None]. *)
Abbreviation CsvFile := (list (list string)).

Definition FIELDNAMES : list string :=
  ["email"; "password_hash"; "full_name"; "created_at"].

(** A row as [csv.DictReader] yields it: one cell for each field name, in
    order, holding [None] where the record is too short, and the surplus
    fields of a record that is too long (kept under the key [None]). *)
Record DictRow : Type :=
  mkDictRow { cells : list (string * option string); surplus : list string }.

Fixpoint zip_pad (fieldnames record : list string)
  : list (string * option string) :=
  match fieldnames with
  | [] => []
  | name :: names =>
      match record with
      | [] => (name, None) :: zip_pad names []
      | v :: vs => (name, Some v) :: zip_pad names vs
      end
  end.

Definition dict_of (fieldnames record : list string) : DictRow :=
  {| cells := zip_pad fieldnames record;
     surplus := drop (length fieldnames) record |}.

(** [csv.field_size_limit()], which the program leaves at its default:
    the reader raises [_csv.Error] when it comes to a record with a field
    of more characters.  The writer has no such limit. *)
Definition FIELD_SIZE_LIMIT : Z := 131072.

Definition oversize (record : list string) : bool :=
  existsb (fun field => FIELD_SIZE_LIMIT <? Z.of_nat (String.length field))
          record.

(** What reading the table can raise: [KeyError] from [row[key]], and
    [_csv.Error] from the reader. *)
Inductive ReadError : Type :=
| KeyError (key : string)
| CsvError.

(** What the loop [for row in reader] meets after the field names: a row
    for each record that is not blank, until the end of the file or the
    first record with an oversize field, where the reader raises. *)
Fixpoint read_rows (fieldnames : list string) (records : CsvFile)
  : list (result ReadError DictRow) :=
  match records with
  | [] => []
  | record :: records' =>
      if oversize record then [Raise CsvError]
      else if decide (record = []) then read_rows fieldnames records'
      else Ok (dict_of fieldnames record) :: read_rows fieldnames records'
  end.

(** [csv.DictReader(f)]: the first record gives the field names. *)
Definition DictReader (f : CsvFile) : list (result ReadError DictRow) :=
  match f with
  | [] => []
  | fieldnames :: records =>
      if oversize fieldnames then [Raise CsvError]
      else read_rows fieldnames records
  end.

(** The value bound to [key]: the last cell of that name wins. *)
Fixpoint lookup_cell (key : string) (cs : list (string * option string))
  : option (option string) :=
  match cs with
  | [] => None
  | (k, v) :: rest =>
      match lookup_cell key rest with
      | Some x => Some x
      | None => if decide (k = key) then Some v else None
      end
  end.

(** [row[key]] *)
Definition getitem (row : DictRow) (key : string)
  : result ReadError (option string) :=
  match lookup_cell key (cells row) with
  | Some v => Ok v
  | None => Raise (KeyError key)
  end.

(** [init_user_db()] *)
Definition init_user_db (file : option CsvFile) : option CsvFile :=
  match file with
  | None => Some [FIELDNAMES]
  | Some f => Some f
  end.

Section UserTable.

(** [hashlib.sha256(password.encode()).hexdigest()] *)
Variable hash_password : string -> string.

Fixpoint verify_rows (email password_hash : string)
         (rows : list (result ReadError DictRow)) : result ReadError bool :=
  match rows with
  | [] => Ok false
  | Raise e :: _ => Raise e
  | Ok row :: rows' =>
      match getitem row "email" with
      | Raise e => Raise e
      | Ok e =>
          if decide (e = Some email) then
            match getitem row "password_hash" with
            | Raise e => Raise e
            | Ok h =>
                if decide (h = Some password_hash) then Ok true
                else verify_rows email password_hash rows'
            end
          else verify_rows email password_hash rows'
      end
  end.

Definition verify_user (file : option CsvFile) (email password : string)
  : result ReadError bool :=
  match file with
  | None => Ok false
  | Some f => verify_rows email (hash_password password) (DictReader f)
  end.

Fixpoint exists_rows (email : string)
         (rows : list (result ReadError DictRow)) : result ReadError bool :=
  match rows with
  | [] => Ok false
  | Raise e :: _ => Raise e
  | Ok row :: rows' =>
      match getitem row "email" with
      | Raise e => Raise e
      | Ok e => if decide (e = Some email) then Ok true
                else exists_rows email rows'
      end
  end.

Definition user_exists (file : option CsvFile) (email : string)
  : result ReadError bool :=
  match file with
  | None => Ok false
  | Some f => exists_rows email (DictReader f)
  end.

(** [create_user(email, password, full_name)]; [now] is
    [datetime.now().isoformat()].  Opening for append creates a missing
    file. *)
Definition create_user (file : option CsvFile)
           (email password full_name now : string)
  : result ReadError bool * option CsvFile :=
  match user_exists file email with
  | Raise e => (Raise e, file)
  | Ok true => (Ok false, file)
  | Ok false =>
      (Ok true,
       Some (default [] file
             ++ [[email; hash_password password; full_name; now]]))
  end.

End UserTable.

Inductive DbError : Type :=
| Unreadable (e : ReadError)
| ValueError.

(** The first loop of [delete_user]: the rows kept and the flag
    [deleted]. *)
Fixpoint scan_rows (email : string) (rows : list (result ReadError DictRow))
         (users : list DictRow) (deleted : bool)
  : result ReadError (list DictRow * bool) :=
  match rows with
  | [] => Ok (users, deleted)
  | Raise e :: _ => Raise e
  | Ok row :: rows' =>
      match getitem row "email" with
      | Raise e => Raise e
      | Ok e =>
          if decide (e = Some email) then scan_rows email rows' users true
          else scan_rows email rows' (users ++ [row]) deleted
      end
  end.

(** [csv.DictWriter._dict_to_list]: a row with a key outside the field
    names is refused; a missing or empty value is written as the empty
    field. *)
Definition _dict_to_list (row : DictRow) : result DbError (list string) :=
  if existsb (fun c => negb (bool_decide (c.1 ∈ FIELDNAMES))) (cells row)
     || negb (bool_decide (surplus row = []))
  then Raise ValueError
  else Ok (map (fun key => match lookup_cell key (cells row) with
                           | Some (Some v) => v
                           | _ => EmptyString
                           end) FIELDNAMES).

(** [writer.writerows(users)] onto the records [written]: the rows before
    a refused one are in the file. *)
Fixpoint writerows (users : list DictRow) (written : CsvFile)
  : result DbError unit * CsvFile :=
  match users with
  | [] => (Ok tt, written)
  | row :: users' =>
      match _dict_to_list row with
      | Raise e => (Raise e, written)
      | Ok record => writerows users' (written ++ [record])
      end
  end.

Definition delete_user (file : option CsvFile) (email : string)
  : result DbError bool * option CsvFile :=
  match file with
  | None => (Ok false, None)
  | Some f =>
      match scan_rows email (DictReader f) [] false with
      | Raise e => (Raise (Unreadable e), file)
      | Ok (users, deleted) =>
          if deleted then
            let '(r, f') := writerows users [FIELDNAMES] in
            (match r with
             | Ok _ => Ok true
             | Raise e => Raise e
             end, Some f')
          else (Ok false, file)
      end
  end.

(** [DELETE /api/delete_user/{email}] *)
Definition delete_user_endpoint (file : option CsvFile) (email : string)
  : result (DbError + Exception) string * option CsvFile :=
  match delete_user file email with
  | (Raise e, file') => (Raise (inl e), file')
  | (Ok false, file') =>
      (Raise (inr (HTTPException 404 "User not found")), file')
  | (Ok true, file') => (Ok "User deleted successfully", file')
  end.

(** ** The admin listing (main.py, lines 1219-1236) *)

Inductive ListingError : Type :=
| ListingReadError (e : ReadError)
| TypeError.

(** One entry of the listing of [get_users]; a field that the record does
    not reach is [None]. *)
Record UserView : Type :=
  mkUserView { view_email : option string;
               view_full_name : option string;
               view_created_at : option string;
               view_password_hash : string }.

(** The dictionary built for one row: the items are read in the order in
    which they are written, and slicing a missing hash is a type error. *)
Definition user_view (row : DictRow) : result ListingError UserView :=
  match getitem row "email" with
  | Raise e => Raise (ListingReadError e)
  | Ok e =>
      match getitem row "full_name" with
      | Raise e => Raise (ListingReadError e)
      | Ok n =>
          match getitem row "created_at" with
          | Raise e => Raise (ListingReadError e)
          | Ok c =>
              match getitem row "password_hash" with
              | Raise e => Raise (ListingReadError e)
              | Ok None => Raise TypeError
              | Ok (Some h) =>
                  Ok (mkUserView e n c (slice_to 10 h ++ "...")%string)
              end
          end
      end
  end.

Fixpoint user_views (rows : list (result ReadError DictRow))
         (users : list UserView) : result ListingError (list UserView) :=
  match rows with
  | [] => Ok users
  | Raise e :: _ => Raise (ListingReadError e)
  | Ok row :: rows' =>
      match user_view row with
      | Raise e => Raise e
      | Ok view => user_views rows' (users ++ [view])
      end
  end.

(** [GET /api/users]: the users listed; [total] is their number, which a
    missing file leaves out. *)
Definition get_users (file : option CsvFile)
  : result ListingError (list UserView * option nat) :=
  match file with
  | None => Ok ([], None)
  | Some f =>
      match user_views (DictReader f) [] with
      | Raise e => Raise e
      | Ok users => Ok (users, Some (length users))
      end
  end.

(** ** Authentication endpoints (main.py, lines 178-184 and 230-254) *)

(** An uncaught error of the reading, as the exception it is: the text of
    a [KeyError] is the key in quotes. *)
Definition read_error (e : ReadError) : Exception :=
  match e with
  | KeyError key => OtherException ("'" ++ key ++ "'")
  | CsvError => OtherException "field larger than field limit (131072)"
  end.

(** [get_current_user]: the cookie must verify to a non-empty email. *)
Definition get_current_user (store : Store) (session_token : option string)
           (now : Q) : result Exception string * Store :=
  let '(user, store') := verify_session store session_token now in
  match user with
  | Some e => if truthy e then (Ok e, store')
              else (Raise (HTTPException 401 "Not authenticated"), store')
  | None => (Raise (HTTPException 401 "Not authenticated"), store')
  end.

Section Auth.

Variable hash_password : string -> string.

(** [POST /api/login]: the value returned is the cookie [session_token]
    set on the response. *)
Definition login (file : option CsvFile) (store : Store)
           (email password : string) (now : Q) (session_token : string)
  : result Exception string * Store :=
  match verify_user hash_password file email password with
  | Raise e => (Raise (read_error e), store)
  | Ok true =>
      let '(token, store') := create_session store email now session_token in
      (Ok token, store')
  | Ok false => (Raise (HTTPException 401 "Invalid credentials"), store)
  end.

(** [POST /api/signup] *)
Definition signup (file : option CsvFile)
           (email password full_name now : string)
  : result Exception string * option CsvFile :=
  match user_exists file email with
  | Raise e => (Raise (read_error e), file)
  | Ok true => (Raise (HTTPException 400 "Email already registered"), file)
  | Ok false =>
      match create_user hash_password file email password full_name now with
      | (Raise e, file') => (Raise (read_error e), file')
      | (Ok true, file') => (Ok "Account created successfully", file')
      | (Ok false, file') =>
          (Raise (HTTPException 500 "Failed to create account"), file')
      end
  end.

End Auth.

(** ** Videos (main.py, lines 279-318 and 1002-1026) *)

Definition allowed_videos : list string :=
  [ "male-young.mp4"; "male-adult.mp4"; "male-middle.mp4"; "male-senior.mp4";
    "female-young.mp4"; "female-adult.mp4"; "female-middle.mp4";
    "female-senior.mp4" ].

(** No statement of the [try] block can raise on an integer and a string,
    so the [except] branch is left out. *)
Definition get_video_filename (age : Z) (gender : string) : string :=
  let age_group :=
    if age <=? 25 then "young"
    else if age <=? 40 then "adult"
    else if age <=? 60 then "middle"
    else "senior" in
  let gender_lower := strip (Text.lower gender) in
  let gender_key :=
    if bool_decide (gender_lower ∈ ["male"; "m"; "man"]) then "male"
    else if bool_decide (gender_lower ∈ ["female"; "f"; "woman"]) then "female"
    else "male" in
  (gender_key ++ "-" ++ age_group ++ ".mp4")%string.

Section Files.

(** [os.path.exists] *)
Variable path_exists : string -> bool.

(** [GET /videos/{filename}] for an authenticated user: the path of the
    file served. *)
Definition get_video_by_name (filename : string) : result Exception string :=
  if negb (bool_decide (filename ∈ allowed_videos)) then
    Raise (HTTPException 404 "Video not found")
  else
    let path := ("templates/" ++ filename)%string in
    if negb (path_exists path) then
      Raise (HTTPException 404 ("Video file not found: " ++ filename))
    else Ok path.

(** ** Session set-up (main.py, lines 386-400 and 1029-1073) *)

(** [s.split(',')[0]] *)
Fixpoint before_comma (s : string) : string :=
  match s with
  | EmptyString => EmptyString
  | String c s' =>
      if Ascii.eqb c (ascii_of_nat 44) then EmptyString
      else String c (before_comma s')
  end.

Definition backstory_prompt : string :=
  ("You are a clinical psychologist creating realistic patient backgrounds for therapy training simulations."
   ++ Text.nl ++ Text.nl
   ++ "Your task:" ++ Text.nl
   ++ "- Generate 4-6 concise sentences about a significant life event"
   ++ Text.nl
   ++ "- Focus on realistic psychosocial stressors (job loss, relationship breakdown, isolation, loss, trauma)"
   ++ Text.nl
   ++ "- Be specific and humanizing " ++ Text.nl
   ++ "- Do NOT mention diagnosis or symptoms, only life events that preceded them")%string.

(** The bare [except:] turns every failure of the call into the fallback
    sentence. *)
Definition _generate_unique_backstory (bedrock_client : option Client)
           (diseases : string) (age : Z) (gender profession : string)
  : IO string :=
  let msg := (Text.str_of_Z age ++ "yo " ++ gender ++ " " ++ profession
              ++ " with " ++ diseases ++ ". What happened?")%string in
  let! r := _invoke_bedrock_claude bedrock_client
              (mkRequest backstory_prompt [mkMessage "user" msg]
                         MAX_TOKENS_BACKSTORY) in
  ret match r with
      | Ok backstory => backstory
      | Raise _ =>
          ("Trauma from " ++ strip (before_comma diseases) ++ ".")%string
      end.

Record SessionStartRequest : Type :=
  mkSessionStart { ss_age : Z;
                   ss_ethnicity : string;
                   ss_diseases : string;
                   ss_working_domain : string;
                   ss_gender : string;
                   ss_session_duration : Z }.

Record SessionStart : Type :=
  mkStarted { system_prompt : string;
              video_filename : string;
              backstory : string }.

(** [create_base_persona] fills a fixed template, whose text has
    characters above 255; it is a parameter. *)
Variable create_base_persona :
  string -> Z -> string -> string -> string -> string -> string.

(** [POST /start_session]: nothing in the [try] block can raise, so the
    [except] branch is left out. *)
Definition start_session (bedrock_client : option Client)
           (request : SessionStartRequest) : IO SessionStart :=
  let! backstory :=
    _generate_unique_backstory bedrock_client (ss_diseases request)
      (ss_age request) (ss_gender request) (ss_working_domain request) in
  let persona :=
    create_base_persona (ss_diseases request) (ss_age request)
      (ss_ethnicity request) (ss_working_domain request) (ss_gender request)
      backstory in
  let video_filename := get_video_filename (ss_age request) (ss_gender request) in
  let video_path := ("templates/" ++ video_filename)%string in
  let video_filename :=
    if negb (path_exists video_path) then "male-adult.mp4"
    else video_filename in
  ret {| system_prompt := persona;
         video_filename := video_filename;
         backstory := backstory |}.

End Files.

(** ** The transcript of the report prompt (main.py, line 441) *)

(** [t = transcript[:3000] + ("..." if len(transcript) > 3000 else "")] *)
Definition report_transcript (transcript : string) : string :=
  let mark :=
    if 3000 <? Z.of_nat (String.length transcript) then "..."
    else EmptyString in
  (slice_to 3000 transcript ++ mark)%string.

(** ** More vocabulary *)

(** A record of the table: four fields, none of them oversize. *)
Definition table_record (record : list string) : Prop :=
  length record = 4%nat /\ oversize record = false.

(** A table as this program writes it and can read it back: the header,
    then records of four fields within the reader's limit. *)
Definition users_table (f : CsvFile) : Prop :=
  exists records : list (list string),
    f = FIELDNAMES :: records /\ Forall table_record records.

(** The emails of the records after the header. *)
Definition emails_of (f : CsvFile) : list string :=
  map (fun r => default EmptyString (head r)) (tail f).

(** The seconds waited in a trace. *)
Fixpoint waited (events : list Event) : Q :=
  match events with
  | [] => 0
  | Slept seconds :: events' => (seconds + waited events')%Q
  | Invoked _ :: events' => waited events'
  end.

(** Some record of the table pairs [email] with the hash [h]. *)
Definition credentials_in (records : list (list string)) (email h : string)
  : Prop :=
  Exists (fun r => r !! 0%nat = Some email /\ r !! 1%nat = Some h) records.

(** The store holds a session under [tok]. *)
Definition store_has (store : Store) (tok : string) : Prop :=
  match store with
  | RedisStore db => is_Some (db !! tok)
  | MemoryStore active_sessions => is_Some (active_sessions !! tok)
  end.

(** A list of messages fit to be sent: not empty, alternating, ending with
    the user, no empty content. *)
Definition well_formed_turns (messages : list Message) : Prop :=
  alternating messages
  /\ (exists newest : Message,
        last messages = Some newest /\ role newest = "user")
  /\ Forall (fun m => content m <> EmptyString) messages.

(** The provider calls in a trace. *)
Fixpoint invoked (events : list Event) : nat :=
  match events with
  | [] => 0
  | Invoked _ :: events' => S (invoked events')
  | Slept _ :: events' => invoked events'
  end.

(** The world [w'] is [w] after [events]: the events were appended to the
    trace and every call among them was counted. *)
Definition after (w : World) (events : list Event) (w' : World) : Prop :=
  calls w' = (calls w + invoked events)%nat
  /\ trace w' = trace w ++ events.

(** ** More sample inputs *)

Module MoreSamples.

(** A stand-in for the digest, to run the user table on. *)
Definition mark_hash (password : string) : string := ("#" ++ password)%string.

Definition ann : list string :=
  ["a@b.com"; mark_hash "secret"; "Ann"; "2024-01-01T00:00:00"].

Definition one_user : CsvFile := [FIELDNAMES; ann].

(** A provider that throttles every call. *)
Definition always_throttled : Client :=
  fun _ _ => ClientError "ThrottlingException".

End MoreSamples.

(** * Properties *)

(** ** Numbers *)

Lemma ltb_lt (x y : Q) : ltb x y = true <-> (x < y)%Q.
Proof. unfold ltb, Qlt. apply Z.ltb_lt. Qed.

Lemma ltb_ge (x y : Q) : ltb x y = false <-> (y <= x)%Q.
Proof. unfold ltb, Qle. apply Z.ltb_ge. Qed.

Lemma ltb_proper (x x' y y' : Q) :
  (x == x')%Q -> (y == y')%Q -> ltb x y = ltb x' y'.
Proof.
  intros Hx Hy.
  destruct (ltb x' y') eqn:E.
  - apply ltb_lt. apply ltb_lt in E. lra.
  - apply ltb_ge. apply ltb_ge in E. lra.
Qed.

Lemma of_nat_nonneg (n : nat) : (0 <= of_nat n)%Q.
Proof.
  unfold of_nat, Qle. simpl. lia.
Qed.

(** [int] rounds down on non-negative numbers. *)
Lemma int_lower_bound (k : Z) (x : Q) :
  0 <= k -> (inject_Z k <= x)%Q -> k <= int x.
Proof.
  destruct x as [n d]. unfold int, Qle. simpl. intros Hk H.
  rewrite Z.quot_div_nonneg by lia.
  apply Z.div_le_lower_bound; lia.
Qed.

(** ** Comparison of messages *)

Lemma message_eqb_eq (a b : Message) : message_eqb a b = true <-> a = b.
Proof.
  destruct a as [ra ca], b as [rb cb]. unfold message_eqb. simpl.
  rewrite andb_true_iff, !String.eqb_eq. split.
  - intros [-> ->]. reflexivity.
  - intros [= -> ->]. auto.
Qed.

Lemma messages_eqb_eq (l1 l2 : list Message) :
  messages_eqb l1 l2 = true <-> l1 = l2.
Proof.
  revert l2. induction l1 as [|a l1 IH]; intros [|b l2]; simpl;
    try (split; [discriminate|discriminate]); [tauto|].
  rewrite andb_true_iff, message_eqb_eq, IH. split.
  - intros [-> ->]. reflexivity.
  - intros [= -> ->]. auto.
Qed.

Lemma returns_messages_eq (r : result Exception (list Message))
      (l : list Message) :
  returns_messages r l = true <-> r = Ok l.
Proof.
  destruct r as [l'|e]; simpl.
  - rewrite messages_eqb_eq. split; [intros ->; reflexivity|intros [= ->]; auto].
  - split; discriminate.
Qed.

(** ** Token counter *)

Section TokenCounterFacts.

Variable encoder : option Encoder.

Lemma word_estimate_nonneg (text : string) : (0 <= word_estimate text)%Q.
Proof.
  unfold word_estimate.
  pose proof (of_nat_nonneg (length (split text))). nra.
Qed.

Lemma count_tokens_nonneg (text : string) :
  (0 <= count_tokens encoder text)%Q.
Proof.
  unfold count_tokens.
  destruct encoder as [enc|]; [destruct (enc text)|];
    auto using word_estimate_nonneg, of_nat_nonneg.
Qed.

(** On the tokenizer path the count is the number of tokens. *)
Lemma count_tokens_encoded (enc : Encoder) (text : string) (toks : list Z) :
  encoder = Some enc -> enc text = Some toks ->
  count_tokens encoder text = inject_Z (Z.of_nat (length toks)).
Proof. intros -> H. unfold count_tokens. rewrite H. reflexivity. Qed.

(** Without a working tokenizer the count is 1.3 per word. *)
Lemma count_tokens_fallback (text : string) :
  (encoder = None \/ exists enc, encoder = Some enc /\ enc text = None) ->
  count_tokens encoder text = word_estimate text.
Proof.
  intros [-> | (enc & -> & H)]; unfold count_tokens; [|rewrite H]; reflexivity.
Qed.

Lemma tokens_of_nonneg (messages : list Message) :
  (0 <= tokens_of encoder messages)%Q.
Proof.
  induction messages as [|m ms IH]; simpl; [lra|].
  pose proof (count_tokens_nonneg (content m)). lra.
Qed.

Lemma tokens_of_app (l1 l2 : list Message) :
  (tokens_of encoder (l1 ++ l2)
   == tokens_of encoder l1 + tokens_of encoder l2)%Q.
Proof.
  induction l1 as [|m ms IH]; simpl; [lra|].
  fold (tokens_of encoder (ms ++ l2)). fold (tokens_of encoder ms). lra.
Qed.

Lemma tokens_of_reverse (l : list Message) :
  (tokens_of encoder (reverse l) == tokens_of encoder l)%Q.
Proof.
  induction l as [|m ms IH]; [reflexivity|].
  rewrite reverse_cons, tokens_of_app. simpl.
  fold (tokens_of encoder ms). lra.
Qed.

End TokenCounterFacts.

(** ** Context trimming *)

Section WindowFacts.

Variable encoder : option Encoder.
Variable available : Q.

Abbreviation tokens := (count_tokens encoder).
Abbreviation cost := (tokens_of encoder).
Abbreviation loop := (fit_loop encoder available).
Abbreviation max_chars := (max_chars_of available).

Lemma fit_loop_cons (msg : Message) (rest : list Message) (total : Q)
      (kept : list Message) :
  loop (msg :: rest) total kept =
  let msg' :=
    if ltb available (total + tokens (content msg))%Q
    then truncate_msg max_chars msg else msg in
  if ltb available (total + tokens (content msg))%Q && negb (50 <? max_chars)
  then kept
  else if ltb available (total + tokens (content msg'))%Q
       then kept ++ [msg']
       else loop rest (total + tokens (content msg'))%Q (kept ++ [msg']).
Proof.
  cbn [fit_loop]. cbv zeta.
  destruct (ltb available (total + tokens (content msg))%Q) eqn:E1; simpl.
  - destruct (50 <? max_chars); reflexivity.
  - rewrite E1. reflexivity.
Qed.

(** Only the value of the running total matters, not how it is written. *)
Lemma fit_loop_total (rest : list Message) :
  forall (total total' : Q) (kept : list Message),
    (total == total')%Q -> loop rest total kept = loop rest total' kept.
Proof.
  induction rest as [|msg rest IH]; intros total total' kept Heq;
    [reflexivity|].
  rewrite !fit_loop_cons. cbv zeta.
  rewrite <- (ltb_proper available available
                         (total + tokens (content msg))
                         (total' + tokens (content msg)))
    by (rewrite ?Heq; reflexivity).
  set (msg' := if ltb available (total + tokens (content msg))%Q
               then truncate_msg max_chars msg else msg).
  rewrite <- (ltb_proper available available
                         (total + tokens (content msg'))
                         (total' + tokens (content msg')))
    by (rewrite ?Heq; reflexivity).
  rewrite (IH (total + tokens (content msg'))%Q
              (total' + tokens (content msg'))%Q)
    by (rewrite Heq; reflexivity).
  reflexivity.
Qed.

(** Messages that fit together are all kept, untouched. *)
Lemma fit_loop_fitting (l1 : list Message) :
  forall (l2 : list Message) (total : Q) (kept : list Message),
    (total + cost l1 <= available)%Q ->
    loop (l1 ++ l2) total kept
    = loop l2 (total + cost l1)%Q (kept ++ l1).
Proof.
  induction l1 as [|msg l1 IH]; intros l2 total kept Hfit.
  - simpl. rewrite app_nil_r. apply fit_loop_total. lra.
  - simpl in Hfit. fold (cost l1) in Hfit.
    pose proof (tokens_of_nonneg encoder l1) as Hpos.
    assert (E : ltb available (total + tokens (content msg))%Q = false)
      by (apply ltb_ge; lra).
    change ((msg :: l1) ++ l2) with (msg :: (l1 ++ l2)).
    rewrite fit_loop_cons. cbv zeta. rewrite E. simpl. rewrite E.
    rewrite IH by lra.
    rewrite <- app_assoc. simpl.
    apply fit_loop_total. fold (cost l1). lra.
Qed.

(** The invariant of the loop: what it adds to [kept] is a run of the
    newest messages not yet visited, each untouched or truncated, and
    every one of them but the last added fits in the budget. *)
Lemma fit_loop_spec (rest : list Message) :
  forall (total : Q) (kept : list Message),
  exists taken untouched out : list Message,
    rest = taken ++ untouched
    /\ loop rest total kept = kept ++ out
    /\ Forall2 (kept_as max_chars) out taken
    /\ ((total <= available)%Q ->
        out = [] \/
        exists (init : list Message) (oldest : Message),
          out = init ++ [oldest] /\ (total + cost init <= available)%Q).
Proof.
  induction rest as [|msg rest IH]; intros total kept.
  - exists [], [], []. simpl. rewrite app_nil_r. repeat split; auto.
  - rewrite fit_loop_cons. cbv zeta.
    set (msg' := if ltb available (total + tokens (content msg))%Q
                 then truncate_msg max_chars msg else msg).
    assert (Hk : kept_as max_chars msg' msg).
    { unfold msg', kept_as.
      destruct (ltb available (total + tokens (content msg))%Q); auto. }
    destruct (ltb available (total + tokens (content msg))%Q
              && negb (50 <? max_chars)).
    { exists [], (msg :: rest), []. rewrite app_nil_r.
      repeat split; auto. }
    destruct (ltb available (total + tokens (content msg'))%Q) eqn:E.
    { exists [msg], rest, [msg']. repeat split; auto.
      intros Ht. right. exists [], msg'. split; [reflexivity|].
      simpl. lra. }
    apply ltb_ge in E.
    destruct (IH (total + tokens (content msg'))%Q (kept ++ [msg']))
      as (taken & untouched & out & -> & Hloop & Hall & Hcost).
    exists (msg :: taken), untouched, (msg' :: out).
    rewrite Hloop, <- app_assoc. repeat split; auto.
    intros Ht. right.
    destruct (Hcost E) as [-> | (init & oldest & -> & Hinit)].
    + exists [], msg'. split; [reflexivity|]. simpl. lra.
    + exists (msg' :: init), oldest. split; [reflexivity|].
      simpl. fold (cost init). lra.
Qed.

(** With at least 500 tokens available the newest message is never
    dropped. *)
Lemma fit_loop_newest (msg : Message) (rest : list Message) (total : Q)
      (kept : list Message) :
  50 < max_chars ->
  exists (msg' : Message) (older : list Message),
    loop (msg :: rest) total kept = kept ++ msg' :: older
    /\ kept_as max_chars msg' msg.
Proof.
  intros Hmax. rewrite fit_loop_cons. cbv zeta.
  set (msg' := if ltb available (total + tokens (content msg))%Q
               then truncate_msg max_chars msg else msg).
  assert (Hk : kept_as max_chars msg' msg).
  { unfold msg', kept_as.
    destruct (ltb available (total + tokens (content msg))%Q); auto. }
  apply Z.ltb_lt in Hmax. rewrite Hmax, andb_false_r.
  destruct (ltb available (total + tokens (content msg'))%Q).
  - exists msg', []. auto.
  - destruct (fit_loop_spec rest (total + tokens (content msg'))%Q
                            (kept ++ [msg']))
      as (_ & _ & out & _ & -> & _).
    exists msg', out. rewrite <- app_assoc. auto.
Qed.

(** Only the value of [ahead] matters. *)
Lemma kept_by_rule_ahead (out : list Message) :
  forall (kept : list Message) (ahead ahead' : Q),
    (ahead == ahead')%Q ->
    kept_by_rule encoder available ahead out kept ->
    kept_by_rule encoder available ahead' out kept.
Proof.
  induction out as [|o out IH]; intros [|k kept] ahead ahead' Heq;
    cbn [kept_by_rule]; auto.
  cbv zeta. intros (Hfit & Hcut & Hrest). split; [|split].
  - intros H. apply Hfit. lra.
  - intros H. apply Hcut. lra.
  - exact (IH kept ahead ahead' Heq Hrest).
Qed.




End WindowFacts.

Section WindowTheorems.

Variable encoder : option Encoder.

Lemma fit_to_token_limit_ok (messages : list Message)
      (system_prompt : string) (out : list Message) :
  fit_to_token_limit encoder messages system_prompt = Ok out ->
  (500 <= available_for encoder system_prompt)%Q
  /\ out = reverse (fit_loop encoder (available_for encoder system_prompt)
                             (reverse messages) 0 []).
Proof.
  unfold fit_to_token_limit. cbv zeta.
  destruct (ltb (available_for encoder system_prompt) 500) eqn:E;
    [discriminate|].
  intros [= <-]. apply ltb_ge in E. auto.
Qed.

Lemma fit_to_token_limit_raises (messages : list Message)
      (system_prompt : string) :
  (available_for encoder system_prompt < 500)%Q ->
  fit_to_token_limit encoder messages system_prompt
  = Raise (HTTPException 500 "System prompt too long").
Proof.
  intros H. apply ltb_lt in H. unfold fit_to_token_limit. cbv zeta.
  rewrite H. reflexivity.
Qed.

Lemma max_chars_large (available : Q) :
  (500 <= available)%Q -> 1750 <= max_chars_of available.
Proof.
  intros H. unfold max_chars_of. apply int_lower_bound; [lia|].
  change (inject_Z 1750) with 1750%Q. lra.
Qed.

(** A list that fits in the available budget is returned as it is. *)
Lemma fit_fitting_unchanged (messages : list Message)
      (system_prompt : string) :
  (500 <= available_for encoder system_prompt)%Q ->
  (tokens_of encoder messages <= available_for encoder system_prompt)%Q ->
  fit_to_token_limit encoder messages system_prompt = Ok messages.
Proof.
  intros Hav Hfit. unfold fit_to_token_limit. cbv zeta.
  apply ltb_ge in Hav. rewrite Hav. f_equal.
  rewrite <- (app_nil_r (reverse messages)).
  rewrite fit_loop_fitting
    by (rewrite tokens_of_reverse; lra).
  simpl. apply reverse_involutive.
Qed.

(** C3 (as amended): when the system prompt, the messages, the reply
    reserve and the safety margin of 100 tokens together stay within the
    total budget, that is when the messages cost at most [available],
    [fit_to_token_limit] returns its input unchanged, provided one counter
    prices every text; whatever the counters, it does so when the total
    stays strictly below the budget. *)
Theorem fit_within_budget_unchanged (messages : list Message)
        (system_prompt : string) :
  (500 <= available_for encoder system_prompt)%Q ->
  let total :=
    (count_tokens encoder system_prompt + tokens_of encoder messages
     + MAX_TOKENS_CHAT + 100)%Q in
  (single_counter encoder /\ (total <= MAX_TOTAL_TOKENS)%Q)
  \/ (total < MAX_TOTAL_TOKENS)%Q ->
  fit_to_token_limit encoder messages system_prompt = Ok messages.
Proof.
  cbv zeta. intros Hav Hfit. apply fit_fitting_unchanged; [exact Hav|].
  unfold available_for, MAX_TOKENS_CHAT, MAX_TOTAL_TOKENS in *.
  destruct Hfit as [[_ Hfit]|Hfit]; lra.
Qed.

(** The shape of every output: a suffix of the input whose messages are
    kept untouched or truncated, all but the oldest fitting in the
    budget. *)
Lemma fit_output_shape (messages : list Message)
        (system_prompt : string) (out : list Message) :
  fit_to_token_limit encoder messages system_prompt = Ok out ->
  exists dropped kept : list Message,
    messages = dropped ++ kept
    /\ Forall2 (kept_as (max_chars_of (available_for encoder system_prompt)))
               out kept
    /\ (tokens_of encoder (tail out)
        <= available_for encoder system_prompt)%Q.
Proof.
  intros Hfit. apply fit_to_token_limit_ok in Hfit as [Hav ->].
  set (available := available_for encoder system_prompt) in *.
  destruct (fit_loop_spec encoder available (reverse messages) 0 [])
    as (taken & untouched & out0 & Hsplit & -> & Hall & Hcost).
  exists (reverse untouched), (reverse taken). split; [|split].
  - rewrite <- reverse_app, <- Hsplit. symmetry. apply reverse_involutive.
  - simpl. apply Forall2_reverse, Hall.
  - simpl. destruct Hcost as [-> | (init & oldest & -> & Hinit)]; [lra| |].
    + change (tail (reverse [])) with (@nil Message). simpl. lra.
    + rewrite reverse_snoc. simpl. rewrite tokens_of_reverse. lra.
Qed.


(** C10: when no configuration error is raised [available] is at least
    500, so [max_chars] is at least 1750, the test [max_chars > 50]
    always succeeds, and the newest message of a non-empty input is the
    newest message of the output, untouched or truncated. *)
Theorem fit_never_drops_newest (messages : list Message)
        (system_prompt : string) (out : list Message) :
  fit_to_token_limit encoder messages system_prompt = Ok out ->
  (500 <= available_for encoder system_prompt)%Q
  /\ 1750 <= max_chars_of (available_for encoder system_prompt)
  /\ (50 <? max_chars_of (available_for encoder system_prompt)) = true
  /\ (forall newest : Message,
        last messages = Some newest ->
        exists newest' : Message,
          last out = Some newest'
          /\ kept_as (max_chars_of (available_for encoder system_prompt))
                     newest' newest).
Proof.
  intros Hfit. apply fit_to_token_limit_ok in Hfit as [Hav ->].
  pose proof (max_chars_large _ Hav) as Hmax.
  repeat split; [exact Hav|exact Hmax|apply Z.ltb_lt; lia|].
  intros newest Hlast.
  apply last_Some in Hlast as [older ->].
  rewrite reverse_snoc.
  destruct (fit_loop_newest encoder (available_for encoder system_prompt)
                            newest (reverse older) 0 [])
    as (newest' & rest & -> & Hk); [lia|].
  exists newest'. split; [|exact Hk].
  simpl. rewrite reverse_cons. apply last_snoc.
Qed.


End WindowTheorems.

(** Without a tokenizer a list costs 1.3 tokens for each of its words. *)
Lemma tokens_of_fallback (messages : list Message) :
  exists words : nat,
    (tokens_of None messages == of_nat words * (13 # 10))%Q.
Proof.
  induction messages as [|m ms [n IH]]; [exists 0%nat; reflexivity|].
  exists (length (split (content m)) + n)%nat.
  simpl. fold (tokens_of None ms). rewrite IH.
  unfold word_estimate, of_nat. rewrite Nat2Z.inj_add, inject_Z_plus. lra.
Qed.

(** Without a tokenizer no list of messages costs exactly what a prompt
    leaves available: that would take 94000 / 13 words in all. *)
Lemma fallback_never_ties (messages : list Message) (system_prompt : string) :
  ~ (tokens_of None messages == available_for None system_prompt)%Q.
Proof.
  destruct (tokens_of_fallback messages) as [m Hm]. intros H.
  rewrite Hm in H.
  unfold available_for in H.
  change (count_tokens None system_prompt)
    with (word_estimate system_prompt) in H.
  unfold word_estimate, MAX_TOTAL_TOKENS, MAX_TOKENS_CHAT, of_nat in H.
  generalize dependent (Z.of_nat (length (split system_prompt))).
  intros s H.
  assert (E : (inject_Z (13 * (Z.of_nat m + s)) == inject_Z 94000)%Q).
  { rewrite inject_Z_mult, inject_Z_plus.
    change (inject_Z 13) with 13%Q. change (inject_Z 94000) with 94000%Q.
    lra. }
  unfold Qeq in E. cbn [inject_Z Qnum Qden] in E. lia.
Qed.

(** ** Context trimming on sample inputs *)

Module WindowSamples.

Import Samples.

(** C3, counterexample: with an empty system prompt, one message of 7270
    words costs 9451 tokens; prompt, message and reply reserve make 9951,
    within the total budget of 10000, yet the message comes back with an
    ellipsis appended, because only 9400 tokens are available. *)
Lemma fit_below_budget_changed :
  let messages := [mkMessage "user" long_text] in
  (500 <= available_for None "")%Q
  /\ (count_tokens None "" + tokens_of None messages + MAX_TOKENS_CHAT
      <= MAX_TOTAL_TOKENS)%Q
  /\ (tokens_of None messages == 9451)%Q
  /\ (available_for None "" == 9400)%Q
  /\ fit_to_token_limit None messages ""
     = Ok [mkMessage "user" (long_text ++ "...")%string]
  /\ fit_to_token_limit None messages "" <> Ok messages.
Proof.
  cbv zeta. split; [|split; [|split; [|split; [|split]]]].
  - apply ltb_ge. vm_compute. reflexivity.
  - apply ltb_ge. vm_compute. reflexivity.
  - vm_compute. reflexivity.
  - vm_compute. reflexivity.
  - apply returns_messages_eq. vm_compute. reflexivity.
  - intros H. apply (f_equal size1) in H. vm_compute in H. discriminate H.
Qed.



(** A tokenizer that never fails, and two messages that cost exactly
    the 9400 tokens available: the list comes back unchanged. *)
Lemma fit_within_budget_unchanged_witness :
  let messages :=
    [mkMessage "assistant" (repeat_str "a" (47 * 100));
     mkMessage "user" (repeat_str "b" (47 * 100))] in
  (500 <= available_for (Some char_encoder) "")%Q
  /\ single_counter (Some char_encoder)
  /\ (count_tokens (Some char_encoder) ""
      + tokens_of (Some char_encoder) messages
      + MAX_TOKENS_CHAT + 100 == MAX_TOTAL_TOKENS)%Q
  /\ fit_to_token_limit (Some char_encoder) messages "" = Ok messages.
Proof.
  cbv zeta.
  assert (H1 : (500 <= available_for (Some char_encoder) "")%Q)
    by (vm_compute; discriminate).
  assert (H2 : single_counter (Some char_encoder))
    by (intros text; eexists; reflexivity).
  assert (H3 : (count_tokens (Some char_encoder) ""
                + tokens_of (Some char_encoder)
                    [mkMessage "assistant" (repeat_str "a" (47 * 100));
                     mkMessage "user" (repeat_str "b" (47 * 100))]
                + MAX_TOKENS_CHAT + 100 == MAX_TOTAL_TOKENS)%Q)
    by (vm_compute; reflexivity).
  split; [exact H1|split; [exact H2|split; [exact H3|]]].
  apply (fit_within_budget_unchanged (Some char_encoder) _ "" H1).
  left. split; [exact H2|]. rewrite H3. apply Qle_refl.
Defined.


Lemma fit_never_drops_newest_witness :
  let messages :=
    [mkMessage "assistant" "hello"; mkMessage "user" "hello there"] in
  fit_to_token_limit None messages "be kind" = Ok messages
  /\ 1750 <= max_chars_of (available_for None "be kind").
Proof.
  cbv zeta.
  assert (H : fit_to_token_limit None
                [mkMessage "assistant" "hello";
                 mkMessage "user" "hello there"] "be kind"
              = Ok [mkMessage "assistant" "hello";
                    mkMessage "user" "hello there"])
    by (apply returns_messages_eq; vm_compute; reflexivity).
  split; [exact H|].
  exact (proj1 (proj2 (fit_never_drops_newest None _ "be kind" _ H))).
Defined.


End WindowSamples.

(** ** Token counter on a sample input *)

(** C7: without a tokenizer, and also when encoding fails, the count of a
    one-word text is 13/10, which is not an integer, while the ceiling of
    1.3 times the number of words is 2. *)
Theorem count_tokens_fallback_fraction :
  (count_tokens None "hello" == 13 # 10)%Q
  /\ (count_tokens (Some (fun _ => None)) "hello" == 13 # 10)%Q
  /\ ~ is_integer (count_tokens None "hello")
  /\ Qceiling (of_nat (length (split "hello")) * (13 # 10)) = 2.
Proof.
  split; [reflexivity|split; [reflexivity|split; [|reflexivity]]].
  intros [z Hz].
  assert (E : (count_tokens None "hello" == 13 # 10)%Q) by reflexivity.
  rewrite E in Hz. unfold Qeq in Hz. simpl in Hz. lia.
Qed.

(** ** Turn validation *)

Lemma repeated_role_true (messages : list Message) :
  repeated_role messages = true <-> same_role_neighbours messages.
Proof.
  induction messages as [|prev tl IH].
  - split; [discriminate|]. intros (i & a & b & H & _). discriminate H.
  - destruct tl as [|cur tl'].
    + split; [discriminate|].
      intros (i & a & b & _ & H & _). destruct i; discriminate H.
    + cbn [repeated_role].
      destruct (String.eqb (role cur) (role prev)) eqn:E.
      * apply String.eqb_eq in E. split; [|reflexivity]. intros _.
        exists 0%nat, prev, cur. auto.
      * apply String.eqb_neq in E. rewrite IH. split.
        -- intros (i & a & b & Ha & Hb & Hr). exists (S i), a, b. auto.
        -- intros (i & a & b & Ha & Hb & Hr). destruct i as [|i].
           ++ simpl in Ha, Hb. congruence.
           ++ exists i, a, b. auto.
Qed.

Lemma repeated_role_false (messages : list Message) :
  repeated_role messages = false <-> alternating messages.
Proof.
  rewrite <- not_true_iff_false, repeated_role_true. split.
  - intros Hno i a b Ha Hb Hr. apply Hno. exists i, a, b. auto.
  - intros Halt (i & a & b & Ha & Hb & Hr). exact (Halt i a b Ha Hb Hr).
Qed.

(** Every message of the cleaned history is a message of the history with
    its content stripped, and its content is not empty. *)
Lemma clean_history_spec (history : list Message) (m : Message) :
  m ∈ clean_history history <->
  exists m0 : Message,
    m0 ∈ history
    /\ m = {| role := role m0; content := strip (content m0) |}
    /\ content m0 <> EmptyString /\ strip (content m0) <> EmptyString.
Proof.
  unfold clean_history. rewrite list_elem_of_fmap. split.
  - intros (m0 & -> & Hin). apply list_elem_of_filter in Hin as [Hok Hin].
    exists m0. apply andb_true_iff in Hok as [H1 H2].
    repeat split; auto; intros E; rewrite E in *; discriminate.
  - intros (m0 & Hin & -> & H1 & H2). exists m0. split; [reflexivity|].
    apply list_elem_of_filter. split; [|exact Hin].
    destruct (content m0); [congruence|].
    destruct (strip _); [congruence|]. reflexivity.
Qed.

(** A rejected history stops [chat] at once: nothing is sent, nothing is
    waited for. *)
Lemma chat_rejects_before_call (encoder : option Encoder)
      (bedrock_client : option Client) (history : list Message)
      (persona_prompt : string) (w : World) (e : Exception) :
  check_turns (clean_history history) = Raise e ->
  chat encoder bedrock_client history persona_prompt w = (Raise e, w).
Proof. intros H. unfold chat. cbv zeta. rewrite H. reflexivity. Qed.

(** C4: the three checks, in order.  An empty list is rejected as an empty
    history; a non-empty list with two neighbours of the same role is
    rejected as a missing reply; an alternating list whose last message is
    not the user's is rejected as a wrong last speaker; every non-empty
    alternating list that ends with the user is accepted.  Each check has
    its own error message, and [chat] raises them on the cleaned history
    before anything else happens. *)
Theorem check_turns_cases (messages : list Message) :
  (check_turns messages = Raise (HTTPException 400 "Empty history")
   <-> messages = [])
  /\ (check_turns messages = Raise (HTTPException 400 "Wait for patient reply")
      <-> messages <> [] /\ same_role_neighbours messages)
  /\ (check_turns messages
      = Raise (HTTPException 400 "Therapist must speak last")
      <-> alternating messages
          /\ exists newest : Message,
              last messages = Some newest /\ role newest <> "user")
  /\ (check_turns messages = Ok tt
      <-> alternating messages
          /\ exists newest : Message,
              last messages = Some newest /\ role newest = "user")
  /\ (forall (encoder : option Encoder) (bedrock_client : option Client)
             (history : list Message) (persona_prompt : string) (w : World)
             (e : Exception),
         check_turns (clean_history history) = Raise e ->
         chat encoder bedrock_client history persona_prompt w = (Raise e, w)).
Proof.
  unfold check_turns.
  destruct (last messages) as [newest|] eqn:Hlast.
  - assert (Hne : messages <> []).
    { intros ->. discriminate Hlast. }
    destruct (repeated_role messages) eqn:Hrep.
    + apply repeated_role_true in Hrep as Hsame.
      assert (Hnalt : ~ alternating messages).
      { intros Halt. apply repeated_role_false in Halt. congruence. }
      repeat split; try discriminate; try tauto; try congruence.
      all: try (intros [H _]; tauto).
      apply chat_rejects_before_call.
    + apply repeated_role_false in Hrep as Halt.
      assert (Hnsame : ~ same_role_neighbours messages).
      { intros Hs. apply repeated_role_true in Hs. congruence. }
      destruct (String.eqb (role newest) "user") eqn:Hu; simpl.
      * apply String.eqb_eq in Hu.
        repeat split; try discriminate; try tauto; try congruence;
          try (intros [_ H]; tauto); eauto.
        -- intros [_ (n & [= <-] & Hn)]. congruence.
        -- apply chat_rejects_before_call.
      * apply String.eqb_neq in Hu.
        repeat split; try discriminate; try tauto; try congruence;
          try (intros [_ H]; tauto); eauto.
        -- intros [_ (n & [= <-] & Hn)]. congruence.
        -- apply chat_rejects_before_call.
  - apply last_None in Hlast as ->.
    repeat split; try discriminate; try tauto; try congruence.
    + intros [_ (n & H & _)]. discriminate H.
    + intros [_ (n & H & _)]. discriminate H.
    + apply chat_rejects_before_call.
Qed.

Lemma check_turns_cases_witness :
  check_turns (clean_history [mkMessage "assistant" " hi";
                              mkMessage "user" "  ";
                              mkMessage "user" "hello "]) = Ok tt
  /\ alternating [mkMessage "assistant" "hi"; mkMessage "user" "hello"].
Proof.
  split; [reflexivity|].
  exact (proj1 (proj1 (proj1 (proj2 (proj2 (proj2
           (check_turns_cases [mkMessage "assistant" "hi";
                               mkMessage "user" "hello"]))))) eq_refl)).
Defined.

(** The four lists of the specification. *)
Example check_turns_samples :
  check_turns [] = Raise (HTTPException 400 "Empty history")
  /\ check_turns [mkMessage "user" "hi"; mkMessage "user" "there"]
     = Raise (HTTPException 400 "Wait for patient reply")
  /\ check_turns [mkMessage "user" "hi"; mkMessage "assistant" "hey"]
     = Raise (HTTPException 400 "Therapist must speak last")
  /\ check_turns [mkMessage "assistant" "hi"; mkMessage "user" "hello"]
     = Ok tt.
Proof. repeat split. Qed.

(** ** Session store *)

Lemma truthy_nonempty (s : string) : s <> EmptyString -> truthy s = true.
Proof. destruct s; [congruence|reflexivity]. Qed.

Lemma redis_get_setex (db : gmap string (RedisValue * Q)) (key : string)
      (v : RedisValue) (expires_at now : Q) :
  redis_get (<[key := (v, expires_at)]> db) key now
  = if ltb expires_at now then None else Some v.
Proof. unfold redis_get. rewrite lookup_insert_eq. reflexivity. Qed.

Lemma redis_get_delete (db : gmap string (RedisValue * Q)) (key : string)
      (now : Q) :
  redis_get (delete key db) key now = None.
Proof. unfold redis_get. rewrite lookup_delete_eq. reflexivity. Qed.

(** C6: the token returned by [create_session] verifies to the subject
    as long as less than 24 hours have passed since creation, to nothing
    once more than 24 hours have passed, and to nothing at any time after
    [logout] with that token, on either backend. *)
Theorem session_round_trip (store : Store) (subject : string) (t0 t : Q)
        (session_token : string) :
  session_token <> EmptyString ->
  let created := create_session store subject t0 session_token in
  created.1 = session_token
  /\ ((t - t0 < TTL)%Q ->
      (verify_session created.2 (Some created.1) t).1 = Some subject)
  /\ ((TTL < t - t0)%Q ->
      (verify_session created.2 (Some created.1) t).1 = None)
  /\ (verify_session (logout created.2 (Some created.1)) (Some created.1) t).1
     = None.
Proof.
  intros Htok. apply truthy_nonempty in Htok.
  destruct store as [db|active_sessions]; cbn [create_session fst snd].
  - split; [reflexivity|]. unfold verify_session, logout.
    rewrite Htok. cbn [negb].
    rewrite redis_get_setex, redis_get_delete. cbn [created_at email].
    split; [|split]; [intros H|intros H|reflexivity].
    + assert (E1 : ltb (t0 + TTL) t = false) by (apply ltb_ge; lra).
      assert (E2 : ltb TTL (t - t0) = false) by (apply ltb_ge; lra).
      rewrite E1. cbn [created_at email]. rewrite E2. reflexivity.
    + assert (E1 : ltb (t0 + TTL) t = true) by (apply ltb_lt; lra).
      rewrite E1. reflexivity.
  - split; [reflexivity|]. unfold verify_session, logout.
    rewrite Htok. cbn [negb].
    rewrite !lookup_insert_eq. cbn [created_at email].
    rewrite lookup_delete_eq.
    split; [|split]; [intros H|intros H|reflexivity].
    + assert (E2 : ltb TTL (t - t0) = false) by (apply ltb_ge; lra).
      rewrite E2. reflexivity.
    + assert (E2 : ltb TTL (t - t0) = true) by (apply ltb_lt; lra).
      rewrite E2. reflexivity.
Qed.

Lemma session_round_trip_witness :
  let created :=
    create_session (MemoryStore ∅) "a@b.com" 1000 "5f2a9c" in
  "5f2a9c" <> EmptyString
  /\ (1060 - 1000 < TTL)%Q
  /\ (verify_session created.2 (Some created.1) 1060).1 = Some "a@b.com".
Proof.
  cbv zeta.
  assert (H0 : "5f2a9c" <> EmptyString) by discriminate.
  assert (H1 : (1060 - 1000 < TTL)%Q) by reflexivity.
  split; [exact H0|split; [exact H1|]].
  exact (proj1 (proj2 (session_round_trip (MemoryStore ∅) "a@b.com" 1000 1060
                                          "5f2a9c" H0)) H1).
Defined.

(** ** Model call *)

Lemma decode_outcome_raises (outcome : ProviderOutcome) (e : Exception) :
  decode_outcome outcome = Raise e ->
  e = HTTPException 429 "Rate limit. Wait 10s."
  \/ exists detail : string,
      e = HTTPException 500 detail /\ detail <> "Bedrock not ready".
Proof.
  destruct outcome as [[|block blocks]|code|message]; simpl.
  - intros [= <-]. right. eexists. split; [reflexivity|discriminate].
  - destruct (decide (block_type block = Some "text")).
    + destruct (block_text block); [discriminate|].
      intros [= <-]. right. eexists. split; [reflexivity|discriminate].
    + intros [= <-]. right. eexists. split; [reflexivity|discriminate].
  - destruct (String.eqb code "ThrottlingException").
    + intros [= <-]. left. reflexivity.
    + intros [= <-]. right. eexists. split; [reflexivity|discriminate].
  - intros [= <-]. right. eexists. split; [reflexivity|discriminate].
Qed.

Lemma decode_outcome_throttled (outcome : ProviderOutcome) :
  decode_outcome outcome = Raise (HTTPException 429 "Rate limit. Wait 10s.")
  <-> outcome = ClientError "ThrottlingException".
Proof.
  split.
  - destruct outcome as [[|block blocks]|code|message]; simpl; try discriminate.
    + destruct (decide (block_type block = Some "text"));
        [destruct (block_text block)|]; discriminate.
    + destruct (String.eqb code "ThrottlingException") eqn:E;
        [|discriminate].
      apply String.eqb_eq in E. subst. reflexivity.
  - intros ->. reflexivity.
Qed.

(** C8: the failures of the model call are of three kinds.  Without a
    client the call fails at once with the not-ready error and the world is
    untouched: no call is made.  With a client exactly one call is made;
    the rate-limit error 429 is raised exactly when the provider signals
    [ThrottlingException]; any other provider error code and any other
    exception give an error 500 that names the failure; and every failure
    is either the rate-limit error or an error 500 other than the
    not-ready error. *)
Theorem invoke_failure_kinds (bedrock_client : option Client) (req : Request)
        (w : World) :
  let run := _invoke_bedrock_claude bedrock_client req w in
  match bedrock_client with
  | None => run = (Raise (HTTPException 500 "Bedrock not ready"), w)
  | Some client =>
      run.2 = {| calls := S (calls w); trace := trace w ++ [Invoked req] |}
      /\ (run.1 = Raise (HTTPException 429 "Rate limit. Wait 10s.")
          <-> client (calls w) req = ClientError "ThrottlingException")
      /\ (forall code : string,
            client (calls w) req = ClientError code ->
            code <> "ThrottlingException" ->
            run.1 = Raise (HTTPException 500 ("Bedrock error: " ++ code)))
      /\ (forall message : string,
            client (calls w) req = Failure message ->
            run.1 = Raise (HTTPException 500 ("Call failed: " ++ message)))
      /\ (forall e : Exception,
            run.1 = Raise e ->
            e = HTTPException 429 "Rate limit. Wait 10s."
            \/ exists detail : string,
                e = HTTPException 500 detail
                /\ detail <> "Bedrock not ready")
  end.
Proof.
  destruct bedrock_client as [client|]; cbv zeta; [|reflexivity].
  unfold _invoke_bedrock_claude, _invoke_bedrock_sync, bind, invoke_model, ret.
  cbn [fst snd]. split; [reflexivity|]. split; [|split; [|split]].
  - apply decode_outcome_throttled.
  - intros code -> Hcode. simpl.
    apply String.eqb_neq in Hcode. rewrite Hcode. reflexivity.
  - intros message ->. reflexivity.
  - intros e. apply decode_outcome_raises.
Qed.

Lemma invoke_failure_kinds_witness :
  let client : Client := fun _ _ => ClientError "AccessDeniedException" in
  let req := mkRequest "system" [mkMessage "user" "hello"] 500 in
  "AccessDeniedException" <> "ThrottlingException"
  /\ (_invoke_bedrock_claude (Some client) req Samples.empty_world).1
     = Raise (HTTPException 500 "Bedrock error: AccessDeniedException").
Proof.
  cbv zeta.
  assert (H : "AccessDeniedException" <> "ThrottlingException")
    by discriminate.
  split; [exact H|].
  exact (proj1 (proj2 (proj2
           (invoke_failure_kinds
              (Some (fun _ _ => ClientError "AccessDeniedException"))
              (mkRequest "system" [mkMessage "user" "hello"] 500)
              Samples.empty_world)))
           "AccessDeniedException" eq_refl H).
Defined.

(** ** Retry and bulk analysis *)

Lemma bind_run {A B : Type} (m : IO A) (k : A -> IO B) (w : World) :
  bind m k w = k (m w).1 (m w).2.
Proof. unfold bind. destruct (m w). reflexivity. Qed.

Section ReportFacts.

Variable client : Client.

Abbreviation retry := (retry_loop (Some client)).

(** One turn of the retry loop: the call is made; a rate-limit error
    before the last attempt is followed by a wait and the next attempt
    with the delay doubled; anything else ends the loop. *)
Lemma retry_loop_step (req : Request) (attempt : nat) (attempts : list nat)
      (retry_delay : Q) (w : World) :
  retry req (attempt :: attempts) retry_delay w =
  let res := decode_outcome (client (calls w) req) in
  if rate_limited res && (attempt <? max_retries - 1)%nat then
    retry req attempts (retry_delay * 2)%Q
          {| calls := S (calls w);
             trace := trace w ++ [Invoked req; Slept retry_delay] |}
  else
    (match res with
     | Ok improvement => Ok (Some improvement)
     | Raise e => Raise e
     end,
     {| calls := S (calls w); trace := trace w ++ [Invoked req] |}).
Proof.
  cbn [retry_loop]. rewrite bind_run.
  unfold _invoke_bedrock_claude, _invoke_bedrock_sync.
  rewrite bind_run. unfold invoke_model, ret. cbn [fst snd]. cbv zeta.
  destruct (decode_outcome (client (calls w) req)) as [text|e] eqn:E.
  - reflexivity.
  - destruct (decode_outcome_raises _ _ E) as [-> | (detail & -> & _)];
      cbn [rate_limited].
    + destruct (attempt <? max_retries - 1)%nat; cbn [andb Z.eqb Pos.eqb];
        [|reflexivity].
      rewrite bind_run. unfold sleep. cbn [fst snd calls trace].
      rewrite <- app_assoc. reflexivity.
    + reflexivity.
Qed.

End ReportFacts.

Section BulkFacts.

Variable bedrock_client : option Client.

(** A reply that the retry loop returns was returned by a call. *)
Lemma retry_loop_returns (req : Request) (attempts : list nat) :
  forall (retry_delay : Q) (w w' : World) (improvement : string),
    retry_loop bedrock_client req attempts retry_delay w
    = (Ok (Some improvement), w') ->
    exists w0 : World,
      (_invoke_bedrock_claude bedrock_client req w0).1 = Ok improvement.
Proof.
  induction attempts as [|attempt attempts IH];
    intros retry_delay w w' improvement; cbn [retry_loop].
  - discriminate.
  - rewrite bind_run.
    destruct (_invoke_bedrock_claude bedrock_client req w) as [r w1] eqn:E.
    cbn [fst snd].
    destruct r as [text|[status_code detail|message]].
    + intros [= <- <-]. exists w. rewrite E. reflexivity.
    + destruct ((status_code =? 429) && (attempt <? max_retries - 1)%nat);
        [|discriminate].
      rewrite bind_run. apply IH.
    + destruct (attempt <? max_retries - 1)%nat; [|discriminate].
      rewrite bind_run. apply IH.
Qed.

Lemma analyze_utterance_run (chat_history : list Message) (i : nat)
      (msg : Message) (w : World) :
  analyze_utterance bedrock_client chat_history i msg w =
  let run := retry_loop bedrock_client
                        (improvement_request chat_history i msg)
                        (seq 0 max_retries) 1 w in
  (record_of msg (patient_response_at chat_history i)
             (checked_improvement run.1), run.2).
Proof. unfold analyze_utterance. rewrite bind_run. reflexivity. Qed.

Lemma record_of_message (msg : Message) (patient_response : string)
      (outcome : result Exception string) :
  therapist_message (record_of msg patient_response outcome) = content msg.
Proof. destruct outcome; reflexivity. Qed.

Lemma fallback_for_opening (e : Exception) :
  String.prefix fallback_opening (fallback_for e) = true.
Proof.
  unfold fallback_for. cbv zeta.
  destruct (_ || _); [reflexivity|].
  destruct (contains _ _); reflexivity.
Qed.

(** Only the content of the message enters its record. *)
Lemma record_of_content (msg msg' : Message) (patient_response : string)
      (outcome : result Exception string) :
  content msg = content msg' ->
  record_of msg patient_response outcome
  = record_of msg' patient_response outcome.
Proof. intros H. destruct outcome; cbn; rewrite H; reflexivity. Qed.

Lemma fallback_for_texts (e : Exception) : fallback_for e ∈ fallback_texts.
Proof.
  unfold fallback_for, fallback_texts. cbv zeta.
  destruct (_ || _); [left|].
  destruct (contains _ _); [right; left|right; right; left].
Qed.

(** On entries that carry both keys, the patient response and the context
    are those read from the messages. *)
Lemma entry_patient_response_complete (entries : list Entry) (i : nat) :
  Forall complete entries ->
  entry_patient_response entries i
  = Ok (patient_response_at (map message_of entries) i).
Proof.
  intros Hall. unfold entry_patient_response, patient_response_at.
  change (map message_of entries) with (message_of <$> entries).
  rewrite list_lookup_fmap.
  destruct (entries !! (i + 1)%nat) as [next|] eqn:E; [|reflexivity].
  pose proof (Forall_lookup_1 _ _ _ _ Hall E) as [[r Hr] [c Hc]].
  destruct next as [next_role next_content]. cbn in Hr, Hc. subst.
  cbn. destruct (String.eqb r "assistant"); reflexivity.
Qed.

Lemma entry_context_parts_complete (entries : list Entry) :
  Forall complete entries ->
  entry_context_parts entries
  = Ok (map (fun m => (role m ++ ": " ++ slice_to 100 (content m))%string)
            (map message_of entries)).
Proof.
  induction 1 as [|entry entries [[r Hr] [c Hc]] _ IH]; [reflexivity|].
  destruct entry as [r0 c0]. cbn in Hr, Hc. subst.
  cbn [entry_context_parts entry_key entry_role entry_content].
  rewrite IH. reflexivity.
Qed.

Lemma entry_context_complete (entries : list Entry) (i : nat) :
  Forall complete entries ->
  entry_context entries i = Ok (context_at (map message_of entries) i).
Proof.
  intros Hall. unfold entry_context, context_at.
  destruct (0 <? i)%nat; [|reflexivity].
  rewrite entry_context_parts_complete
    by (apply Forall_take, Forall_drop, Hall).
  change (map message_of) with (fmap (M := list) message_of).
  rewrite fmap_take, fmap_drop. reflexivity.
Qed.

(** On entries that carry both keys, the body of the loop is the analysis
    of the message. *)
Lemma analyze_entry_complete (entries : list Entry) (i : nat) (msg : Entry)
      (w : World) :
  Forall complete entries -> complete msg ->
  analyze_entry bedrock_client entries i msg w =
  let run := analyze_utterance bedrock_client (map message_of entries) i
                               (message_of msg) w in
  (Ok run.1, run.2).
Proof.
  intros Hall [_ [c Hc]]. unfold analyze_entry.
  rewrite entry_patient_response_complete, entry_context_complete
    by exact Hall.
  destruct msg as [msg_role msg_content]. cbn in Hc. subst.
  cbn [entry_key entry_content]. cbv zeta.
  rewrite bind_run, analyze_utterance_run. cbv zeta.
  unfold ret. cbn [fst snd].
  rewrite (record_of_content (mkMessage "user" c)
             (message_of (mkEntry msg_role (Some c)))) by reflexivity.
  reflexivity.
Qed.

End BulkFacts.

(** C2 (as amended): the analysis of one utterance.  With a client, a
    rate-limit error on the first or second attempt is followed by a wait
    of 1 second, then of 2 seconds, and a new attempt; there are never more
    than three attempts; the first attempt that does not end in a
    rate-limit error, or else the third, settles the record.  A reply with
    non-empty text becomes the analysis of the record; an empty reply, an
    error other than the rate limit (which is not retried) and a third
    rate-limit error leave the fallback text with [needs_improvement]
    false.  Without a client the not-ready error settles the record at
    once. *)
Theorem utterance_retry_policy (client : Client) (chat_history : list Message)
        (i : nat) (msg : Message) (w : World) :
  let req := improvement_request chat_history i msg in
  let reply (k : nat) := decode_outcome (client (k + calls w)%nat req) in
  let settle (n : nat) (events : list Event) (res : result Exception string) :=
    (record_of msg (patient_response_at chat_history i) (settled res),
     {| calls := (n + calls w)%nat; trace := trace w ++ events |}) in
  let run := analyze_utterance (Some client) chat_history i msg w in
  (rate_limited (reply 0%nat) = false ->
   run = settle 1%nat [Invoked req] (reply 0%nat))
  /\ (rate_limited (reply 0%nat) = true ->
      rate_limited (reply 1%nat) = false ->
      run = settle 2%nat [Invoked req; Slept 1; Invoked req] (reply 1%nat))
  /\ (rate_limited (reply 0%nat) = true ->
      rate_limited (reply 1%nat) = true ->
      run = settle 3%nat [Invoked req; Slept 1; Invoked req; Slept 2;
                          Invoked req] (reply 2%nat))
  /\ (forall text : string,
        text <> EmptyString -> settled (Ok text) = Ok text)
  /\ settled (Ok EmptyString) = Raise (OtherException "Failed after all retries")
  /\ (forall e : Exception, settled (Raise e) = Raise e)
  /\ (forall (e : Exception) (patient_response : string),
        record_of msg patient_response (Raise e)
        = {| therapist_message := content msg;
             patient_response := patient_response;
             improvement := fallback_for e;
             needs_improvement := false |})
  /\ analyze_utterance None chat_history i msg w
     = (record_of msg (patient_response_at chat_history i)
                  (Raise (HTTPException 500 "Bedrock not ready")), w).
Proof.
  cbv zeta. rewrite analyze_utterance_run. cbv zeta.
  change (seq 0 max_retries) with [0; 1; 2]%nat.
  rewrite retry_loop_step. cbv zeta. cbn [Nat.add].
  set (req := improvement_request chat_history i msg).
  split; [|split; [|split; [|split; [|split; [|split; [|split]]]]]].
  - intros H0. rewrite H0. cbn [andb fst snd]. reflexivity.
  - intros H0 H1. rewrite H0. cbn [andb Nat.ltb Nat.leb max_retries Nat.sub].
    rewrite retry_loop_step. cbv zeta. cbn [calls trace].
    rewrite H1. cbn [andb fst snd].
    rewrite <- app_assoc. reflexivity.
  - intros H0 H1. rewrite H0. cbn [andb Nat.ltb Nat.leb max_retries Nat.sub].
    rewrite retry_loop_step. cbv zeta. cbn [calls trace].
    rewrite H1. cbn [andb Nat.ltb Nat.leb max_retries Nat.sub].
    rewrite retry_loop_step. cbv zeta. cbn [calls trace].
    rewrite andb_false_r. cbn [fst snd].
    rewrite <- !app_assoc. reflexivity.
  - intros text Htext. unfold settled, checked_improvement.
    rewrite truthy_nonempty by exact Htext. reflexivity.
  - reflexivity.
  - reflexivity.
  - reflexivity.
  - reflexivity.
Qed.

(** The analysis of one utterance, by the number of attempts it takes. *)
Lemma analyze_utterance_settled (client : Client) (history : list Message)
      (i : nat) (msg : Message) (w : World) :
  let req := improvement_request history i msg in
  let reply (k : nat) := decode_outcome (client (calls w + k)%nat req) in
  exists n : nat,
    (1 <= n <= 3)%nat
    /\ (forall k : nat, (S k < n)%nat -> rate_limited (reply k) = true)
    /\ ((n < 3)%nat -> rate_limited (reply (n - 1)%nat) = false)
    /\ analyze_utterance (Some client) history i msg w
       = (record_of msg (patient_response_at history i)
                    (settled (reply (n - 1)%nat)),
          {| calls := (calls w + n)%nat;
             trace := trace w ++ attempt_events req n |}).
Proof.
  cbv zeta. rewrite analyze_utterance_run. cbv zeta.
  change (seq 0 max_retries) with [0; 1; 2]%nat.
  set (req := improvement_request history i msg).
  rewrite retry_loop_step. cbv zeta.
  destruct (rate_limited (decode_outcome (client (calls w) req))) eqn:E0;
    cbn [andb Nat.ltb Nat.leb max_retries Nat.sub].
  - rewrite retry_loop_step. cbv zeta. cbn [calls trace].
    destruct (rate_limited (decode_outcome (client (S (calls w)) req)))
      eqn:E1; cbn [andb Nat.ltb Nat.leb max_retries Nat.sub].
    + rewrite retry_loop_step. cbv zeta. cbn [calls trace].
      rewrite andb_false_r. cbn [fst snd].
      exists 3%nat. split; [lia|]. split; [|split; [lia|]].
      * intros [|[|k]] Hk; [| |lia].
        -- rewrite Nat.add_0_r. exact E0.
        -- rewrite Nat.add_1_r. exact E1.
      * cbn [Nat.sub attempt_events].
        replace (calls w + 2)%nat with (S (S (calls w))) by lia.
        replace (calls w + 3)%nat with (S (S (S (calls w)))) by lia.
        rewrite <- !app_assoc. reflexivity.
    + cbn [fst snd].
      exists 2%nat. split; [lia|]. split; [|split].
      * intros [|k] Hk; [|lia]. rewrite Nat.add_0_r. exact E0.
      * intros _. cbn [Nat.sub]. rewrite Nat.add_1_r. exact E1.
      * cbn [Nat.sub attempt_events].
        replace (calls w + 1)%nat with (S (calls w)) by lia.
        replace (calls w + 2)%nat with (S (S (calls w))) by lia.
        rewrite <- !app_assoc. reflexivity.
  - cbn [fst snd].
    exists 1%nat. split; [lia|]. split; [|split].
    + intros k Hk. lia.
    + intros _. cbn [Nat.sub]. rewrite Nat.add_0_r. exact E0.
    + cbn [Nat.sub attempt_events]. rewrite Nat.add_0_r.
      replace (calls w + 1)%nat with (S (calls w)) by lia.
      reflexivity.
Qed.

Lemma therapist_turns_cons (i : nat) (msg : Message) (todo : list Message) :
  therapist_turns_from i (msg :: todo)
  = if String.eqb (role msg) "user"
    then (i, msg) :: therapist_turns_from (S i) todo
    else therapist_turns_from (S i) todo.
Proof.
  unfold therapist_turns_from. cbn [length seq zip zip_with].
  rewrite filter_cons. cbn [snd].
  destruct (String.eqb (role msg) "user") eqn:E.
  - apply String.eqb_eq in E. rewrite decide_True by exact E. reflexivity.
  - apply String.eqb_neq in E. rewrite decide_False by exact E. reflexivity.
Qed.

Lemma therapist_turns_contents (todo : list Message) :
  forall i : nat,
    map (fun turn : nat * Message => content turn.2)
        (therapist_turns_from i todo)
    = map content (filter (fun m => role m = "user") todo).
Proof.
  induction todo as [|msg todo IH]; intros i; [reflexivity|].
  rewrite therapist_turns_cons, filter_cons.
  destruct (String.eqb (role msg) "user") eqn:E.
  - apply String.eqb_eq in E. rewrite decide_True by exact E.
    cbn [map snd]. rewrite IH. reflexivity.
  - apply String.eqb_neq in E. rewrite decide_False by exact E. apply IH.
Qed.

Lemma settled_by_messages (client : Client) (history : list Message)
      (turns : list (nat * Message)) :
  forall (first : nat) (attempts : list nat)
         (records : list ImprovementRecord),
    settled_by client history first turns attempts records ->
    map therapist_message records
    = map (fun turn : nat * Message => content turn.2) turns.
Proof.
  induction turns as [|turn turns IH];
    intros first [|n attempts] [|record records]; cbn [settled_by];
    try contradiction; [reflexivity|].
  cbv zeta. intros (_ & _ & _ & -> & Hrest).
  cbn [map]. rewrite record_of_message, (IH _ _ _ Hrest). reflexivity.
Qed.

(** The loop over a history whose entries carry both keys, with a client:
    it never raises; it appends one record for each therapist message
    still to visit, each settled by its own attempts; and it makes those
    attempts and the pauses, nothing else. *)
Lemma analyze_entries_complete (client : Client) (entries : list Entry) :
  Forall complete entries ->
  forall (todo : list Entry) (i : nat) (improvements : list ImprovementRecord)
         (w : World),
    Forall complete todo ->
    exists (records : list ImprovementRecord) (attempts : list nat),
      analyze_entries (Some client) entries i todo improvements w
      = (Ok (improvements ++ records),
         {| calls := (calls w + sum_list attempts)%nat;
            trace :=
              trace w
              ++ concat (zip_with (turn_events (map message_of entries))
                                  attempts
                                  (therapist_turns_from
                                     i (map message_of todo))) |})
      /\ settled_by client (map message_of entries) (calls w)
                    (therapist_turns_from i (map message_of todo))
                    attempts records.
Proof.
  intros Hall todo.
  induction todo as [|msg todo IH]; intros i improvements w Htodo.
  - exists [], []. cbn. rewrite !app_nil_r, Nat.add_0_r.
    destruct w. split; [reflexivity|exact I].
  - apply Forall_cons in Htodo as [Hmsg Htodo].
    cbn [map]. rewrite therapist_turns_cons.
    cbn [analyze_entries].
    destruct Hmsg as [[r Hr] Hc] eqn:Emsg. clear Emsg.
    assert (Hrole : role (message_of msg) = r)
      by (unfold message_of; rewrite Hr; reflexivity).
    rewrite Hr, Hrole. cbn [entry_key].
    destruct (String.eqb r "user").
    + rewrite bind_run, analyze_entry_complete
        by first [exact Hall|exact Hmsg].
      cbv zeta. cbn [fst snd].
      destruct (analyze_utterance_settled client (map message_of entries) i
                  (message_of msg) w) as (n & Hn & Hbefore & Hlast & Hrun).
      rewrite Hrun. cbn [fst snd]. rewrite bind_run.
      set (record := record_of (message_of msg) _ _).
      set (pause := if (i <? length entries - 1)%nat then sleep (1 # 2)
                    else ret tt).
      set (w1 := {| calls := (calls w + n)%nat;
                    trace := trace w
                             ++ attempt_events
                                  (improvement_request
                                     (map message_of entries) i
                                     (message_of msg)) n |}).
      assert (Hpause :
                (pause w1).2
                = {| calls := (calls w + n)%nat;
                     trace := trace w
                              ++ turn_events (map message_of entries) n
                                             (i, message_of msg) |}).
      { unfold pause, turn_events, w1. cbn [fst snd].
        rewrite length_map.
        destruct (i <? length entries - 1)%nat; cbn.
        - rewrite <- app_assoc. reflexivity.
        - rewrite app_nil_r. reflexivity. }
      rewrite Hpause.
      destruct (IH (S i) (improvements ++ [record])
                   {| calls := (calls w + n)%nat;
                      trace := trace w
                               ++ turn_events (map message_of entries) n
                                              (i, message_of msg) |} Htodo)
        as (records & attempts & Hloop & Hsettled).
      exists (record :: records), (n :: attempts).
      rewrite Hloop. cbn [calls trace]. split.
      * rewrite <- !app_assoc.
        cbn [app zip_with concat sum_list sum_list_with id].
        rewrite Nat.add_assoc. reflexivity.
      * cbn [settled_by]. cbv zeta. cbn [fst snd].
        split; [exact Hn|]. split; [exact Hbefore|]. split; [exact Hlast|].
        split; [reflexivity|exact Hsettled].
    + apply (IH (S i) improvements w Htodo).
Qed.

(** C5 (as amended): for a chat history whose entries all carry [role]
    and [content], once the call for the main report has succeeded,
    [generate_report] returns the report and one record for each therapist
    message, in order, whatever the fate of the calls.  Each message is
    analysed on its own: it is sent to the provider between one and three
    times, a further time only after a rate-limit error, and the reply to
    its last call settles its record; the calls and waits made are those
    of the messages in turn, with half a second of pause after each
    message but the last entry.  A message whose last reply is a failure,
    or empty, gets a record with one of the three fallback texts and
    [needs_improvement] false, and the messages after it are analysed as
    if nothing had happened. *)
Theorem generate_report_isolates_failures (client : Client)
        (create_report_prompt : string -> string) (transcript : string)
        (chat_history : option (list Entry)) (w : World) (report : string) :
  let entries := default [] chat_history in
  let history := map message_of entries in
  let turns := therapist_turns history in
  let request := report_request create_report_prompt transcript in
  let run := generate_report (Some client) create_report_prompt transcript
                             chat_history w in
  Forall complete entries ->
  decode_outcome (client (calls w) request) = Ok report ->
  exists (improvements : list ImprovementRecord) (attempts : list nat),
    run.1 = Ok (report, improvements)
    /\ settled_by client history (S (calls w)) turns attempts improvements
    /\ run.2 = {| calls := (S (calls w) + sum_list attempts)%nat;
                  trace := trace w
                           ++ Invoked request
                              :: concat (zip_with (turn_events history)
                                                  attempts turns) |}
    /\ map therapist_message improvements
       = map content (filter (fun m => role m = "user") history)
    /\ (forall (msg : Message) (patient_response : string) (e : Exception),
          record_of msg patient_response (settled (Raise e))
          = {| therapist_message := content msg;
               patient_response := patient_response;
               improvement := fallback_for e;
               needs_improvement := false |}
          /\ fallback_for e ∈ fallback_texts)
    /\ (forall (msg : Message) (patient_response : string),
          record_of msg patient_response (settled (Ok EmptyString))
          = {| therapist_message := content msg;
               patient_response := patient_response;
               improvement :=
                 fallback_for (OtherException "Failed after all retries");
               needs_improvement := false |}).
Proof.
  cbv zeta. intros Hall Hreport.
  set (w1 := {| calls := S (calls w);
                trace := trace w
                         ++ [Invoked (report_request create_report_prompt
                                                     transcript)] |}).
  assert (Hcall : _invoke_bedrock_claude
                    (Some client)
                    (report_request create_report_prompt transcript) w
                  = (Ok report, w1)).
  { unfold _invoke_bedrock_claude, _invoke_bedrock_sync.
    rewrite bind_run. unfold invoke_model, ret. cbn [fst snd].
    rewrite Hreport. reflexivity. }
  unfold generate_report. rewrite !bind_run, !Hcall. cbn [fst snd].
  rewrite !bind_run.
  assert (Hloop :
            exists (records : list ImprovementRecord) (attempts : list nat),
              analyze_history (Some client) chat_history w1
              = (Ok records,
                 {| calls := (calls w1 + sum_list attempts)%nat;
                    trace :=
                      trace w1
                      ++ concat
                           (zip_with
                              (turn_events
                                 (map message_of (default [] chat_history)))
                              attempts
                              (therapist_turns
                                 (map message_of
                                      (default [] chat_history)))) |})
              /\ settled_by client (map message_of (default [] chat_history))
                            (calls w1)
                            (therapist_turns
                               (map message_of (default [] chat_history)))
                            attempts records).
  { destruct chat_history as [[|msg entries]|]; cbn [analyze_history default].
    - exists [], []. cbn. rewrite app_nil_r, Nat.add_0_r.
      split; [reflexivity|exact I].
    - apply (analyze_entries_complete client (msg :: entries) Hall
               (msg :: entries) 0 [] w1 Hall).
    - exists [], []. cbn. rewrite app_nil_r, Nat.add_0_r.
      split; [reflexivity|exact I]. }
  destruct Hloop as (records & attempts & Hrun & Hsettled).
  exists records, attempts. rewrite Hrun. cbn [fst snd ret].
  split; [reflexivity|]. split; [exact Hsettled|]. split; [|split; [|split]].
  - unfold w1. cbn [calls trace]. rewrite <- app_assoc. reflexivity.
  - rewrite (settled_by_messages _ _ _ _ _ _ Hsettled).
    apply therapist_turns_contents.
  - intros msg patient_response e. split; [reflexivity|].
    apply fallback_for_texts.
  - reflexivity.
Qed.

Module ReportSamples.

Import Samples.

(** C2, counterexample: the provider throttles twice and then answers
    with an empty text.  The third call succeeds, yet the record carries
    the fallback text, not the reply. *)
Lemma empty_reply_becomes_fallback :
  let client := throttled_twice EmptyString in
  let history := [mkMessage "user" "hello"] in
  let msg := mkMessage "user" "hello" in
  let req := improvement_request history 0 msg in
  let run := analyze_utterance (Some client) history 0 msg empty_world in
  (_invoke_bedrock_claude (Some client) req (mkWorld 2 [])).1
  = Ok EmptyString
  /\ trace run.2 = [Invoked req; Slept 1; Invoked req; Slept 2; Invoked req]
  /\ improvement run.1
     = fallback_for (OtherException "Failed after all retries")
  /\ improvement run.1 <> EmptyString.
Proof.
  cbv zeta. split; [reflexivity|split; [reflexivity|split; [reflexivity|]]].
  vm_compute. discriminate.
Qed.

(** Two rate-limit errors, then a reply: the reply is the analysis, after
    waits of 1 and 2 seconds. *)
Lemma utterance_retry_policy_witness :
  let client := throttled_twice "STATUS: GOOD" in
  let history := [mkMessage "user" "hello"] in
  let msg := mkMessage "user" "hello" in
  let req := improvement_request history 0 msg in
  rate_limited (decode_outcome (client 0%nat req)) = true
  /\ rate_limited (decode_outcome (client 1%nat req)) = true
  /\ analyze_utterance (Some client) history 0 msg empty_world
     = (record_of msg EmptyString (Ok "STATUS: GOOD"),
        {| calls := 3;
           trace := [Invoked req; Slept 1; Invoked req; Slept 2;
                     Invoked req] |}).
Proof.
  cbv zeta. split; [reflexivity|split; [reflexivity|]].
  exact (proj1 (proj2 (proj2
           (utterance_retry_policy
              (throttled_twice "STATUS: GOOD")
              [mkMessage "user" "hello"] 0 (mkMessage "user" "hello")
              empty_world)))
           eq_refl eq_refl).
Defined.

(** C5, counterexample: three therapist messages, the second of which
    lacks its content.  The main report succeeds and the first message is
    analysed; then the second raises [KeyError] inside the [try] block and
    again inside the handler, and the request fails: no record is
    returned, neither for the first message nor for the third. *)
Lemma incomplete_entry_aborts_report :
  let client : Client := fun _ _ => Responded [text_block "STATUS: GOOD"] in
  let run := generate_report (Some client) (fun t => t) "hello"
                             (Some broken_entries) empty_world in
  map entry_role broken_entries = [Some "user"; Some "user"; Some "user"]
  /\ (_invoke_bedrock_claude (Some client) (report_request (fun t => t) "hello")
                            empty_world).1 = Ok "STATUS: GOOD"
  /\ run.1 = Raise (OtherException "'content'")
  /\ trace run.2
     = [ Invoked (report_request (fun t => t) "hello");
         Invoked (improvement_request [mkMessage "user" "one"] 0
                                      (mkMessage "user" "one"));
         Slept (1 # 2) ].
Proof.
  cbv zeta. split; [reflexivity|]. split; [reflexivity|].
  split; reflexivity.
Qed.

(** Five utterances, the third of which the provider always rejects with
    an error that is not a rate limit. *)
Lemma generate_report_isolates_failures_witness :
  let client := rejects "three" in
  let run := generate_report (Some client) (fun t => t) "hello"
                             (Some five_entries) empty_world in
  Forall complete five_entries
  /\ decode_outcome (client 0%nat (report_request (fun t => t) "hello"))
     = Ok "STATUS: GOOD"
  /\ exists (improvements : list ImprovementRecord) (attempts : list nat),
      run.1 = Ok ("STATUS: GOOD", improvements)
      /\ settled_by client five_utterances 1 (therapist_turns five_utterances)
                    attempts improvements.
Proof.
  cbv zeta.
  assert (H1 : Forall complete five_entries)
    by (repeat constructor; eexists; reflexivity).
  assert (H2 : decode_outcome
                 (rejects "three" 0%nat (report_request (fun t => t) "hello"))
               = Ok "STATUS: GOOD") by reflexivity.
  split; [exact H1|]. split; [exact H2|].
  destruct (generate_report_isolates_failures
              (rejects "three") (fun t => t) "hello" (Some five_entries)
              empty_world "STATUS: GOOD" H1 H2)
    as (improvements & attempts & Hrun & Hsettled & _).
  exists improvements, attempts. split; [exact Hrun|exact Hsettled].
Defined.

(** The same request, run: five records, the third one with the
    fallback text and [needs_improvement] false, the others with the
    provider's reply; six calls in all, one for the report and one for
    each message. *)
Example five_utterances_five_records :
  let run := generate_report (Some (rejects "three")) (fun t => t) "hello"
                             (Some five_entries) empty_world in
  exists improvements : list ImprovementRecord,
    run.1 = Ok ("STATUS: GOOD", improvements)
    /\ map therapist_message improvements
       = ["one"; "two"; "three"; "four"; "five"]
    /\ map needs_improvement improvements
       = [false; false; false; false; false]
    /\ map improvement improvements
       = [ "STATUS: GOOD"; "STATUS: GOOD";
           (fallback_opening
            ++ "Please refer to the overall evaluation above for guidance on this exchange.")%string;
           "STATUS: GOOD"; "STATUS: GOOD" ]
    /\ calls run.2 = 6%nat.
Proof.
  cbv zeta. eexists. split; [vm_compute; reflexivity|].
  repeat split; vm_compute; reflexivity.
Qed.

End ReportSamples.

(** * The user table *)

Section UserTableFacts.

Variable hash_password : string -> string.

Lemma getitem_email (r : list string) :
  length r = 4%nat ->
  getitem (dict_of FIELDNAMES r) "email" = Ok (r !! 0%nat).
Proof.
  destruct r as [|a [|b [|c [|d [|]]]]]; try discriminate. reflexivity.
Qed.

Lemma getitem_password_hash (r : list string) :
  length r = 4%nat ->
  getitem (dict_of FIELDNAMES r) "password_hash" = Ok (r !! 1%nat).
Proof.
  destruct r as [|a [|b [|c [|d [|]]]]]; try discriminate. reflexivity.
Qed.

(** A record of four fields is written back as it was read. *)
Lemma dict_to_list_round_trip (r : list string) :
  length r = 4%nat -> _dict_to_list (dict_of FIELDNAMES r) = Ok r.
Proof.
  destruct r as [|a [|b [|c [|d [|]]]]]; try discriminate. reflexivity.
Qed.

Lemma email_of_record (r : list string) :
  length r = 4%nat -> r !! 0%nat = Some (default EmptyString (head r)).
Proof. destruct r; [discriminate|reflexivity]. Qed.

Lemma oversize_app (r1 r2 : list string) :
  oversize (r1 ++ r2) = oversize r1 || oversize r2.
Proof. apply existsb_app. Qed.

(** The rows of a table: one for each record, and no error. *)
Lemma read_rows_table (records : list (list string)) :
  Forall table_record records ->
  read_rows FIELDNAMES records
  = map (fun r => Ok (dict_of FIELDNAMES r)) records.
Proof.
  induction 1 as [|r records [Hr Hsize] Hall IH]; [reflexivity|].
  cbn [read_rows map]. rewrite Hsize, IH.
  destruct (decide (r = [])) as [->|_]; [discriminate Hr|reflexivity].
Qed.

Lemma DictReader_table (records : list (list string)) :
  Forall table_record records ->
  DictReader (FIELDNAMES :: records)
  = map (fun r => Ok (dict_of FIELDNAMES r)) records.
Proof. intros Hall. unfold DictReader. cbn. apply read_rows_table, Hall. Qed.

(** The rows of a table followed by records of which the first is
    oversize: the rows of the table, then the error of the reader. *)
Lemma DictReader_oversize (records : list (list string)) (big : list string)
      (rest : list (list string)) :
  Forall table_record records ->
  oversize big = true ->
  DictReader (FIELDNAMES :: records ++ big :: rest)
  = map (fun r => Ok (dict_of FIELDNAMES r)) records ++ [Raise CsvError].
Proof.
  intros Hall Hbig. unfold DictReader.
  change (oversize FIELDNAMES) with false. cbv iota.
  induction Hall as [|r records [Hr Hsize] Hall IH].
  - cbn [app read_rows map]. rewrite Hbig. reflexivity.
  - cbn [app read_rows map]. rewrite Hsize, IH.
    destruct (decide (r = [])) as [->|_]; [discriminate Hr|reflexivity].
Qed.

Lemma exists_rows_table (email : string) (records : list (list string))
      (tail_rows : list (result ReadError DictRow)) :
  Forall table_record records ->
  exists_rows email (map (fun r => Ok (dict_of FIELDNAMES r)) records
                     ++ tail_rows)
  = if bool_decide (email ∈ emails_of (FIELDNAMES :: records)) then Ok true
    else exists_rows email tail_rows.
Proof.
  unfold emails_of. cbn [tail].
  induction 1 as [|r records [Hr Hsize] Hall IH]; [reflexivity|].
  cbn [map app exists_rows]. rewrite getitem_email, email_of_record by exact Hr.
  destruct (decide (Some (default EmptyString (head r)) = Some email))
    as [[= E]|E].
  - rewrite bool_decide_eq_true_2; [reflexivity|]. rewrite E. left.
  - rewrite IH.
    rewrite (bool_decide_ext (email ∈ _ :: _)
                             (email ∈ map (fun r => default EmptyString (head r))
                                          records)); [reflexivity|].
    rewrite elem_of_cons.
    split; [|auto]. intros [->|H]; [congruence|exact H].
Qed.

Lemma verify_rows_table (email h : string) (records : list (list string))
      (tail_rows : list (result ReadError DictRow)) :
  Forall table_record records ->
  verify_rows email h (map (fun r => Ok (dict_of FIELDNAMES r)) records
                       ++ tail_rows)
  = if bool_decide (credentials_in records email h) then Ok true
    else verify_rows email h tail_rows.
Proof.
  unfold credentials_in.
  induction 1 as [|r records [Hr Hsize] Hall IH].
  - cbn [map app]. rewrite bool_decide_eq_false_2; [reflexivity|].
    intros H. inversion H.
  - cbn [map app verify_rows].
    rewrite getitem_email, getitem_password_hash by exact Hr.
    destruct (decide (r !! 0%nat = Some email)) as [E|E].
    + destruct (decide (r !! 1%nat = Some h)) as [E'|E'].
      * rewrite bool_decide_eq_true_2; [reflexivity|]. left. auto.
      * rewrite IH.
        rewrite (bool_decide_ext (Exists _ (r :: records))
                   (Exists (fun r => r !! 0%nat = Some email
                                     /\ r !! 1%nat = Some h) records));
          [reflexivity|].
        rewrite Exists_cons. tauto.
    + rewrite IH.
      rewrite (bool_decide_ext (Exists _ (r :: records))
                 (Exists (fun r => r !! 0%nat = Some email
                                   /\ r !! 1%nat = Some h) records));
        [reflexivity|].
      rewrite Exists_cons. tauto.
Qed.

Lemma user_exists_table (f : CsvFile) (email : string) :
  users_table f ->
  user_exists (Some f) email = Ok (bool_decide (email ∈ emails_of f)).
Proof.
  intros (records & -> & Hall). unfold user_exists.
  rewrite DictReader_table by exact Hall.
  rewrite <- (app_nil_r (map _ records)), exists_rows_table by exact Hall.
  destruct (bool_decide _); reflexivity.
Qed.

Lemma verify_user_table (f : CsvFile) (email password : string) :
  users_table f ->
  verify_user hash_password (Some f) email password
  = Ok (bool_decide (credentials_in (tail f) email (hash_password password))).
Proof.
  intros (records & -> & Hall). unfold verify_user.
  rewrite DictReader_table by exact Hall.
  rewrite <- (app_nil_r (map _ records)), verify_rows_table by exact Hall.
  cbn [tail]. destruct (bool_decide _); reflexivity.
Qed.

Lemma table_record_new (email h full_name now : string) :
  oversize [email; h; full_name; now] = false ->
  table_record [email; h; full_name; now].
Proof. intros H. split; [reflexivity|exact H]. Qed.

Lemma users_table_snoc (f : CsvFile) (r : list string) :
  users_table f -> table_record r -> users_table (f ++ [r]).
Proof.
  intros (records & -> & Hall) Hr. exists (records ++ [r]).
  split; [reflexivity|]. apply Forall_app. auto.
Qed.

Lemma emails_of_snoc (f : CsvFile) (r : list string) :
  users_table f ->
  emails_of (f ++ [r]) = emails_of f ++ [default EmptyString (head r)].
Proof.
  intros (records & -> & _). unfold emails_of. cbn [tail app].
  rewrite map_app. reflexivity.
Qed.

(** Creating a user whose email is free writes the record, whatever the
    size of its fields. *)
Lemma create_user_appends (f : CsvFile)
      (email password full_name now : string) :
  users_table f ->
  email ∉ emails_of f ->
  create_user hash_password (Some f) email password full_name now
  = (Ok true,
     Some (f ++ [[email; hash_password password; full_name; now]])).
Proof.
  intros Htab Hnew. unfold create_user.
  rewrite user_exists_table by exact Htab.
  rewrite bool_decide_eq_false_2 by exact Hnew. reflexivity.
Qed.

(** Creating a user whose email is free, with fields that the reader
    accepts: the outcome, the new table and the check of the new
    credentials. *)
Lemma create_user_then_verify_aux (f : CsvFile)
        (email password full_name now : string) :
  users_table f ->
  email ∉ emails_of f ->
  oversize [email; hash_password password; full_name; now] = false ->
  let created := create_user hash_password (Some f) email password
                             full_name now in
  let f' := f ++ [[email; hash_password password; full_name; now]] in
  created = (Ok true, Some f')
  /\ users_table f'
  /\ emails_of f' = emails_of f ++ [email]
  /\ verify_user hash_password (Some f') email password = Ok true.
Proof.
  intros Htab Hnew Hsize. cbv zeta.
  assert (Htab' : users_table
                    (f ++ [[email; hash_password password; full_name; now]]))
    by (apply users_table_snoc; [exact Htab|apply table_record_new, Hsize]).
  split; [|split; [exact Htab'|split]].
  - apply create_user_appends; assumption.
  - rewrite emails_of_snoc by exact Htab. reflexivity.
  - rewrite verify_user_table by exact Htab'.
    f_equal. apply bool_decide_eq_true.
    destruct Htab as (records & -> & _). cbn [tail app].
    apply Exists_app. right. left. auto.
Qed.

(** X1: on a table as the program writes it, creating a user whose email
    is not taken, with fields within the reader's limit of 131072
    characters, succeeds, appends one record and keeps the shape of the
    table; the new user verifies with the password given, and every other
    email verifies exactly as before. *)
Theorem create_user_then_verify (f : CsvFile)
        (email password full_name now : string) :
  users_table f ->
  email ∉ emails_of f ->
  oversize [email; hash_password password; full_name; now] = false ->
  let created := create_user hash_password (Some f) email password
                             full_name now in
  let f' := f ++ [[email; hash_password password; full_name; now]] in
  created = (Ok true, Some f')
  /\ users_table f'
  /\ emails_of f' = emails_of f ++ [email]
  /\ verify_user hash_password (Some f') email password = Ok true
  /\ (forall other password' : string,
        other <> email ->
        verify_user hash_password (Some f') other password'
        = verify_user hash_password (Some f) other password').
Proof.
  intros Htab Hnew Hsize. cbv zeta.
  destruct (create_user_then_verify_aux f email password full_name now
              Htab Hnew Hsize) as (Hrun & Htab' & Hemails & Hverify).
  repeat split; try assumption.
  intros other password' Hother.
  rewrite !verify_user_table by assumption. f_equal.
  apply bool_decide_ext.
  destruct Htab as (records & -> & _). cbn [tail app].
  unfold credentials_in. rewrite Exists_app, Exists_cons, Exists_nil.
  cbn. split; [|auto].
  intros [H|[[[= E] _]|[]]]; [exact H|congruence].
Qed.


(** X3: whoever verifies exists: on any file, also one of another shape, a
    successful [verify_user] means that [user_exists] succeeds for the same
    email. *)
Theorem verify_user_implies_exists (file : option CsvFile)
        (email password : string) :
  verify_user hash_password file email password = Ok true ->
  user_exists file email = Ok true.
Proof.
  destruct file as [f|]; [|discriminate].
  unfold verify_user, user_exists.
  induction (DictReader f) as [|[row|err] rows IH]; try discriminate.
  cbn [verify_rows exists_rows].
  destruct (getitem row "email") as [e|err]; [|discriminate].
  destruct (decide (e = Some email)); [reflexivity|exact IH].
Qed.

Lemma scan_rows_table (email : string) (records : list (list string)) :
  Forall table_record records ->
  forall (users : list DictRow) (deleted : bool),
    scan_rows email (map (fun r => Ok (dict_of FIELDNAMES r)) records)
              users deleted
    = Ok (users
          ++ map (dict_of FIELDNAMES)
                 (filter (fun r => r !! 0%nat <> Some email) records),
          deleted
          || bool_decide (email ∈ emails_of (FIELDNAMES :: records))).
Proof.
  clear hash_password.
  unfold emails_of. cbn [tail].
  induction 1 as [|r records [Hr Hsize] Hall IH]; intros users deleted.
  - cbn. rewrite app_nil_r, orb_false_r. reflexivity.
  - cbn [map scan_rows]. rewrite getitem_email by exact Hr.
    rewrite filter_cons.
    destruct (decide (r !! 0%nat = Some email)) as [E|E].
    + rewrite decide_False by tauto. rewrite IH. cbn [orb].
      rewrite (bool_decide_eq_true_2 (email ∈ _ :: _)), orb_true_r;
        [reflexivity|].
      rewrite email_of_record in E by exact Hr. injection E as <-. left.
    + rewrite decide_True by exact E. rewrite IH, <- app_assoc.
      cbn [app map].
      rewrite (bool_decide_ext (email ∈ _ :: _) (email ∈ map
                 (fun r => default EmptyString (head r)) records));
        [reflexivity|].
      rewrite elem_of_cons.
      split; [|auto]. intros [->|H]; [|exact H].
      rewrite email_of_record in E by exact Hr. congruence.
Qed.

Lemma writerows_table (records : list (list string)) :
  Forall table_record records ->
  forall written : CsvFile,
    writerows (map (dict_of FIELDNAMES) records) written
    = (Ok tt, written ++ records).
Proof.
  induction 1 as [|r records [Hr Hsize] Hall IH]; intros written.
  - cbn. rewrite app_nil_r. reflexivity.
  - cbn [map writerows]. rewrite dict_to_list_round_trip by exact Hr.
    rewrite IH, <- app_assoc. reflexivity.
Qed.

Lemma filter_other_emails (email : string) (records : list (list string)) :
  Forall table_record records ->
  emails_of (FIELDNAMES
             :: filter (fun r => r !! 0%nat <> Some email) records)
  = filter (fun e => e <> email) (emails_of (FIELDNAMES :: records)).
Proof.
  clear hash_password.
  unfold emails_of. cbn [tail].
  induction 1 as [|r records [Hr Hsize] Hall IH]; [reflexivity|].
  cbn [map]. rewrite !filter_cons, <- IH.
  rewrite email_of_record by exact Hr.
  destruct (decide (default EmptyString (head r) = email)) as [E|E].
  - rewrite decide_False by (rewrite E; tauto).
    rewrite decide_False by tauto. reflexivity.
  - rewrite decide_True by congruence.
    rewrite decide_True by exact E. reflexivity.
Qed.

Lemma filter_absent_email (email : string) (records : list (list string)) :
  Forall table_record records ->
  email ∉ emails_of (FIELDNAMES :: records) ->
  filter (fun r => r !! 0%nat <> Some email) records = records.
Proof.
  unfold emails_of. cbn [tail].
  induction 1 as [|r records [Hr Hsize] Hall IH]; [reflexivity|].
  cbn [map]. rewrite not_elem_of_cons. intros [Hne Hnot].
  rewrite filter_cons, decide_True, IH by
    (try exact Hnot; rewrite email_of_record by exact Hr; congruence).
  reflexivity.
Qed.

Lemma kept_records_shape (email : string) (records : list (list string)) :
  Forall table_record records ->
  Forall table_record (filter (fun r => r !! 0%nat <> Some email) records).
Proof.
  induction 1 as [|r rs Hr _ IH]; [constructor|].
  rewrite filter_cons. destruct (decide _); [constructor|]; auto.
Qed.

(** What [delete_user] returns and leaves on a table. *)
Lemma delete_user_table (f : CsvFile) (email : string) :
  users_table f ->
  delete_user (Some f) email
  = (Ok (bool_decide (email ∈ emails_of f)),
     Some (FIELDNAMES
           :: filter (fun r => r !! 0%nat <> Some email) (tail f))).
Proof.
  intros (records & -> & Hall). cbn [tail].
  unfold delete_user. rewrite DictReader_table by exact Hall.
  rewrite scan_rows_table by exact Hall. cbn [orb app].
  destruct (bool_decide (email ∈ emails_of (FIELDNAMES :: records))) eqn:E.
  - rewrite writerows_table by (apply kept_records_shape, Hall). reflexivity.
  - apply bool_decide_eq_false in E.
    rewrite filter_absent_email by assumption. reflexivity.
Qed.

(** X4: on a table as the program writes it, with fields within the
    reader's limit, [delete_user] never raises;
    it returns whether the email was there; afterwards the table is in
    shape, holds the other emails in their order and no longer the deleted
    one, and every other email verifies exactly as before. *)
Theorem delete_user_removes (f : CsvFile) (email : string) :
  users_table f ->
  let deleted := delete_user (Some f) email in
  deleted.1 = Ok (bool_decide (email ∈ emails_of f))
  /\ exists f' : CsvFile,
      deleted.2 = Some f'
      /\ users_table f'
      /\ emails_of f' = filter (fun e => e <> email) (emails_of f)
      /\ user_exists (Some f') email = Ok false
      /\ (forall other password : string,
            other <> email ->
            verify_user hash_password (Some f') other password
            = verify_user hash_password (Some f) other password).
Proof.
  intros Htab. cbv zeta. rewrite delete_user_table by exact Htab.
  destruct Htab as (records & -> & Hall). cbn [tail fst snd].
  set (kept := filter (fun r => r !! 0%nat <> Some email) records).
  assert (Hkept : Forall table_record kept)
    by (apply kept_records_shape, Hall).
  split; [reflexivity|].
  assert (Htab' : users_table (FIELDNAMES :: kept))
    by (exists kept; auto).
  exists (FIELDNAMES :: kept). split; [reflexivity|].
  split; [exact Htab'|]. split; [apply filter_other_emails, Hall|]. split.
  - rewrite user_exists_table by exact Htab'.
    rewrite bool_decide_eq_false_2; [reflexivity|].
    unfold kept. rewrite filter_other_emails by exact Hall.
    rewrite list_elem_of_filter. tauto.
  - intros other password Hother.
    rewrite !verify_user_table by (try exact Htab'; exists records; auto).
    f_equal. apply bool_decide_ext. cbn [tail]. unfold credentials_in, kept.
    rewrite !Exists_exists. split.
    + intros (r & Hin & Hr). apply list_elem_of_filter in Hin as [_ Hin].
      eauto.
    + intros (r & Hin & H0 & H1). exists r. split; [|auto].
      apply list_elem_of_filter. split; [congruence|exact Hin].
Qed.

(** X5: the role of [init_user_db].  A user created while the file is
    missing is written as the first record of a new file, which readers
    take for the header: the call returns [True], yet the user neither
    exists nor verifies.  After [init_user_db] the same call creates a
    user who verifies.  The fields are within the reader's limit. *)
Theorem create_user_without_header (email password full_name now : string) :
  oversize [email; hash_password password; full_name; now] = false ->
  let bare := create_user hash_password None email password full_name now in
  let initialised :=
    create_user hash_password (init_user_db None) email password
                full_name now in
  bare.1 = Ok true
  /\ bare.2 = Some [[email; hash_password password; full_name; now]]
  /\ user_exists bare.2 email = Ok false
  /\ verify_user hash_password bare.2 email password = Ok false
  /\ initialised.1 = Ok true
  /\ user_exists initialised.2 email = Ok true
  /\ verify_user hash_password initialised.2 email password = Ok true.
Proof.
  intros Hsize. cbv zeta. split; [reflexivity|]. split; [reflexivity|].
  cbn [create_user user_exists verify_user snd default app DictReader
       read_rows].
  rewrite Hsize. split; [reflexivity|]. split; [reflexivity|].
  assert (Htab : users_table [FIELDNAMES]) by (exists []; auto).
  destruct (create_user_then_verify_aux [FIELDNAMES] email password full_name
              now Htab) as (Hrun & Htab' & Hemails & Hverify);
    [unfold emails_of; cbn; apply not_elem_of_nil|exact Hsize|].
  cbn [init_user_db]. rewrite Hrun. cbn [fst snd].
  split; [reflexivity|]. split; [|exact Hverify].
  rewrite user_exists_table by exact Htab'.
  rewrite bool_decide_eq_true_2; [reflexivity|].
  rewrite Hemails. apply elem_of_app. right. left.
Qed.

End UserTableFacts.

(** * Sessions *)

(** The token of a new session verifies to its subject while less than 24
    hours have passed. *)
Lemma session_round_trip_aux (store : Store) (subject : string) (t0 t : Q)
      (session_token : string) :
  session_token <> EmptyString ->
  let created := create_session store subject t0 session_token in
  created.1 = session_token
  /\ ((t - t0 < TTL)%Q ->
      (verify_session created.2 (Some session_token) t).1 = Some subject).
Proof.
  intros Htok. apply truthy_nonempty in Htok.
  destruct store as [db|active_sessions]; cbn [create_session fst snd];
    (split; [reflexivity|]); intros H; unfold verify_session;
    rewrite Htok; cbn [negb].
  - rewrite redis_get_setex.
    assert (E1 : ltb (t0 + TTL) t = false) by (apply ltb_ge; lra).
    assert (E2 : ltb TTL (t - t0) = false) by (apply ltb_ge; lra).
    rewrite E1. cbn [created_at email]. rewrite E2. reflexivity.
  - rewrite lookup_insert_eq. cbn [created_at email].
    assert (E2 : ltb TTL (t - t0) = false) by (apply ltb_ge; lra).
    rewrite E2. reflexivity.
Qed.

(** * Sign-up, login and the current user *)

Section AuthFacts.

Variable hash_password : string -> string.

(** X6: sign-up never answers 500: once [user_exists] has said no,
    [create_user] cannot refuse.  And a sign-up that fails leaves the file
    as it was. *)
Theorem signup_never_fails_to_create (file : option CsvFile)
        (email password full_name now : string) :
  let answer := signup hash_password file email password full_name now in
  answer.1 <> Raise (HTTPException 500 "Failed to create account")
  /\ (forall e : Exception, answer.1 = Raise e -> answer.2 = file).
Proof.
  cbv zeta. unfold signup, create_user.
  destruct (user_exists file email) as [[|]|err] eqn:E; cbn [fst snd].
  - split; [discriminate|reflexivity].
  - split; [discriminate|]. intros e H. discriminate H.
  - split; [destruct err; discriminate|reflexivity].
Qed.

(** X7: from sign-up to the protected page.  On a table as the program
    writes it, a new non-empty email signs up, with fields within the
    reader's limit; logging in with the same password then sets a cookie
    that [get_current_user] resolves to the email for less than 24 hours,
    while a password with another hash is refused with 401 and creates no
    session. *)
Theorem signup_login_round_trip (f : CsvFile) (store : Store)
        (email password full_name now : string) (t0 t : Q)
        (session_token : string) :
  users_table f ->
  email ∉ emails_of f ->
  oversize [email; hash_password password; full_name; now] = false ->
  email <> EmptyString ->
  session_token <> EmptyString ->
  let signed := signup hash_password (Some f) email password full_name now in
  let logged := login hash_password signed.2 store email password t0
                      session_token in
  signed.1 = Ok "Account created successfully"
  /\ logged.1 = Ok session_token
  /\ ((t - t0 < TTL)%Q ->
      (get_current_user logged.2 (Some session_token) t).1 = Ok email)
  /\ (forall wrong : string,
        hash_password wrong <> hash_password password ->
        login hash_password signed.2 store email wrong t0 session_token
        = (Raise (HTTPException 401 "Invalid credentials"), store)).
Proof.
  intros Htab Hnew Hsize Hemail Htok. cbv zeta.
  destruct (create_user_then_verify_aux hash_password f email password
              full_name now Htab Hnew Hsize)
    as (Hrun & Htab' & Hemails & Hverify).
  assert (Hsigned :
            signup hash_password (Some f) email password full_name now
            = (Ok "Account created successfully",
               Some (f ++ [[email; hash_password password; full_name; now]]))).
  { unfold signup. rewrite user_exists_table by exact Htab.
    rewrite bool_decide_eq_false_2 by exact Hnew. rewrite Hrun. reflexivity. }
  rewrite Hsigned. cbn [fst snd]. split; [reflexivity|].
  unfold login at 1 2. rewrite Hverify.
  destruct (session_round_trip_aux store email t0 t session_token Htok)
    as (Hcreated & Hlive).
  destruct (create_session store email t0 session_token) as [token store']
    eqn:Ecreate.
  cbn [fst snd] in *. subst token. split; [reflexivity|]. split.
  - intros Ht. unfold get_current_user.
    specialize (Hlive Ht).
    destruct (verify_session store' (Some session_token) t) as [user store''].
    cbn [fst] in Hlive. subst user.
    rewrite truthy_nonempty by exact Hemail. reflexivity.
  - intros wrong Hwrong. unfold login.
    rewrite verify_user_table by exact Htab'.
    rewrite bool_decide_eq_false_2; [reflexivity|].
    destruct Htab as (records & -> & Hall). cbn [tail app].
    unfold credentials_in. rewrite Exists_app, Exists_cons, Exists_nil.
    cbn. intros [H|[[_ [= E]]|[]]]; [|congruence].
    apply Hnew. apply Exists_exists in H as (r & Hin & H0 & _).
    unfold emails_of. cbn [tail]. apply list_elem_of_fmap.
    exists r. split; [|exact Hin].
    destruct r; [discriminate H0|]. cbn in *. congruence.
Qed.

End AuthFacts.

(** X8: a session made for the empty email never authenticates:
    [get_current_user] answers 401 for its token at any time, on either
    backend. *)
Theorem empty_email_never_authenticates (store : Store) (t0 t : Q)
        (session_token : string) :
  (get_current_user (create_session store EmptyString t0 session_token).2
                    (Some session_token) t).1
  = Raise (HTTPException 401 "Not authenticated").
Proof.
  unfold get_current_user, verify_session.
  destruct (truthy session_token); cbn [negb]; [|destruct store; reflexivity].
  destruct store as [db|active_sessions]; cbn [create_session snd].
  - rewrite redis_get_setex.
    destruct (ltb (t0 + TTL) t); [reflexivity|].
    cbn [created_at email].
    destruct (ltb TTL (t - t0)); reflexivity.
  - rewrite lookup_insert_eq. cbn [created_at email].
    destruct (ltb TTL (t - t0)); reflexivity.
Qed.

(** * More on sessions *)

Lemma redis_get_insert_ne (db : gmap string (RedisValue * Q))
      (key other : string) (v : RedisValue * Q) (now : Q) :
  key <> other -> redis_get (<[key := v]> db) other now = redis_get db other now.
Proof. intros H. unfold redis_get. rewrite lookup_insert_ne by exact H. reflexivity. Qed.

Lemma redis_get_delete_ne (db : gmap string (RedisValue * Q))
      (key other : string) (now : Q) :
  key <> other -> redis_get (delete key db) other now = redis_get db other now.
Proof. intros H. unfold redis_get. rewrite lookup_delete_ne by exact H. reflexivity. Qed.

(** X9: sessions do not interfere: creating a session, or logging one out,
    changes nothing in what another token verifies to, on either
    backend. *)
Theorem sessions_are_independent (store : Store) (subject : string)
        (t0 t : Q) (session_token other : string) :
  session_token <> other ->
  (verify_session (create_session store subject t0 session_token).2
                  (Some other) t).1
  = (verify_session store (Some other) t).1
  /\ (verify_session (logout store (Some session_token)) (Some other) t).1
     = (verify_session store (Some other) t).1.
Proof.
  intros Hne. unfold verify_session, logout.
  destruct (truthy other); cbn [negb];
    [|split; [destruct store|destruct store, (truthy session_token)];
      try destruct (_ !! _); reflexivity].
  destruct store as [db|active_sessions]; cbn [create_session snd].
  - rewrite redis_get_insert_ne by exact Hne. split.
    + destruct (redis_get db other t) as [[session|created|s]|];
        try reflexivity.
      * destruct (ltb TTL (t - created_at session)); reflexivity.
      * destruct (ltb TTL (t - created)); reflexivity.
    + destruct (truthy session_token);
        rewrite ?redis_get_delete_ne by exact Hne;
        destruct (redis_get db other t) as [[session|created|s]|];
        try reflexivity;
        first [destruct (ltb TTL (t - created_at session))
              |destruct (ltb TTL (t - created))]; reflexivity.
  - rewrite lookup_insert_ne by exact Hne. split.
    + destruct (active_sessions !! other) as [session|]; [|reflexivity].
      destruct (ltb TTL (t - created_at session)); reflexivity.
    + destruct (active_sessions !! session_token);
        rewrite ?lookup_delete_ne by exact Hne;
        (destruct (active_sessions !! other) as [session|]; [|reflexivity]);
        destruct (ltb TTL (t - created_at session)); reflexivity.
Qed.

Lemma ltb_later (x t t' : Q) : ltb x t = true -> (t <= t')%Q -> ltb x t' = true.
Proof. rewrite !ltb_lt. intros. lra. Qed.

(** X10: a refusal is final: once [verify_session] has answered nothing
    for a token, it answers nothing for it at every later time, on the
    store it left behind. *)
Theorem verify_session_refusal_is_final (store : Store)
        (session_token : option string) (t t' : Q) :
  (verify_session store session_token t).1 = None ->
  (t <= t')%Q ->
  (verify_session (verify_session store session_token t).2 session_token t').1
  = None.
Proof.
  intros Hnone Hlater. unfold verify_session in *.
  destruct session_token as [tok|]; [|reflexivity].
  destruct (truthy tok); cbn [negb] in *; [|reflexivity].
  destruct store as [db|active_sessions].
  - assert (Hsame : forall v : RedisValue,
               redis_get db tok t = Some v ->
               redis_get db tok t' = Some v \/ redis_get db tok t' = None).
    { intros v. unfold redis_get.
      destruct (db !! tok) as [[v0 expires_at]|]; [|discriminate].
      destruct (ltb expires_at t); [discriminate|]. intros [= ->].
      destruct (ltb expires_at t'); auto. }
    assert (Hgone : redis_get db tok t = None -> redis_get db tok t' = None).
    { unfold redis_get.
      destruct (db !! tok) as [[v0 expires_at]|]; [|reflexivity].
      destruct (ltb expires_at t) eqn:E1; [|discriminate].
      rewrite (ltb_later _ _ _ E1 Hlater). reflexivity. }
    destruct (redis_get db tok t) as [[session|created|s]|] eqn:Eget;
      cbn [fst snd].
    + destruct (ltb TTL (t - created_at session)) eqn:E; [|discriminate].
      cbn [fst snd]. rewrite redis_get_delete. reflexivity.
    + destruct (ltb TTL (t - created)) eqn:E; cbn [fst snd].
      * rewrite redis_get_delete. reflexivity.
      * destruct (Hsame _ eq_refl) as [-> | ->]; [|reflexivity].
        destruct (ltb TTL (t' - created)); reflexivity.
    + destruct (Hsame _ eq_refl) as [-> | ->]; reflexivity.
    + rewrite (Hgone eq_refl). reflexivity.
  - destruct (active_sessions !! tok) as [session|] eqn:Eget; cbn [fst snd].
    + destruct (ltb TTL (t - created_at session)) eqn:E; [|discriminate].
      cbn [fst snd]. rewrite lookup_delete_eq. reflexivity.
    + rewrite Eget. reflexivity.
Qed.

(** X11: logging out is idempotent, and logging out a token that the
    store does not hold changes nothing. *)
Theorem logout_idempotent (store : Store) (session_token : option string) :
  logout (logout store session_token) session_token
  = logout store session_token
  /\ ((forall tok : string,
         session_token = Some tok -> ~ store_has store tok) ->
      logout store session_token = store).
Proof.
  unfold logout, store_has.
  destruct store as [db|active_sessions], session_token as [tok|];
    try (split; reflexivity).
  - destruct (truthy tok) eqn:E; [|split; reflexivity].
    rewrite delete_delete_eq. split; [reflexivity|].
    intros H. rewrite delete_id; [reflexivity|].
    apply eq_None_not_Some. auto.
  - destruct (active_sessions !! tok) eqn:E.
    + rewrite lookup_delete_eq. split; [reflexivity|].
      intros H. exfalso. apply (H tok eq_refl). rewrite E. eauto.
    + rewrite E. split; reflexivity.
Qed.

(** * The request of the chat endpoint *)

Lemma repeated_role_cons2 (a b : Message) (l : list Message) :
  repeated_role (a :: b :: l)
  = if String.eqb (role b) (role a) then true else repeated_role (b :: l).
Proof. reflexivity. Qed.

Lemma repeated_role_roles (l1 : list Message) :
  forall l2 : list Message,
    map role l1 = map role l2 -> repeated_role l1 = repeated_role l2.
Proof.
  induction l1 as [|a [|b l1] IH]; intros [|a' [|b' l2]]; try discriminate;
    try reflexivity.
  intros [= Ha Hb Hrest]. rewrite !repeated_role_cons2, Ha, Hb.
  destruct (String.eqb (role b') (role a')); [reflexivity|].
  apply IH. cbn [map]. congruence.
Qed.

Lemma repeated_role_suffix (l1 l2 : list Message) :
  repeated_role (l1 ++ l2) = false -> repeated_role l2 = false.
Proof.
  induction l1 as [|a l1 IH]; [auto|].
  destruct l1 as [|b l1]; cbn [app].
  - destruct l2 as [|c l2]; [reflexivity|]. rewrite repeated_role_cons2.
    destruct (String.eqb (role c) (role a)); [discriminate|auto].
  - rewrite repeated_role_cons2.
    destruct (String.eqb (role b) (role a)); [discriminate|]. exact IH.
Qed.

Lemma kept_as_role (max_chars : Z) (o k : Message) :
  kept_as max_chars o k -> role o = role k.
Proof. intros [->| ->]; reflexivity. Qed.

Lemma kept_as_content (max_chars : Z) (o k : Message) :
  kept_as max_chars o k -> content k <> EmptyString ->
  content o <> EmptyString.
Proof.
  intros [->| ->]; [auto|]. intros _. cbn.
  destruct (slice_to max_chars (content k)); discriminate.
Qed.

Lemma kept_as_roles (max_chars : Z) (out kept : list Message) :
  Forall2 (kept_as max_chars) out kept -> map role out = map role kept.
Proof.
  induction 1 as [|o k out kept Hk _ IH]; [reflexivity|].
  cbn [map]. rewrite IH, (kept_as_role _ _ _ Hk). reflexivity.
Qed.

Lemma clean_history_contents (history : list Message) :
  Forall (fun m => content m <> EmptyString) (clean_history history).
Proof.
  apply Forall_forall. intros m Hin.
  apply clean_history_spec in Hin as (m0 & _ & -> & _ & H). exact H.
Qed.

(** The newest message survives the trimming, untouched or truncated. *)
Lemma fit_newest_kept (encoder : option Encoder) (messages : list Message)
      (system_prompt : string) (out : list Message) (newest : Message) :
  fit_to_token_limit encoder messages system_prompt = Ok out ->
  last messages = Some newest ->
  exists newest' : Message,
    last out = Some newest'
    /\ kept_as (max_chars_of (available_for encoder system_prompt))
               newest' newest.
Proof.
  intros Hfit Hlast. apply fit_to_token_limit_ok in Hfit as [Hav ->].
  pose proof (max_chars_large _ Hav) as Hmax.
  apply last_Some in Hlast as [older ->].
  rewrite reverse_snoc.
  destruct (fit_loop_newest encoder (available_for encoder system_prompt)
                            newest (reverse older) 0 [])
    as (newest' & rest & -> & Hk); [lia|].
  exists newest'. split; [|exact Hk].
  simpl. rewrite reverse_cons. apply last_snoc.
Qed.

(** What [check_turns] accepts. *)
Lemma check_turns_accepts (messages : list Message) :
  check_turns messages = Ok tt <->
  repeated_role messages = false
  /\ exists newest : Message,
      last messages = Some newest /\ role newest = "user".
Proof.
  unfold check_turns.
  destruct (last messages) as [newest|]; [|split; [discriminate|]].
  - destruct (repeated_role messages); [split; [discriminate|]|].
    + intros [H _]. discriminate H.
    + destruct (String.eqb (role newest) "user") eqn:E; cbn [negb].
      * apply String.eqb_eq in E. split; eauto.
      * apply String.eqb_neq in E. split; [discriminate|].
        intros [_ (n & [= <-] & Hn)]. congruence.
  - intros [_ (n & H & _)]. discriminate H.
Qed.

(** X12: when [chat] calls the provider and when it does not.  It makes no
    call and fails when the cleaned history is empty, has two neighbours of
    the same role or does not end with the user, when the persona costs
    more than 8900 tokens, or when there is no client.  In every other
    case it makes exactly one call and answers with its outcome; the
    request carries the persona as system prompt, the reply limit of 500
    tokens and a list of messages that is not empty, alternates, ends with
    the user and has no empty content: the last messages of the cleaned
    history, each untouched or truncated.  When one counter prices every
    text, the list is the one [fit_to_token_limit] returns here. *)
Theorem chat_sends_well_formed_turns (encoder : option Encoder)
        (bedrock_client : option Client) (history : list Message)
        (persona_prompt : string) (w : World) :
  let messages := clean_history history in
  let run := chat encoder bedrock_client history persona_prompt w in
  ((messages = []
    \/ same_role_neighbours messages
    \/ (exists newest : Message,
          last messages = Some newest /\ role newest <> "user")
    \/ (8900 < count_tokens encoder persona_prompt)%Q
    \/ bedrock_client = None) ->
   run.2 = w /\ exists e : Exception, run.1 = Raise e)
  /\ (forall client : Client,
        alternating messages ->
        (exists newest : Message,
            last messages = Some newest /\ role newest = "user") ->
        (count_tokens encoder persona_prompt <= 8900)%Q ->
        bedrock_client = Some client ->
        exists sent dropped kept : list Message,
          let request := mkRequest persona_prompt sent MAX_TOKENS_CHAT in
          run = (decode_outcome (client (calls w) request),
                 {| calls := S (calls w);
                    trace := trace w ++ [Invoked request] |})
          /\ messages = dropped ++ kept
          /\ Forall2 (kept_as (max_chars_of
                                 (available_for encoder persona_prompt)))
                     sent kept
          /\ well_formed_turns sent
          /\ map role sent `suffix_of` map role messages
          /\ (single_counter encoder ->
              fit_to_token_limit encoder messages persona_prompt = Ok sent)).
Proof.
  cbv zeta. unfold chat. cbv zeta. split.
  - intros Hrefused.
    destruct (check_turns (clean_history history)) as [[]|e] eqn:Hcheck;
      [|cbn; eauto].
    apply check_turns_accepts in Hcheck
      as (Hrep & newest & Hlast & Huser).
    destruct (fit_to_token_limit encoder (clean_history history)
                                 persona_prompt) as [out|e] eqn:Hfit;
      [|cbn; eauto].
    destruct Hrefused as [Hempty|[Hsame|[Hother|[Hlong| ->]]]].
    + rewrite Hempty in Hlast. discriminate Hlast.
    + apply repeated_role_true in Hsame. congruence.
    + destruct Hother as (newest' & Hlast' & Hrole). congruence.
    + apply fit_to_token_limit_ok in Hfit as [Hav _].
      unfold available_for, MAX_TOTAL_TOKENS, MAX_TOKENS_CHAT in Hav. lra.
    + cbn. eauto.
  - intros client Halt (newest & Hlast & Huser) Hshort ->.
    assert (Hrep : repeated_role (clean_history history) = false)
      by (apply repeated_role_false, Halt).
    assert (Hcheck : check_turns (clean_history history) = Ok tt)
      by (apply check_turns_accepts; eauto).
    rewrite Hcheck.
    destruct (fit_to_token_limit encoder (clean_history history)
                                 persona_prompt) as [out|e] eqn:Hfit.
    2:{ exfalso. unfold fit_to_token_limit in Hfit. cbv zeta in Hfit.
        destruct (ltb (available_for encoder persona_prompt) 500) eqn:E;
          [|discriminate].
        apply ltb_lt in E.
        unfold available_for, MAX_TOTAL_TOKENS, MAX_TOKENS_CHAT in E. lra. }
    destruct (fit_output_shape encoder _ _ _ Hfit)
      as (dropped & kept & Hsplit & Hall & _).
    destruct (fit_newest_kept encoder _ _ _ _ Hfit Hlast)
      as (newest' & Hlast' & Hk).
    pose proof (kept_as_roles _ _ _ Hall) as Hroles.
    exists out, dropped, kept. cbv zeta. split; [reflexivity|].
    split; [exact Hsplit|]. split; [exact Hall|].
    split; [split; [|split]|split; [|reflexivity]].
    + apply repeated_role_false.
      rewrite (repeated_role_roles _ _ Hroles).
      apply (repeated_role_suffix dropped). rewrite <- Hsplit. exact Hrep.
    + exists newest'. split; [exact Hlast'|].
      rewrite (kept_as_role _ _ _ Hk). exact Huser.
    + pose proof (clean_history_contents history) as Hcontents.
      rewrite Hsplit in Hcontents. apply Forall_app in Hcontents as [_ Hkept].
      clear -Hall Hkept.
      induction Hall as [|o k out kept Hk _ IH]; [constructor|].
      apply Forall_cons in Hkept as [Hk0 Hkept].
      constructor; [exact (kept_as_content _ _ _ Hk Hk0)|auto].
    + exists (map role dropped). rewrite Hsplit, map_app, Hroles. reflexivity.
Qed.

(** X13: the configuration error depends on the system prompt alone:
    [fit_to_token_limit] raises it exactly when the prompt costs more than
    8900 tokens, and returns a list otherwise, whatever the messages. *)
Theorem fit_raises_iff_prompt_too_long (encoder : option Encoder)
        (messages : list Message) (system_prompt : string) :
  (fit_to_token_limit encoder messages system_prompt
   = Raise (HTTPException 500 "System prompt too long")
   <-> (8900 < count_tokens encoder system_prompt)%Q)
  /\ ((count_tokens encoder system_prompt <= 8900)%Q ->
      exists out : list Message,
        fit_to_token_limit encoder messages system_prompt = Ok out).
Proof.
  unfold fit_to_token_limit. cbv zeta.
  destruct (ltb (available_for encoder system_prompt) 500) eqn:E.
  - apply ltb_lt in E.
    unfold available_for, MAX_TOTAL_TOKENS, MAX_TOKENS_CHAT in E.
    split; [split; [intros _; lra|reflexivity]|]. intros H. lra.
  - apply ltb_ge in E.
    unfold available_for, MAX_TOTAL_TOKENS, MAX_TOKENS_CHAT in E.
    split; [split; [discriminate|intros H; lra]|]. eauto.
Qed.

(** * The cost of a report *)

Lemma invoked_app (l1 l2 : list Event) :
  invoked (l1 ++ l2) = (invoked l1 + invoked l2)%nat.
Proof.
  induction l1 as [|[req|seconds] l1 IH]; cbn; [reflexivity|lia|exact IH].
Qed.

Lemma waited_app (l1 l2 : list Event) :
  (waited (l1 ++ l2) == waited l1 + waited l2)%Q.
Proof.
  induction l1 as [|[req|seconds] l1 IH]; cbn; [lra|exact IH|lra].
Qed.

Lemma after_refl (w : World) : after w [] w.
Proof. split; [cbn; lia|symmetry; apply app_nil_r]. Qed.

Lemma after_trans (w1 w2 w3 : World) (e1 e2 : list Event) :
  after w1 e1 w2 -> after w2 e2 w3 -> after w1 (e1 ++ e2) w3.
Proof.
  intros [Hc1 Ht1] [Hc2 Ht2]. split.
  - rewrite Hc2, Hc1, invoked_app. lia.
  - rewrite Ht2, Ht1, app_assoc. reflexivity.
Qed.

Section CostFacts.

Variable bedrock_client : option Client.

(** One call: at most one event, a call. *)
Lemma invoke_cost (req : Request) (w : World) :
  exists events : list Event,
    after w events (_invoke_bedrock_claude bedrock_client req w).2
    /\ (invoked events <= 1)%nat /\ (waited events == 0)%Q.
Proof.
  destruct bedrock_client as [client|].
  - exists [Invoked req]. repeat split; cbn; lia || reflexivity.
  - exists []. split; [apply after_refl|]. split; [cbn; lia|reflexivity].
Qed.

(** The retry loop: at most three calls, and waits of at most 1 and 2
    seconds between them. *)
Lemma retry_cost (req : Request) (w : World) :
  exists events : list Event,
    after w events
          (retry_loop bedrock_client req (seq 0 max_retries) 1 w).2
    /\ (invoked events <= 3)%nat /\ (waited events <= 3)%Q.
Proof.
  change (seq 0 max_retries) with [0; 1; 2]%nat.
  destruct bedrock_client as [client|].
  - rewrite retry_loop_step. cbv zeta.
    destruct (rate_limited (decode_outcome (client (calls w) req)));
      cbn [andb Nat.ltb Nat.leb max_retries Nat.sub snd].
    + rewrite retry_loop_step. cbv zeta. cbn [calls trace].
      destruct (rate_limited (decode_outcome (client (S (calls w)) req)));
        cbn [andb Nat.ltb Nat.leb max_retries Nat.sub snd].
      * rewrite retry_loop_step. cbv zeta. cbn [calls trace].
        rewrite andb_false_r. cbn [snd].
        exists [Invoked req; Slept 1; Invoked req; Slept 2; Invoked req].
        split; [split; cbn; [lia|rewrite <- !app_assoc; reflexivity]|].
        split; [cbn; lia|cbn; lra].
      * exists [Invoked req; Slept 1; Invoked req].
        split; [split; cbn; [lia|rewrite <- !app_assoc; reflexivity]|].
        split; [cbn; lia|cbn; lra].
    + exists [Invoked req].
      split; [split; cbn; [lia|reflexivity]|].
      split; [cbn; lia|cbn; lra].
  - exists []. split; [apply after_refl|]. split; [cbn; lia|cbn; lra].
Qed.

(** The body of the loop for one entry: the same bounds, whether it ends
    in a record or in an exception. *)
Lemma analyze_entry_cost (chat_history : list Entry) (i : nat) (msg : Entry)
      (w : World) :
  exists events : list Event,
    after w events (analyze_entry bedrock_client chat_history i msg w).2
    /\ (invoked events <= 3)%nat /\ (waited events <= 3)%Q.
Proof.
  assert (Hnone : exists events : list Event,
             after w events w
             /\ (invoked events <= 3)%nat /\ (waited events <= 3)%Q).
  { exists []. split; [apply after_refl|]. split; [cbn; lia|cbn; lra]. }
  unfold analyze_entry.
  destruct (entry_patient_response chat_history i); [|exact Hnone].
  destruct (entry_context chat_history i); [|exact Hnone].
  destruct (entry_key "content" (entry_content msg)); [|exact Hnone].
  cbv zeta. rewrite bind_run. cbn [ret snd]. apply retry_cost.
Qed.

(** The user-role entries of a history. *)
Lemma user_entries_cons (msg : Entry) (todo : list Entry) :
  length (filter (fun entry => entry_role entry = Some "user") (msg :: todo))
  = ((if decide (entry_role msg = Some "user") then 1 else 0)
     + length (filter (fun entry => entry_role entry = Some "user") todo))%nat.
Proof. rewrite filter_cons. destruct (decide _); reflexivity. Qed.

(** The loop over the history: at most three calls and 3.5 seconds of
    waiting for each user-role entry still to visit, nothing for the
    other entries, whether or not the loop runs to its end. *)
Lemma analyze_entries_cost (chat_history : list Entry) (todo : list Entry) :
  forall (i : nat) (improvements : list ImprovementRecord) (w : World),
  exists events : list Event,
    after w events
          (analyze_entries bedrock_client chat_history i todo improvements
                           w).2
    /\ (invoked events
        <= 3 * length (filter (fun entry => entry_role entry = Some "user")
                              todo))%nat
    /\ (waited events
        <= (7 # 2)
           * of_nat (length (filter (fun entry => entry_role entry = Some "user")
                                    todo)))%Q.
Proof.
  induction todo as [|msg todo IH]; intros i improvements w.
  - exists []. split; [apply after_refl|]. split; [cbn; lia|].
    change (0 <= (7 # 2) * 0)%Q. lra.
  - set (users := length (filter (fun entry => entry_role entry = Some "user")
                                 todo)) in *.
    pose proof (of_nat_nonneg users) as Hpos.
    assert (Hstop : exists events : list Event,
               after w events w
               /\ (invoked events
                   <= 3 * length (filter
                                    (fun entry => entry_role entry = Some "user")
                                    (msg :: todo)))%nat
               /\ (waited events
                   <= (7 # 2)
                      * of_nat (length
                                  (filter
                                     (fun entry => entry_role entry = Some "user")
                                     (msg :: todo))))%Q).
    { exists []. split; [apply after_refl|]. split; [cbn; lia|].
      pose proof (of_nat_nonneg
                    (length (filter
                               (fun entry => entry_role entry = Some "user")
                               (msg :: todo)))).
      cbn [waited]. lra. }
    cbn [analyze_entries].
    destruct (entry_role msg) as [r|] eqn:Hr; cbn [entry_key];
      [|exact Hstop].
    rewrite user_entries_cons, Hr in *. fold users.
    destruct (String.eqb r "user") eqn:E.
    + apply String.eqb_eq in E. subst r.
      rewrite decide_True by reflexivity.
      rewrite bind_run.
      destruct (analyze_entry_cost chat_history i msg w)
        as (e1 & H1 & Hi1 & Hw1).
      set (w1 := (analyze_entry bedrock_client chat_history i msg w).2) in *.
      assert (Hsucc : (of_nat (1 + users) == 1 + of_nat users)%Q).
      { unfold of_nat. rewrite Nat2Z.inj_add, inject_Z_plus. reflexivity. }
      destruct (analyze_entry bedrock_client chat_history i msg w).1
        as [record|e].
      * rewrite bind_run.
        set (pause := if (i <? length chat_history - 1)%nat
                      then sleep (1 # 2) else ret tt).
        assert (Hpause : exists e2 : list Event,
                   after w1 e2 (pause w1).2
                   /\ invoked e2 = 0%nat /\ (waited e2 <= 1 # 2)%Q).
        { unfold pause. destruct (i <? length chat_history - 1)%nat.
          - exists [Slept (1 # 2)]. split; [split; cbn; [lia|reflexivity]|].
            split; [reflexivity|cbn; lra].
          - exists []. split; [apply after_refl|].
            split; [reflexivity|cbn; lra]. }
        destruct Hpause as (e2 & H2 & Hi2 & Hw2).
        destruct (IH (S i) (improvements ++ [record]) (pause w1).2)
          as (e3 & H3 & Hi3 & Hw3).
        exists (e1 ++ e2 ++ e3). split; [|split].
        -- eapply after_trans; [exact H1|].
           eapply after_trans; [exact H2|exact H3].
        -- rewrite !invoked_app. lia.
        -- rewrite !waited_app, Hsucc. lra.
      * cbn [ret snd]. exists e1. split; [exact H1|]. split; [lia|].
        rewrite Hsucc. lra.
    + apply String.eqb_neq in E.
      rewrite decide_False by congruence. cbn [Nat.add].
      apply IH.
Qed.

(** On entries that carry both keys the loop never raises. *)
Lemma analyze_entries_returns (chat_history : list Entry) :
  Forall complete chat_history ->
  forall (todo : list Entry) (i : nat) (improvements : list ImprovementRecord)
         (w : World),
    Forall complete todo ->
    exists records : list ImprovementRecord,
      (analyze_entries bedrock_client chat_history i todo improvements w).1
      = Ok records.
Proof.
  intros Hall todo.
  induction todo as [|msg todo IH]; intros i improvements w Htodo.
  - eexists. reflexivity.
  - apply Forall_cons in Htodo as [Hmsg Htodo].
    cbn [analyze_entries].
    destruct Hmsg as [[r Hr] Hc] eqn:Emsg. clear Emsg.
    rewrite Hr. cbn [entry_key].
    destruct (String.eqb r "user"); [|apply IH, Htodo].
    rewrite bind_run, analyze_entry_complete
      by first [exact Hall|exact Hmsg].
    cbv zeta. cbn [fst snd]. rewrite bind_run. apply IH, Htodo.
Qed.

End CostFacts.

(** X14: the cost of [generate_report].  It makes at most one call for the
    main report and three for each user-role entry of the history, and
    waits at most 3.5 seconds for each such entry; other entries cost
    nothing.  When the call for the main report fails, the request fails
    with its error, after at most one call and no wait: no entry was
    analysed.  On a history whose entries all carry [role] and [content]
    this is the only way for the request to fail. *)
Theorem generate_report_cost (bedrock_client : option Client)
        (create_report_prompt : string -> string) (transcript : string)
        (chat_history : option (list Entry)) (w : World) :
  let run := generate_report bedrock_client create_report_prompt transcript
                             chat_history w in
  let report_call :=
    _invoke_bedrock_claude bedrock_client
      (report_request create_report_prompt transcript) w in
  let entries := default [] chat_history in
  let users :=
    length (filter (fun entry => entry_role entry = Some "user") entries) in
  exists events : list Event,
    after w events run.2
    /\ (invoked events <= 1 + 3 * users)%nat
    /\ (waited events <= (7 # 2) * of_nat users)%Q
    /\ (forall e : Exception,
          report_call.1 = Raise e ->
          run.1 = Raise e
          /\ (invoked events <= 1)%nat /\ (waited events == 0)%Q)
    /\ (Forall complete entries ->
        forall e : Exception, run.1 = Raise e -> report_call.1 = Raise e).
Proof.
  cbv zeta. unfold generate_report. rewrite bind_run.
  set (req := report_request create_report_prompt transcript).
  destruct (invoke_cost bedrock_client req w) as (e1 & H1 & Hi1 & Hw1).
  set (users := length (filter (fun entry => entry_role entry = Some "user")
                               (default [] chat_history))).
  pose proof (of_nat_nonneg users) as Hn.
  destruct (_invoke_bedrock_claude bedrock_client req w).1 as [report|e].
  - rewrite bind_run. cbn [fst snd ret].
    set (w1 := (_invoke_bedrock_claude bedrock_client req w).2) in *.
    assert (Hloop : exists e2 : list Event,
               after w1 e2 (analyze_history bedrock_client chat_history w1).2
               /\ (invoked e2 <= 3 * users)%nat
               /\ (waited e2 <= (7 # 2) * of_nat users)%Q).
    { unfold users.
      destruct chat_history as [[|msg entries]|]; cbn [analyze_history default].
      - exists []. split; [apply after_refl|]. split; [cbn; lia|].
        change (0 <= (7 # 2) * 0)%Q. lra.
      - apply analyze_entries_cost.
      - exists []. split; [apply after_refl|]. split; [cbn; lia|].
        change (0 <= (7 # 2) * 0)%Q. lra. }
    destruct Hloop as (e2 & H2 & Hi2 & Hw2).
    exists (e1 ++ e2). split; [eapply after_trans; eassumption|].
    split; [rewrite invoked_app; lia|].
    split; [rewrite waited_app; lra|]. split; [discriminate|].
    intros Hall e.
    assert (Hok : exists records : list ImprovementRecord,
               (analyze_history bedrock_client chat_history w1).1
               = Ok records).
    { destruct chat_history as [[|msg entries]|]; cbn [analyze_history default];
        try (eexists; reflexivity).
      apply analyze_entries_returns; exact Hall. }
    destruct Hok as [records ->]. discriminate.
  - cbn [fst snd ret]. exists e1. split; [exact H1|].
    split; [lia|]. split; [lra|]. split; [|intros _ e' [= <-]; reflexivity].
    intros e' [= <-]. auto.
Qed.

(** * Entries that lack a key *)

Lemma entry_context_returns (entries : list Entry) (i : nat) :
  Forall complete (take i entries) ->
  exists context : string, entry_context entries i = Ok context.
Proof.
  intros Hall. unfold entry_context.
  destruct (0 <? i)%nat eqn:E; [|eexists; reflexivity].
  apply Nat.ltb_lt in E.
  rewrite take_drop_commute.
  replace (i - 2 + (i - (i - 2)))%nat with i by lia.
  rewrite entry_context_parts_complete by (apply Forall_drop, Hall).
  eexists. reflexivity.
Qed.

Section MissingKeys.

Variable bedrock_client : option Client.
Variables (bad : Entry) (after_bad : list Entry).

(** The entry after position [length done] of [done ++ m :: rest]. *)
Lemma lookup_next (done : list Entry) (m : Entry) (rest : list Entry) :
  (done ++ m :: rest) !! (length done + 1)%nat = head rest.
Proof.
  rewrite lookup_app_r by lia.
  replace (length done + 1 - length done)%nat with 1%nat by lia.
  destruct rest; reflexivity.
Qed.

(** The body of the loop for a complete user entry whose predecessors are
    complete: it returns a record, or raises what reading the next entry
    raises. *)
Lemma analyze_entry_next (done : list Entry) (m : Entry)
      (rest : list Entry) (w : World) :
  Forall complete done -> complete m ->
  let run := analyze_entry bedrock_client (done ++ m :: rest) (length done)
                           m w in
  match entry_patient_response (done ++ m :: rest) (length done) with
  | Raise e => run = (Raise e, w)
  | Ok _ => exists record : ImprovementRecord, run.1 = Ok record
  end.
Proof.
  intros Hdone [_ [c Hc]]. cbv zeta. unfold analyze_entry.
  destruct (entry_patient_response (done ++ m :: rest) (length done));
    [|reflexivity].
  destruct (entry_context_returns (done ++ m :: rest) (length done))
    as [context ->].
  { rewrite take_app_length. exact Hdone. }
  rewrite Hc. cbn [entry_key]. cbv zeta. rewrite bind_run.
  eexists. reflexivity.
Qed.

(** An entry without [role] ends the request with [KeyError], whatever
    the complete entries before it and the provider do. *)
Lemma analyze_entries_missing_role (rest : list Entry) :
  entry_role bad = None ->
  forall (done : list Entry) (improvements : list ImprovementRecord)
         (w : World),
    Forall complete done -> Forall complete rest ->
    (analyze_entries bedrock_client (done ++ rest ++ bad :: after_bad)
                     (length done) (rest ++ bad :: after_bad)
                     improvements w).1
    = Raise (OtherException "'role'").
Proof.
  intros Hbad.
  induction rest as [|m rest IH]; intros done improvements w Hdone Hrest.
  - cbn [app analyze_entries]. rewrite Hbad. reflexivity.
  - apply Forall_cons in Hrest as [Hm Hrest].
    assert (Hnext : forall imps w',
               (analyze_entries bedrock_client
                  (done ++ (m :: rest) ++ bad :: after_bad)
                  (S (length done)) (rest ++ bad :: after_bad) imps w').1
               = Raise (OtherException "'role'")).
    { intros imps w'.
      specialize (IH (done ++ [m]) imps w').
      rewrite length_app, Nat.add_1_r, <- app_assoc in IH.
      apply IH; [|exact Hrest].
      apply Forall_app. split; [exact Hdone|]. constructor; auto. }
    cbn [app analyze_entries].
    destruct Hm as [[r Hr] Hc] eqn:Em. clear Em.
    rewrite Hr. cbn [entry_key].
    destruct (String.eqb r "user"); [|apply Hnext].
    rewrite bind_run.
    pose proof (analyze_entry_next done m (rest ++ bad :: after_bad) w
                                   Hdone Hm) as Hrun.
    cbv zeta in Hrun.
    destruct (entry_patient_response (done ++ m :: rest ++ bad :: after_bad)
                                     (length done)) as [pr|e] eqn:Epr.
    + destruct Hrun as [record ->]. rewrite bind_run. apply Hnext.
    + rewrite Hrun. cbn [fst snd ret].
      unfold entry_patient_response in Epr. rewrite lookup_next in Epr.
      destruct rest as [|n rest].
      * cbn [app head] in Epr. rewrite Hbad in Epr.
        injection Epr as <-. reflexivity.
      * apply Forall_cons in Hrest as [[[rn Hrn] [cn Hcn]] _].
        cbn [app head] in Epr. rewrite Hrn, Hcn in Epr. cbn in Epr.
        destruct (String.eqb rn "assistant"); discriminate Epr.
Qed.

(** A user entry without [content] ends the request with [KeyError] in
    the same way, when the entries around it are complete. *)
Lemma analyze_entries_missing_content (rest : list Entry) :
  entry_role bad = Some "user" -> entry_content bad = None ->
  Forall complete after_bad ->
  forall (done : list Entry) (improvements : list ImprovementRecord)
         (w : World),
    Forall complete done -> Forall complete rest ->
    (analyze_entries bedrock_client (done ++ rest ++ bad :: after_bad)
                     (length done) (rest ++ bad :: after_bad)
                     improvements w).1
    = Raise (OtherException "'content'").
Proof.
  intros Hrole Hcontent Hafter.
  induction rest as [|m rest IH]; intros done improvements w Hdone Hrest.
  - cbn [app analyze_entries]. rewrite Hrole. cbn [entry_key String.eqb
      Ascii.eqb Bool.eqb andb]. rewrite bind_run.
    unfold analyze_entry.
    assert (Hpr : exists pr : string,
               entry_patient_response (done ++ bad :: after_bad)
                                      (length done) = Ok pr).
    { unfold entry_patient_response. rewrite lookup_next.
      destruct after_bad as [|n rest']; [eexists; reflexivity|].
      apply Forall_cons in Hafter as [[[rn Hrn] [cn Hcn]] _].
      cbn [head]. rewrite Hrn, Hcn. cbn.
      destruct (String.eqb rn "assistant"); eexists; reflexivity. }
    destruct Hpr as [pr ->].
    destruct (entry_context_returns (done ++ bad :: after_bad) (length done))
      as [context ->].
    { rewrite take_app_length. exact Hdone. }
    rewrite Hcontent. reflexivity.
  - apply Forall_cons in Hrest as [Hm Hrest].
    assert (Hnext : forall imps w',
               (analyze_entries bedrock_client
                  (done ++ (m :: rest) ++ bad :: after_bad)
                  (S (length done)) (rest ++ bad :: after_bad) imps w').1
               = Raise (OtherException "'content'")).
    { intros imps w'.
      specialize (IH (done ++ [m]) imps w').
      rewrite length_app, Nat.add_1_r, <- app_assoc in IH.
      apply IH; [|exact Hrest].
      apply Forall_app. split; [exact Hdone|]. constructor; auto. }
    cbn [app analyze_entries].
    destruct Hm as [[r Hr] Hc] eqn:Em. clear Em.
    rewrite Hr. cbn [entry_key].
    destruct (String.eqb r "user"); [|apply Hnext].
    rewrite bind_run.
    pose proof (analyze_entry_next done m (rest ++ bad :: after_bad) w
                                   Hdone Hm) as Hrun.
    cbv zeta in Hrun.
    destruct (entry_patient_response (done ++ m :: rest ++ bad :: after_bad)
                                     (length done)) as [pr|e] eqn:Epr.
    + destruct Hrun as [record ->]. rewrite bind_run. apply Hnext.
    + exfalso.
      unfold entry_patient_response in Epr. rewrite lookup_next in Epr.
      destruct rest as [|n rest].
      * cbn [app head] in Epr. rewrite Hrole in Epr. cbn in Epr.
        discriminate Epr.
      * apply Forall_cons in Hrest as [[[rn Hrn] [cn Hcn]] _].
        cbn [app head] in Epr. rewrite Hrn, Hcn in Epr. cbn in Epr.
        destruct (String.eqb rn "assistant"); discriminate Epr.
Qed.

End MissingKeys.

(** X26: an entry of the history that lacks a key fails the whole request.
    When the call for the main report has succeeded and the entries before
    it carry both keys, an entry without [role] makes [generate_report]
    raise [KeyError('role')], and a user entry without [content], followed
    by entries that carry both keys, makes it raise [KeyError('content')]:
    whatever the provider answers, no record is returned, also for the
    messages analysed before. *)
Theorem entry_without_key_fails_report (bedrock_client : option Client)
        (create_report_prompt : string -> string) (transcript : string)
        (before after_bad : list Entry) (bad : Entry) (w : World)
        (report : string) :
  let run := generate_report bedrock_client create_report_prompt transcript
                             (Some (before ++ bad :: after_bad)) w in
  Forall complete before ->
  (_invoke_bedrock_claude bedrock_client
     (report_request create_report_prompt transcript) w).1 = Ok report ->
  (entry_role bad = None -> run.1 = Raise (OtherException "'role'"))
  /\ (entry_role bad = Some "user" ->
      entry_content bad = None ->
      Forall complete after_bad ->
      run.1 = Raise (OtherException "'content'")).
Proof.
  cbv zeta. intros Hbefore Hreport.
  unfold generate_report. rewrite bind_run, Hreport, bind_run.
  cbn [ret fst].
  assert (Hloop : forall w1,
             analyze_history bedrock_client
                             (Some (before ++ bad :: after_bad)) w1
             = analyze_entries bedrock_client
                               ([] ++ before ++ bad :: after_bad)
                               (length (@nil Entry))
                               (before ++ bad :: after_bad) [] w1).
  { intros w1. unfold analyze_history.
    destruct (before ++ bad :: after_bad) eqn:E; [|reflexivity].
    destruct before; discriminate E. }
  rewrite Hloop. split.
  - intros Hrole.
    rewrite (analyze_entries_missing_role bedrock_client bad after_bad before
               Hrole [] [] _ (Forall_nil_2 _) Hbefore).
    reflexivity.
  - intros Hrole Hcontent Hafter.
    rewrite (analyze_entries_missing_content bedrock_client bad after_bad
               before Hrole Hcontent Hafter [] [] _ (Forall_nil_2 _)
               Hbefore).
    reflexivity.
Qed.

(** X15: when the provider throttles all three attempts for an utterance,
    the record says that the service is busy, with [needs_improvement]
    false, after three calls and waits of 1 and 2 seconds. *)
Theorem exhausted_rate_limit_is_busy (client : Client)
        (chat_history : list Message) (i : nat) (msg : Message) (w : World) :
  let req := improvement_request chat_history i msg in
  (forall k : nat,
      (k < 3)%nat ->
      client (k + calls w)%nat req = ClientError "ThrottlingException") ->
  analyze_utterance (Some client) chat_history i msg w
  = ({| therapist_message := content msg;
        patient_response := patient_response_at chat_history i;
        improvement :=
          (fallback_opening
           ++ "The AI service is currently busy. This response will be analyzed in the summary above.")%string;
        needs_improvement := false |},
     {| calls := (3 + calls w)%nat;
        trace := trace w ++ [Invoked req; Slept 1; Invoked req; Slept 2;
                             Invoked req] |}).
Proof.
  cbv zeta. intros Hthrottled.
  pose proof (Hthrottled 0%nat ltac:(lia)) as H0.
  pose proof (Hthrottled 1%nat ltac:(lia)) as H1.
  pose proof (Hthrottled 2%nat ltac:(lia)) as H2.
  cbn [Nat.add] in H0, H1, H2.
  rewrite analyze_utterance_run. cbv zeta.
  change (seq 0 max_retries) with [0; 1; 2]%nat.
  rewrite retry_loop_step. cbv zeta. rewrite H0.
  cbn [decode_outcome String.eqb Ascii.eqb Bool.eqb rate_limited Z.eqb Pos.eqb
       andb Nat.ltb Nat.leb max_retries Nat.sub].
  rewrite retry_loop_step. cbv zeta. cbn [calls trace]. rewrite H1.
  cbn [decode_outcome String.eqb Ascii.eqb Bool.eqb rate_limited Z.eqb Pos.eqb
       andb Nat.ltb Nat.leb max_retries Nat.sub].
  rewrite retry_loop_step. cbv zeta. cbn [calls trace]. rewrite H2.
  cbn [decode_outcome String.eqb Ascii.eqb Bool.eqb rate_limited Z.eqb Pos.eqb
       andb Nat.ltb Nat.leb max_retries Nat.sub fst snd].
  rewrite <- !app_assoc. reflexivity.
Qed.

(** * Videos and the session set-up *)

Lemma video_filename_cases (age : Z) (gender : string) :
  get_video_filename age gender ∈ allowed_videos.
Proof.
  unfold get_video_filename. cbv zeta.
  destruct (age <=? 25), (age <=? 40), (age <=? 60),
    (bool_decide (strip (Text.lower gender) ∈ ["male"; "m"; "man"])),
    (bool_decide (strip (Text.lower gender) ∈ ["female"; "f"; "woman"]));
    cbn; unfold allowed_videos; set_solver.
Qed.

(** X16: whatever the age and the gender text, [get_video_filename] names
    one of the eight videos that [get_video_by_name] allows, so that video
    is served whenever its file is in place. *)
Theorem video_filename_is_served (path_exists : string -> bool) (age : Z)
        (gender : string) :
  let filename := get_video_filename age gender in
  filename ∈ allowed_videos
  /\ (path_exists ("templates/" ++ filename)%string = true ->
      get_video_by_name path_exists filename
      = Ok ("templates/" ++ filename)%string).
Proof.
  cbv zeta. split; [apply video_filename_cases|].
  intros Hfile. unfold get_video_by_name. cbv zeta.
  rewrite bool_decide_eq_true_2 by apply video_filename_cases.
  rewrite Hfile. reflexivity.
Qed.

(** X17: [start_session] makes at most one provider call and waits for
    nothing; the video it names is one of the eight allowed ones, and
    unless it is the default [male-adult.mp4] it is the one chosen for the
    age and gender and its file is in place; when the call for the
    backstory fails, the backstory names the first disease of the list. *)
Theorem start_session_outcome (path_exists : string -> bool)
        (create_base_persona :
           string -> Z -> string -> string -> string -> string -> string)
        (bedrock_client : option Client) (request : SessionStartRequest)
        (w : World) :
  let run := start_session path_exists create_base_persona bedrock_client
                           request w in
  let video := video_filename run.1 in
  video ∈ allowed_videos
  /\ (video <> "male-adult.mp4" ->
      video = get_video_filename (ss_age request) (ss_gender request)
      /\ path_exists ("templates/" ++ video)%string = true)
  /\ system_prompt run.1
     = create_base_persona (ss_diseases request) (ss_age request)
         (ss_ethnicity request) (ss_working_domain request)
         (ss_gender request) (backstory run.1)
  /\ (exists events : list Event,
        after w events run.2
        /\ (invoked events <= 1)%nat /\ (waited events == 0)%Q)
  /\ (bedrock_client = None ->
      run.2 = w
      /\ backstory run.1
         = ("Trauma from " ++ strip (before_comma (ss_diseases request))
            ++ ".")%string).
Proof.
  cbv zeta. unfold start_session, _generate_unique_backstory.
  cbv zeta. rewrite !bind_run. cbn [ret fst snd video_filename system_prompt
                                     backstory].
  split; [|split; [|split; [reflexivity|split]]].
  - destruct (path_exists _); cbn [negb];
      [apply video_filename_cases|unfold allowed_videos; set_solver].
  - destruct (path_exists _) eqn:E; cbn [negb]; [auto|congruence].
  - apply invoke_cost.
  - intros ->. split; reflexivity.
Qed.

(** * Texts *)

Lemma str_app_nil_r (s : string) : (s ++ EmptyString)%string = s.
Proof.
  induction s as [|c s IH]; [reflexivity|].
  change (String c (s ++ EmptyString)%string = String c s). rewrite IH.
  reflexivity.
Qed.

Lemma str_app_assoc (a b c : string) :
  ((a ++ b) ++ c)%string = (a ++ (b ++ c))%string.
Proof.
  induction a as [|x a IH]; [reflexivity|].
  change (String x ((a ++ b) ++ c)%string = String x (a ++ (b ++ c))%string).
  rewrite IH. reflexivity.
Qed.

Lemma str_length_app (a b : string) :
  String.length (a ++ b) = (String.length a + String.length b)%nat.
Proof.
  induction a as [|x a IH]; [reflexivity|].
  change (S (String.length (a ++ b))
          = S (String.length a + String.length b)).
  rewrite IH. reflexivity.
Qed.

Lemma take_chars_length (n : nat) :
  forall s : string,
    String.length (take_chars n s) = Nat.min n (String.length s).
Proof.
  induction n as [|n IH]; intros [|c s]; cbn; try reflexivity.
  rewrite IH. reflexivity.
Qed.

Lemma take_chars_all (n : nat) :
  forall s : string, (String.length s <= n)%nat -> take_chars n s = s.
Proof.
  induction n as [|n IH]; intros [|c s]; cbn; intros H; try reflexivity;
    [lia|].
  rewrite IH by lia. reflexivity.
Qed.

(** X18: the transcript put in the report prompt is never longer than 3003
    characters: a transcript of at most 3000 characters is passed as it
    is, a longer one is cut to its first 3000 characters and marked with
    an ellipsis. *)
Theorem report_transcript_bounded (transcript : string) :
  (String.length (report_transcript transcript) <= 3003)%nat
  /\ ((String.length transcript <= 3000)%nat ->
      report_transcript transcript = transcript)
  /\ ((3000 < String.length transcript)%nat ->
      report_transcript transcript
      = (take_chars 3000 transcript ++ "...")%string
      /\ String.length (report_transcript transcript) = 3003%nat).
Proof.
  unfold report_transcript, slice_to. cbv zeta.
  change (3000 <? 0) with false. cbv iota.
  change (Z.to_nat 3000) with 3000%nat.
  destruct (3000 <? Z.of_nat (String.length transcript)) eqn:E.
  - apply Z.ltb_lt in E.
    assert (Hlen : String.length (take_chars 3000 transcript ++ "...")
                   = 3003%nat).
    { rewrite str_length_app, take_chars_length.
      change (String.length "...") with 3%nat. lia. }
    split; [lia|]. split; [lia|]. auto.
  - apply Z.ltb_ge in E.
    rewrite str_app_nil_r, take_chars_all by lia.
    split; [lia|]. split; [reflexivity|lia].
Qed.

(** ** Stripping *)

Lemma rev_onto_acc (s : string) :
  forall acc : string, rev_onto s acc = (str_rev s ++ acc)%string.
Proof.
  unfold str_rev. induction s as [|c s IH]; intros acc; cbn; [reflexivity|].
  rewrite (IH (String c acc)), (IH (String c EmptyString)), str_app_assoc.
  reflexivity.
Qed.

Lemma str_rev_cons (c : ascii) (s : string) :
  str_rev (String c s) = (str_rev s ++ String c EmptyString)%string.
Proof. unfold str_rev at 1. cbn. apply rev_onto_acc. Qed.

Lemma str_rev_app (a b : string) :
  str_rev (a ++ b) = (str_rev b ++ str_rev a)%string.
Proof.
  induction a as [|c a IH].
  - change (str_rev b = (str_rev b ++ EmptyString)%string).
    symmetry. apply str_app_nil_r.
  - change (String c a ++ b)%string with (String c (a ++ b)%string).
    rewrite !str_rev_cons, IH, str_app_assoc. reflexivity.
Qed.

Lemma str_rev_involutive (s : string) : str_rev (str_rev s) = s.
Proof.
  induction s as [|c s IH]; [reflexivity|].
  rewrite str_rev_cons, str_rev_app, IH. reflexivity.
Qed.

Lemma lstrip_idempotent (s : string) : lstrip (lstrip s) = lstrip s.
Proof.
  induction s as [|c s IH]; [reflexivity|]. cbn.
  destruct (is_space c) eqn:E; [exact IH|]. cbn. rewrite E. reflexivity.
Qed.

(** What [lstrip] leaves starts with a character that is not a space. *)
Lemma lstrip_head (s : string) (c : ascii) (r : string) :
  lstrip s = String c r -> is_space c = false.
Proof.
  induction s as [|x s IH]; [discriminate|]. cbn.
  destruct (is_space x) eqn:E; [exact IH|]. intros [= <- _]. exact E.
Qed.

(** [lstrip] removes a prefix. *)
Lemma lstrip_suffix (s : string) :
  exists p : string, s = (p ++ lstrip s)%string.
Proof.
  induction s as [|x s [p IH]]; [exists EmptyString; reflexivity|].
  cbn [lstrip]. destruct (is_space x).
  - exists (String x p).
    change (String x s = String x (p ++ lstrip s)%string).
    rewrite <- IH. reflexivity.
  - exists EmptyString. reflexivity.
Qed.

Lemma strip_idempotent (s : string) : strip (strip s) = strip s.
Proof.
  unfold strip.
  set (a := lstrip s).
  set (b := str_rev (lstrip (str_rev a))).
  assert (Hb : lstrip b = b).
  { destruct b as [|c r] eqn:Eb; [reflexivity|].
    destruct (lstrip_suffix (str_rev a)) as [p Hp].
    apply (f_equal str_rev) in Hp.
    rewrite str_rev_involutive, str_rev_app in Hp.
    fold b in Hp. rewrite Eb in Hp. cbn in Hp.
    assert (Hc : is_space c = false).
    { apply (lstrip_head s c (r ++ str_rev p)). fold a. exact Hp. }
    cbn. rewrite Hc. reflexivity. }
  rewrite Hb. unfold b.
  rewrite str_rev_involutive, lstrip_idempotent. reflexivity.
Qed.

(** X19: cleaning is idempotent: a cleaned history is left as it is by
    another cleaning, so what [chat] validates does not depend on whether
    the client stripped the contents itself. *)
Theorem clean_history_idempotent (history : list Message) :
  clean_history (clean_history history) = clean_history history.
Proof.
  unfold clean_history.
  induction history as [|m history IH]; [reflexivity|].
  rewrite filter_cons.
  destruct (decide (truthy (content m) && truthy (strip (content m)) = true))
    as [Hm|Hm]; [|exact IH].
  cbn [map]. rewrite filter_cons. cbn [content role].
  rewrite strip_idempotent.
  apply andb_true_iff in Hm as [_ Hs].
  rewrite decide_True by (rewrite Hs; reflexivity).
  cbn [map content role]. rewrite strip_idempotent, IH. reflexivity.
Qed.

Lemma upper_app (a b : string) :
  Text.upper (a ++ b) = (Text.upper a ++ Text.upper b)%string.
Proof.
  unfold Text.upper. induction a as [|c a IH]; [reflexivity|].
  change (Text.map_chars Text.upper_char (String c a ++ b))
    with (Text.upper_char c
          ++ Text.map_chars Text.upper_char (a ++ b))%string.
  rewrite IH, <- str_app_assoc. reflexivity.
Qed.

Lemma prefix_app (p s : string) : String.prefix p (p ++ s) = true.
Proof.
  induction p as [|c p IH]; [destruct s; reflexivity|].
  change (String c p ++ s)%string with (String c (p ++ s)%string).
  cbn [String.prefix]. destruct (ascii_dec c c); [exact IH|congruence].
Qed.

Lemma contains_cons (needle : string) (c : ascii) (hay : string) :
  Text.contains needle hay = true ->
  Text.contains needle (String c hay) = true.
Proof.
  intros H. cbn [Text.contains]. rewrite H. apply orb_true_r.
Qed.

Lemma contains_middle (needle a b : string) :
  Text.contains needle (a ++ needle ++ b) = true.
Proof.
  induction a as [|c a IH].
  - change (Text.contains needle (needle ++ b) = true).
    destruct (needle ++ b)%string eqn:E; cbn [Text.contains];
      rewrite <- E, prefix_app; reflexivity.
  - apply contains_cons, IH.
Qed.

(** X20: the flag looks for the marker anywhere and in any case: a reply
    that holds, at any place, a text whose upper case is
    [NEEDS_IMPROVEMENT] gives a record with [needs_improvement] true, also
    when the reply says that the utterance is good. *)
Theorem needs_improvement_any_case_any_place (msg : Message)
        (patient_response before marker rest : string) :
  Text.upper marker = "NEEDS_IMPROVEMENT" ->
  needs_improvement
    (record_of msg patient_response (Ok (before ++ marker ++ rest)%string))
  = true.
Proof.
  intros Hmarker. cbn [record_of needs_improvement].
  rewrite !upper_app, Hmarker. apply contains_middle.
Qed.

(** * Files of another shape *)

Lemma lookup_cell_absent (key : string) (fieldnames : list string) :
  key ∉ fieldnames ->
  forall record : list string,
    lookup_cell key (zip_pad fieldnames record) = None.
Proof.
  induction fieldnames as [|name names IH]; intros Hnot record;
    [reflexivity|].
  apply not_elem_of_cons in Hnot as [Hne Hnot].
  destruct record as [|v vs]; cbn [zip_pad lookup_cell]; rewrite IH by exact Hnot;
    rewrite decide_False by congruence; reflexivity.
Qed.

Section OtherFiles.

Variable hash_password : string -> string.

(** X21: on a table as the program writes it, with fields within the
    reader's limit, the look-ups never raise:
    [user_exists] says whether the email is in the table, and
    [verify_user] whether some record pairs the email with the hash of the
    password. *)
Theorem table_lookups_decide (f : CsvFile) (email password : string) :
  users_table f ->
  user_exists (Some f) email = Ok (bool_decide (email ∈ emails_of f))
  /\ verify_user hash_password (Some f) email password
     = Ok (bool_decide
             (credentials_in (tail f) email (hash_password password))).
Proof.
  intros Htab. split;
    [apply user_exists_table|apply verify_user_table]; exact Htab.
Qed.

(** X22: a file whose header has no [email] column, with fields within the
    reader's limit in the header and the first record.  While it holds no
    record the look-ups answer [False]; as soon as its first record is not
    blank every look-up raises [KeyError], login and sign-up fail with that
    error, and neither the file nor the sessions change. *)
Theorem header_without_email (header first : list string)
        (records : list (list string)) (store : Store)
        (email password full_name now : string) (t0 : Q)
        (session_token : string) :
  "email" ∉ header ->
  first <> [] ->
  oversize header = false ->
  oversize first = false ->
  let f := Some (header :: first :: records) in
  user_exists (Some [header]) email = Ok false
  /\ verify_user hash_password (Some [header]) email password = Ok false
  /\ user_exists f email = Raise (KeyError "email")
  /\ verify_user hash_password f email password = Raise (KeyError "email")
  /\ login hash_password f store email password t0 session_token
     = (Raise (OtherException "'email'"), store)
  /\ signup hash_password f email password full_name now
     = (Raise (OtherException "'email'"), f)
  /\ delete_user f email = (Raise (Unreadable (KeyError "email")), f).
Proof.
  intros Hhead Hfirst Hsize Hsize1. cbv zeta.
  assert (Hget : getitem (dict_of header first) "email"
                 = Raise (KeyError "email")).
  { unfold getitem, dict_of. cbn [cells].
    rewrite lookup_cell_absent by exact Hhead. reflexivity. }
  assert (Hrows : DictReader (header :: first :: records)
                  = Ok (dict_of header first) :: read_rows header records).
  { unfold DictReader. rewrite Hsize. cbn [read_rows]. rewrite Hsize1.
    rewrite decide_False by exact Hfirst. reflexivity. }
  assert (Hex : user_exists (Some (header :: first :: records)) email
                = Raise (KeyError "email")).
  { unfold user_exists. rewrite Hrows. cbn [exists_rows]. rewrite Hget.
    reflexivity. }
  assert (Hver : verify_user hash_password
                             (Some (header :: first :: records)) email password
                 = Raise (KeyError "email")).
  { unfold verify_user. rewrite Hrows. cbn [verify_rows]. rewrite Hget.
    reflexivity. }
  split; [cbn; rewrite Hsize; reflexivity|].
  split; [cbn; rewrite Hsize; reflexivity|].
  split; [exact Hex|]. split; [exact Hver|]. split; [|split].
  - unfold login. rewrite Hver. reflexivity.
  - unfold signup. rewrite Hex. reflexivity.
  - unfold delete_user. rewrite Hrows. cbn [scan_rows]. rewrite Hget.
    reflexivity.
Qed.

End OtherFiles.

(** * The admin endpoints *)

Lemma user_view_table (r : list string) :
  length r = 4%nat ->
  exists h : string,
    r !! 1%nat = Some h
    /\ user_view (dict_of FIELDNAMES r)
       = Ok (mkUserView (r !! 0%nat) (r !! 2%nat) (r !! 3%nat)
                        (take_chars 10 h ++ "...")%string).
Proof.
  destruct r as [|a [|b [|c [|d [|]]]]]; try discriminate. intros _.
  exists b. split; reflexivity.
Qed.

Lemma user_views_table (records : list (list string))
      (tail_rows : list (result ReadError DictRow)) :
  Forall table_record records ->
  forall users : list UserView,
  exists views : list UserView,
    user_views (map (fun r => Ok (dict_of FIELDNAMES r)) records ++ tail_rows)
               users
    = user_views tail_rows (users ++ views)
    /\ map view_email views = map (fun r => r !! 0%nat) records
    /\ Forall2 (fun view r =>
                  exists h : string,
                    r !! 1%nat = Some h
                    /\ view_password_hash view
                       = (take_chars 10 h ++ "...")%string)
               views records.
Proof.
  induction 1 as [|r records [Hr Hsize] Hall IH]; intros users.
  - exists []. rewrite app_nil_r. repeat split; constructor.
  - cbn [map app user_views].
    destruct (user_view_table r Hr) as (h & Hh & ->).
    destruct (IH (users ++ [mkUserView (r !! 0%nat) (r !! 2%nat) (r !! 3%nat)
                                       (take_chars 10 h ++ "...")%string]))
      as (views & -> & Hemails & Hhashes).
    eexists (_ :: views). rewrite <- app_assoc. split; [reflexivity|].
    split; [cbn [map view_email]; rewrite Hemails; reflexivity|].
    constructor; [|exact Hhashes]. exists h. auto.
Qed.

(** X23: what the listing of [get_users] shows of the hashes.  On a table
    as the program writes it, with fields within the reader's limit, it
    never raises and lists one entry for each
    record, in order, with the email of the record and, for the hash, its
    first ten characters and an ellipsis, 13 characters at most: a hash of
    more than 13 characters, such as the 64 of a SHA-256 digest, is never
    shown whole.  A missing file gives the empty listing. *)
Theorem get_users_hides_hashes (f : CsvFile) :
  users_table f ->
  get_users None = Ok ([], None)
  /\ exists views : list UserView,
      get_users (Some f) = Ok (views, Some (length (tail f)))
      /\ map view_email views = map (fun r => r !! 0%nat) (tail f)
      /\ Forall2 (fun view r =>
                    exists h : string,
                      r !! 1%nat = Some h
                      /\ view_password_hash view
                         = (take_chars 10 h ++ "...")%string
                      /\ ((13 < String.length h)%nat ->
                          view_password_hash view <> h))
                 views (tail f)
      /\ Forall (fun view =>
                   (String.length (view_password_hash view) <= 13)%nat)
                views.
Proof.
  intros (records & -> & Hall). split; [reflexivity|].
  destruct (user_views_table records [] Hall [])
    as (views & Hrun & Hemails & Hh).
  rewrite app_nil_r in Hrun.
  exists views. unfold get_users. rewrite DictReader_table by exact Hall.
  rewrite Hrun. cbn [app tail user_views].
  assert (Hlen : length views = length records).
  { rewrite <- (length_map view_email views), Hemails. apply length_map. }
  rewrite Hlen. split; [reflexivity|]. split; [exact Hemails|].
  assert (Hshort : forall h : string,
             (String.length (take_chars 10 h ++ "...") <= 13)%nat).
  { intros h. rewrite str_length_app, take_chars_length.
    change (String.length "...") with 3%nat. lia. }
  split.
  - clear -Hh Hshort.
    induction Hh as [|view r views records (h & Hr & Hv) _ IH];
      constructor; [|exact IH].
    exists h. split; [exact Hr|]. split; [exact Hv|].
    intros Hlong E. rewrite E in Hv. specialize (Hshort h).
    rewrite <- Hv in Hshort. lia.
  - clear -Hh Hshort.
    induction Hh as [|view r views records (h & _ & Hv) _ IH];
      constructor; [|exact IH].
    rewrite Hv. apply Hshort.
Qed.

(** X24: on a table as the program writes it, with fields within the
    reader's limit, the delete endpoint answers
    that the user was deleted exactly when the email was in the table, and
    404 otherwise; asked again for the same email on the file it left, it
    answers 404 and leaves the file as it is. *)
Theorem delete_user_endpoint_answers (f : CsvFile) (email : string) :
  users_table f ->
  let first := delete_user_endpoint (Some f) email in
  let second := delete_user_endpoint first.2 email in
  first.1 = (if bool_decide (email ∈ emails_of f)
             then Ok "User deleted successfully"
             else Raise (inr (HTTPException 404 "User not found")))
  /\ second = (Raise (inr (HTTPException 404 "User not found")), first.2).
Proof.
  intros Htab. cbv zeta.
  set (kept := filter (fun r => r !! 0%nat <> Some email) (tail f)).
  assert (Hfirst : delete_user_endpoint (Some f) email
                   = (if bool_decide (email ∈ emails_of f)
                      then Ok "User deleted successfully"
                      else Raise (inr (HTTPException 404 "User not found")),
                      Some (FIELDNAMES :: kept))).
  { unfold delete_user_endpoint. rewrite delete_user_table by exact Htab.
    fold kept. destruct (bool_decide (email ∈ emails_of f)); reflexivity. }
  rewrite Hfirst. cbn [fst snd]. split; [reflexivity|].
  destruct Htab as (records & -> & Hall). cbn [tail] in kept.
  assert (Hkept : Forall table_record kept)
    by (apply kept_records_shape, Hall).
  assert (Htab' : users_table (FIELDNAMES :: kept)) by (exists kept; auto).
  assert (Hgone : email ∉ emails_of (FIELDNAMES :: kept)).
  { unfold kept. rewrite filter_other_emails by exact Hall.
    rewrite list_elem_of_filter. tauto. }
  unfold delete_user_endpoint. rewrite delete_user_table by exact Htab'.
  rewrite bool_decide_eq_false_2 by exact Hgone. cbn [tail].
  rewrite filter_absent_email by assumption. reflexivity.
Qed.

(** * A field beyond the reader's limit *)

Lemma scan_rows_unreadable (email : string) (records : list (list string))
      (e : ReadError) :
  Forall table_record records ->
  forall (users : list DictRow) (deleted : bool),
    scan_rows email (map (fun r => Ok (dict_of FIELDNAMES r)) records
                     ++ [Raise e]) users deleted
    = Raise e.
Proof.
  induction 1 as [|r records [Hr Hsize] Hall IH]; intros users deleted;
    [reflexivity|].
  cbn [map app scan_rows]. rewrite getitem_email by exact Hr.
  destruct (decide _); apply IH.
Qed.

Lemma credentials_email (records : list (list string)) (email h : string) :
  credentials_in records email h ->
  email ∈ emails_of (FIELDNAMES :: records).
Proof.
  unfold credentials_in, emails_of. cbn [tail].
  intros H. apply Exists_exists in H as (r & Hin & H0 & _).
  apply list_elem_of_fmap. exists r. split; [|exact Hin].
  destruct r; [discriminate H0|]. cbn in *. congruence.
Qed.

Section Oversize.

Variable hash_password : string -> string.

(** X25: one sign-up with a field of more than 131072 characters makes
    the table unreadable from its record on.  The sign-up itself succeeds.
    From then on [user_exists] and [verify_user] still answer [True] where
    they did before, and raise [_csv.Error] wherever they answered
    [False]: the new user cannot log in, nobody else can sign up, a wrong
    password is answered with an error rather than refused; [delete_user]
    raises for every email and leaves the file as it is, so that the
    record cannot be removed; and the listing of the users raises. *)
Theorem oversize_field_breaks_lookups (f : CsvFile) (store : Store)
        (email password full_name now : string) (t0 : Q)
        (session_token : string) :
  users_table f ->
  email ∉ emails_of f ->
  oversize [email; hash_password password; full_name; now] = true ->
  let signed := signup hash_password (Some f) email password full_name now in
  signed
  = (Ok "Account created successfully",
     Some (f ++ [[email; hash_password password; full_name; now]]))
  /\ (forall other : string,
        user_exists signed.2 other
        = if bool_decide (other ∈ emails_of f) then Ok true
          else Raise CsvError)
  /\ (forall other password' : string,
        verify_user hash_password signed.2 other password'
        = if bool_decide (credentials_in (tail f) other
                                         (hash_password password'))
          then Ok true else Raise CsvError)
  /\ login hash_password signed.2 store email password t0 session_token
     = (Raise (OtherException "field larger than field limit (131072)"),
        store)
  /\ (forall other password' full_name' now' : string,
        other ∉ emails_of f ->
        signup hash_password signed.2 other password' full_name' now'
        = (Raise (OtherException "field larger than field limit (131072)"),
           signed.2))
  /\ (forall other : string,
        delete_user signed.2 other = (Raise (Unreadable CsvError), signed.2))
  /\ get_users signed.2 = Raise (ListingReadError CsvError).
Proof.
  intros Htab Hnew Hbig. cbv zeta.
  set (big := [email; hash_password password; full_name; now]) in *.
  assert (Hsigned : signup hash_password (Some f) email password full_name now
                    = (Ok "Account created successfully", Some (f ++ [big]))).
  { unfold signup. rewrite user_exists_table by exact Htab.
    rewrite bool_decide_eq_false_2 by exact Hnew.
    rewrite create_user_appends by assumption. reflexivity. }
  rewrite Hsigned. cbn [snd]. split; [reflexivity|].
  destruct Htab as (records & -> & Hall).
  assert (Hrows : DictReader ((FIELDNAMES :: records) ++ [big])
                  = map (fun r => Ok (dict_of FIELDNAMES r)) records
                    ++ [Raise CsvError])
    by (apply (DictReader_oversize records big []); assumption).
  assert (Hex : forall other : string,
             user_exists (Some ((FIELDNAMES :: records) ++ [big])) other
             = if bool_decide (other ∈ emails_of (FIELDNAMES :: records))
               then Ok true else Raise CsvError).
  { intros other. unfold user_exists.
    rewrite Hrows, exists_rows_table by exact Hall. reflexivity. }
  assert (Hver : forall other password' : string,
             verify_user hash_password
                         (Some ((FIELDNAMES :: records) ++ [big]))
                         other password'
             = if bool_decide (credentials_in records other
                                              (hash_password password'))
               then Ok true else Raise CsvError).
  { intros other password'. unfold verify_user.
    rewrite Hrows, (verify_rows_table hash_password) by exact Hall.
    reflexivity. }
  split; [exact Hex|]. split; [exact Hver|]. split; [|split; [|split]].
  - unfold login. rewrite Hver.
    rewrite bool_decide_eq_false_2; [reflexivity|].
    intros H. apply Hnew. exact (credentials_email _ _ _ H).
  - intros other password' full_name' now' Hother.
    unfold signup. rewrite Hex.
    rewrite bool_decide_eq_false_2 by exact Hother. reflexivity.
  - intros other. unfold delete_user.
    rewrite Hrows, scan_rows_unreadable by exact Hall. reflexivity.
  - unfold get_users. rewrite Hrows.
    destruct (user_views_table records [Raise CsvError] Hall [])
      as (views & -> & _).
    reflexivity.
Qed.

End Oversize.

(** * The properties above on sample inputs *)

Module MoreWitnesses.

Import Samples MoreSamples.

Lemma one_user_table : users_table one_user.
Proof.
  exists [ann]. split; [reflexivity|].
  constructor; [split; reflexivity|constructor].
Qed.

Lemma new_record_fits :
  oversize ["c@d.com"; mark_hash "pw"; "Cy"; "2024-02-02"] = false.
Proof. reflexivity. Qed.

Lemma new_email_free : "c@d.com" ∉ emails_of one_user.
Proof. intros H. apply list_elem_of_singleton in H. discriminate H. Qed.

Lemma create_user_then_verify_witness :
  users_table one_user
  /\ ("c@d.com" ∉ emails_of one_user)
  /\ oversize ["c@d.com"; mark_hash "pw"; "Cy"; "2024-02-02"] = false
  /\ verify_user mark_hash
       (Some (one_user ++ [["c@d.com"; mark_hash "pw"; "Cy"; "2024-02-02"]]))
       "c@d.com" "pw" = Ok true.
Proof.
  split; [exact one_user_table|]. split; [exact new_email_free|].
  split; [exact new_record_fits|].
  exact (proj1 (proj2 (proj2 (proj2
           (create_user_then_verify mark_hash one_user "c@d.com" "pw" "Cy"
              "2024-02-02" one_user_table new_email_free
              new_record_fits))))).
Defined.


Lemma create_user_without_header_witness :
  oversize ["c@d.com"; mark_hash "pw"; "Cy"; "2024-02-02"] = false
  /\ user_exists
       (create_user mark_hash None "c@d.com" "pw" "Cy" "2024-02-02").2
       "c@d.com" = Ok false.
Proof.
  split; [exact new_record_fits|].
  exact (proj1 (proj2 (proj2
           (create_user_without_header mark_hash "c@d.com" "pw" "Cy"
              "2024-02-02" new_record_fits)))).
Defined.

Lemma verify_user_implies_exists_witness :
  verify_user mark_hash (Some one_user) "a@b.com" "secret" = Ok true
  /\ user_exists (Some one_user) "a@b.com" = Ok true.
Proof.
  assert (H : verify_user mark_hash (Some one_user) "a@b.com" "secret"
              = Ok true) by reflexivity.
  split; [exact H|].
  exact (verify_user_implies_exists mark_hash (Some one_user) "a@b.com"
           "secret" H).
Defined.

Lemma delete_user_removes_witness :
  users_table one_user
  /\ (delete_user (Some one_user) "a@b.com").1 = Ok true.
Proof.
  split; [exact one_user_table|].
  rewrite (proj1 (delete_user_removes mark_hash one_user "a@b.com"
                    one_user_table)).
  reflexivity.
Defined.

Lemma signup_login_round_trip_witness :
  users_table one_user
  /\ ("c@d.com" ∉ emails_of one_user)
  /\ oversize ["c@d.com"; mark_hash "pw"; "Cy"; "2024-02-02"] = false
  /\ "c@d.com" <> EmptyString
  /\ "5f2a9c" <> EmptyString
  /\ (login mark_hash
            (signup mark_hash (Some one_user) "c@d.com" "pw" "Cy"
                    "2024-02-02").2
            (MemoryStore ∅) "c@d.com" "pw" 1000 "5f2a9c").1
     = Ok "5f2a9c".
Proof.
  assert (H1 : "c@d.com" <> EmptyString) by discriminate.
  assert (H2 : "5f2a9c" <> EmptyString) by discriminate.
  split; [exact one_user_table|]. split; [exact new_email_free|].
  split; [exact new_record_fits|]. split; [exact H1|]. split; [exact H2|].
  exact (proj1 (proj2
           (signup_login_round_trip mark_hash one_user (MemoryStore ∅)
              "c@d.com" "pw" "Cy" "2024-02-02" 1000 1060 "5f2a9c"
              one_user_table new_email_free new_record_fits H1 H2))).
Defined.

Lemma sessions_are_independent_witness :
  "5f2a9c" <> "77aa01"
  /\ (verify_session
        (create_session (MemoryStore ∅) "a@b.com" 1000 "5f2a9c").2
        (Some "77aa01") 1060).1
     = (verify_session (MemoryStore ∅) (Some "77aa01") 1060).1.
Proof.
  assert (H : "5f2a9c" <> "77aa01") by discriminate.
  split; [exact H|].
  exact (proj1 (sessions_are_independent (MemoryStore ∅) "a@b.com" 1000 1060
                  "5f2a9c" "77aa01" H)).
Defined.

Lemma verify_session_refusal_is_final_witness :
  let store := (create_session (MemoryStore ∅) "a@b.com" 0 "5f2a9c").2 in
  (verify_session store (Some "5f2a9c") 90000).1 = None
  /\ (90000 <= 90001)%Q
  /\ (verify_session (verify_session store (Some "5f2a9c") 90000).2
                     (Some "5f2a9c") 90001).1 = None.
Proof.
  cbv zeta.
  assert (H1 : (verify_session
                  (create_session (MemoryStore ∅) "a@b.com" 0 "5f2a9c").2
                  (Some "5f2a9c") 90000).1 = None).
  { unfold verify_session. cbn [create_session snd truthy negb].
    rewrite lookup_insert_eq. reflexivity. }
  assert (H2 : (90000 <= 90001)%Q) by (vm_compute; discriminate).
  split; [exact H1|]. split; [exact H2|].
  exact (verify_session_refusal_is_final _ (Some "5f2a9c") 90000 90001 H1 H2).
Defined.

Lemma exhausted_rate_limit_is_busy_witness :
  let history := [mkMessage "user" "hello"] in
  let msg := mkMessage "user" "hello" in
  (forall k : nat,
      (k < 3)%nat ->
      always_throttled (k + calls empty_world)%nat
                       (improvement_request history 0 msg)
      = ClientError "ThrottlingException")
  /\ needs_improvement
       (analyze_utterance (Some always_throttled) history 0 msg
                          empty_world).1 = false.
Proof.
  cbv zeta.
  assert (H : forall k : nat,
             (k < 3)%nat ->
             always_throttled (k + calls empty_world)%nat
               (improvement_request [mkMessage "user" "hello"] 0
                                    (mkMessage "user" "hello"))
             = ClientError "ThrottlingException")
    by (intros k _; reflexivity).
  split; [exact H|].
  rewrite (exhausted_rate_limit_is_busy always_throttled
             [mkMessage "user" "hello"] 0 (mkMessage "user" "hello")
             empty_world H).
  reflexivity.
Defined.

Lemma needs_improvement_any_case_any_place_witness :
  Text.upper "Needs_Improvement" = "NEEDS_IMPROVEMENT"
  /\ needs_improvement
       (record_of (mkMessage "user" "hello") EmptyString
          (Ok ("STATUS: GOOD (not " ++ "Needs_Improvement" ++ ")")%string))
     = true.
Proof.
  assert (H : Text.upper "Needs_Improvement" = "NEEDS_IMPROVEMENT")
    by reflexivity.
  split; [exact H|].
  exact (needs_improvement_any_case_any_place (mkMessage "user" "hello")
           EmptyString "STATUS: GOOD (not " "Needs_Improvement" ")" H).
Defined.

Lemma get_users_hides_hashes_witness :
  users_table one_user
  /\ get_users (Some one_user)
     = Ok ([mkUserView (Some "a@b.com") (Some "Ann")
                       (Some "2024-01-01T00:00:00") "#secret..."],
           Some 1%nat).
Proof.
  split; [exact one_user_table|].
  destruct (proj2 (get_users_hides_hashes one_user one_user_table))
    as (views & Hrun & _).
  reflexivity.
Defined.

Lemma delete_user_endpoint_answers_witness :
  users_table one_user
  /\ (delete_user_endpoint (Some one_user) "a@b.com").1
     = Ok "User deleted successfully".
Proof.
  split; [exact one_user_table|].
  rewrite (proj1 (delete_user_endpoint_answers one_user "a@b.com"
                    one_user_table)).
  reflexivity.
Defined.

Lemma table_lookups_decide_witness :
  users_table one_user
  /\ user_exists (Some one_user) "a@b.com"
     = Ok (bool_decide ("a@b.com" ∈ emails_of one_user)).
Proof.
  split; [exact one_user_table|].
  exact (proj1 (table_lookups_decide mark_hash one_user "a@b.com" "secret"
                  one_user_table)).
Defined.

Lemma header_without_email_witness :
  ("email" ∉ ["name"; "password_hash"])
  /\ ["Ann"; "#secret"] <> []
  /\ oversize ["name"; "password_hash"] = false
  /\ oversize ["Ann"; "#secret"] = false
  /\ user_exists (Some [["name"; "password_hash"]; ["Ann"; "#secret"]]) "Ann"
     = Raise (KeyError "email").
Proof.
  assert (H1 : "email" ∉ ["name"; "password_hash"]).
  { intros H. apply elem_of_cons in H as [H|H]; [discriminate H|].
    apply list_elem_of_singleton in H. discriminate H. }
  assert (H2 : ["Ann"; "#secret"] <> @nil string) by discriminate.
  assert (H3 : oversize ["name"; "password_hash"] = false) by reflexivity.
  assert (H4 : oversize ["Ann"; "#secret"] = false) by reflexivity.
  split; [exact H1|]. split; [exact H2|]. split; [exact H3|].
  split; [exact H4|].
  exact (proj1 (proj2 (proj2
           (header_without_email mark_hash ["name"; "password_hash"]
              ["Ann"; "#secret"] [] (MemoryStore ∅) "Ann" "secret" "Ann"
              "2024-01-01" 0 "5f2a9c" H1 H2 H3 H4)))).
Defined.

(** A history whose second entry lacks its content. *)
Lemma entry_without_key_fails_report_witness :
  let client : Client := fun _ _ => Responded [text_block "STATUS: GOOD"] in
  Forall complete [entry_of (mkMessage "user" "one")]
  /\ (_invoke_bedrock_claude (Some client)
                             (report_request (fun t => t) "hello")
                             empty_world).1 = Ok "STATUS: GOOD"
  /\ (generate_report (Some client) (fun t => t) "hello"
                      (Some broken_entries) empty_world).1
     = Raise (OtherException "'content'").
Proof.
  cbv zeta.
  assert (H1 : Forall complete [entry_of (mkMessage "user" "one")])
    by (repeat constructor; eexists; reflexivity).
  assert (H2 : Forall complete [entry_of (mkMessage "user" "three")])
    by (repeat constructor; eexists; reflexivity).
  split; [exact H1|]. split; [reflexivity|].
  exact (proj2 (entry_without_key_fails_report
                  (Some (fun _ _ => Responded [text_block "STATUS: GOOD"]))
                  (fun t => t) "hello"
                  [entry_of (mkMessage "user" "one")]
                  [entry_of (mkMessage "user" "three")]
                  (mkEntry (Some "user") None) empty_world "STATUS: GOOD"
                  H1 eq_refl)
               eq_refl eq_refl H2).
Defined.

(** A sign-up with a name of 131073 characters: afterwards the new user
    cannot log in. *)
Lemma oversize_field_breaks_lookups_witness :
  let name := repeat_str "x" (1024 * 128 + 1) in
  users_table one_user
  /\ ("c@d.com" ∉ emails_of one_user)
  /\ oversize ["c@d.com"; mark_hash "pw"; name; "2024-02-02"] = true
  /\ login mark_hash
        (signup mark_hash (Some one_user) "c@d.com" "pw" name
                "2024-02-02").2
        (MemoryStore ∅) "c@d.com" "pw" 1000 "5f2a9c"
     = (Raise (OtherException "field larger than field limit (131072)"),
        MemoryStore ∅).
Proof.
  cbv zeta.
  assert (H : oversize ["c@d.com"; mark_hash "pw";
                        repeat_str "x" (1024 * 128 + 1); "2024-02-02"]
              = true) by (vm_compute; reflexivity).
  split; [exact one_user_table|]. split; [exact new_email_free|].
  split; [exact H|].
  exact (proj1 (proj2 (proj2 (proj2
           (oversize_field_breaks_lookups mark_hash one_user (MemoryStore ∅)
              "c@d.com" "pw" (repeat_str "x" (1024 * 128 + 1)) "2024-02-02"
              1000 "5f2a9c" one_user_table new_email_free H))))).
Defined.

End MoreWitnesses.
